(** * Array types, strides and index iteration of package [atype]

    A shallow embedding of [backend/atype] (array types, their strides,
    the full and the partial index iterators, the gob round trip, axis
    concatenation, shape inference from nested slices, the checks and
    asserts), of package [axes] and of the names of the element kinds,
    together with the properties the specification states about them and
    further properties of the code.

    Conventions of the embedding:
    - Go's [int] is the 64-bit two's complement integer of the supported
      platforms; a value is a [Z] and every [+], [-], [*] and [++] of the
      source that can leave the range is written with the wrapping
      operations of [GoInt].
    - A slice is a [list]; lengths of slices and loop counters that walk a
      slice are [nat].  An argument that the source compares with [nil] is
      an [option (list Z)].
    - [panic] is the [Panic] constructor of [result]; an [error] that a
      function returns is a value of [Error] (or [None] for [nil]).
    - An [iter.Seq2] is a function of the consumer [yield]; the consumer
      threads a state of its own and reads the yielded buffer without
      changing it, as the documentation of [Iter] requires. *)

From Stdlib Require Import ZArith Lia String.
From stdpp Require Import base decidable numbers option list list_numbers strings gmap.

#[local] Open Scope Z_scope.

(** ** Go's [int] *)

Module GoInt.

Definition bits : Z := 64.
Definition modulus : Z := 2 ^ bits.
Definition half : Z := 2 ^ (bits - 1).
Definition maxInt : Z := half - 1.
Definition minInt : Z := - half.

(** The value an arithmetic result takes in a two's complement [int]. *)
Definition wrap (z : Z) : Z := (z + half) mod modulus - half.

Definition add (a b : Z) : Z := wrap (a + b).
Definition sub (a b : Z) : Z := wrap (a - b).
Definition mul (a b : Z) : Z := wrap (a * b).

(** The values of the type. *)
Definition is_int (z : Z) : Prop := minInt <= z <= maxInt.

End GoInt.

(** ** Package [dtype]: the element kinds *)

Module dtype.

Inductive DType : Set :=
| InvalidDType
| Bool | Int8 | Int16 | Int32 | Int64
| Uint8 | Uint16 | Uint32 | Uint64
| Float16 | Float32 | Float64 | BFloat16
| Complex64 | Complex128
| F8E5M2 | F8E4M3FN | F8E4M3B11FNUZ | F8E5M2FNUZ | F8E4M3FNUZ
| S4 | U4 | S2 | U2
| F8E4M3 | F8E3M4 | F8E8M0FNU | F4E2M1FN | F6E3M2FN | F6E2M3FN.

(** The [int32] behind each constant. *)
Definition code (d : DType) : Z :=
  match d with
  | InvalidDType => 0
  | Bool => 1 | Int8 => 2 | Int16 => 3 | Int32 => 4 | Int64 => 5
  | Uint8 => 6 | Uint16 => 7 | Uint32 => 8 | Uint64 => 9
  | Float16 => 10 | Float32 => 11 | Float64 => 12 | BFloat16 => 13
  | Complex64 => 14 | Complex128 => 15
  | F8E5M2 => 16 | F8E4M3FN => 17 | F8E4M3B11FNUZ => 18
  | F8E5M2FNUZ => 19 | F8E4M3FNUZ => 20
  | S4 => 21 | U4 => 22 | S2 => 23 | U2 => 24
  | F8E4M3 => 25 | F8E3M4 => 26 | F8E8M0FNU => 27
  | F4E2M1FN => 28 | F6E3M2FN => 29 | F6E2M3FN => 30
  end.

Definition eqb (a b : DType) : bool := code a =? code b.

End dtype.

(** ** Array types *)

Record ArrayType : Set := mkArrayType {
  DType : dtype.DType;
  AxisLengths : list Z
}.

(** A [reflect.Type] as [arrayTypeForAnyValueRecursive] looks at it: a slice
    type with its element type, or any other type, known by its name. *)
Inductive GoType : Set :=
| TNamed (name : string)
| TSlice (elem : GoType).

(** The errors of the package, one constructor per message of the source,
    with the values the message is formatted from. *)
Inductive Error : Set :=
| ErrMakeNegativeAxis (at_ : ArrayType)
| ErrCannotConvert (t : GoType)
| ErrEmptySlice (t : GoType)
| ErrIrregular (arrayType arrayTypeTest : ArrayType)
| ErrIterOnIndicesLen (given want : nat)
| ErrIterOnAxesStridesLen (given want : nat)
| ErrIterOnAxesIndicesLen (given want : nat)
| ErrIterOnAxesInvalidAxis (axis : Z) (numAxes : nat)
| ErrGobEncode (at_ : ArrayType)
| ErrGobDecode.

(** How a call ends: with a value, with an error handed back to the caller,
    or in a panic. *)
Inductive result (A : Type) : Type :=
| Ok_ (a : A)
| Err (e : Error)
| Panic (e : Error).
Arguments Ok_ {A} a.
Arguments Err {A} e.
Arguments Panic {A} e.

(** [Make]: the range loop panics at the first negative length. *)
Definition Make (dt : dtype.DType) (axisLengths : list Z) : result ArrayType :=
  let at_ := {| AxisLengths := axisLengths; DType := dt |} in
  if existsb (fun length => length <? 0) axisLengths
  then Panic (ErrMakeNegativeAxis at_)
  else Ok_ at_.

Definition Invalid : ArrayType :=
  {| DType := dtype.InvalidDType; AxisLengths := [] |}.

Definition Ok (at_ : ArrayType) : bool :=
  negb (dtype.eqb (DType at_) dtype.InvalidDType).

Definition NumAxes (at_ : ArrayType) : nat := length (AxisLengths at_).

Definition IsScalar (at_ : ArrayType) : bool :=
  Ok at_ && (NumAxes at_ =? 0)%nat.

Definition Size (at_ : ArrayType) : Z :=
  foldl (fun size length => GoInt.mul size length) 1 (AxisLengths at_).

Definition IsZeroSize (at_ : ArrayType) : bool :=
  existsb (fun length => length =? 0) (AxisLengths at_).

(** [slices.Equal] on [[]int]. *)
Fixpoint slices_Equal (s1 s2 : list Z) : bool :=
  match s1, s2 with
  | [], [] => true
  | x :: s1', y :: s2' => (x =? y) && slices_Equal s1' s2'
  | _, _ => false
  end.

Definition Equal (at_ other : ArrayType) : bool :=
  if negb (dtype.eqb (DType at_) (DType other)) then false
  else if negb (NumAxes at_ =? NumAxes other)%nat then false
  else if IsScalar at_ then true
  else slices_Equal (AxisLengths at_) (AxisLengths other).

Definition Clone (at_ : ArrayType) : ArrayType :=
  {| DType := DType at_; AxisLengths := AxisLengths at_ |}.

(** ** Strides *)

(** The loop [for axis := numAxes - 1; axis >= 0; axis--] of [Strides];
    [n] is [axis + 1]. *)
Fixpoint Strides_loop (axisLengths : list Z) (n : nat)
    (currentStride : Z) (strides : list Z) : list Z :=
  match n with
  | O => strides
  | S axis =>
      Strides_loop axisLengths axis
        (GoInt.mul currentStride (axisLengths !!! axis))
        (<[axis := currentStride]> strides)
  end.

Definition Strides (at_ : ArrayType) : list Z :=
  let numAxes := NumAxes at_ in
  if (numAxes =? 0)%nat then []
  else
    let strides := replicate numAxes 0 in
    if IsZeroSize at_ then strides
    else Strides_loop (AxisLengths at_) numAxes 1 strides.

(** ** Iteration *)

(** One run of an iterator over a consumer with state [S]: the iterator
    returned ([Completed], also after the consumer asked to stop), it
    panicked, or the run was cut after the given number of yields. *)
Inductive iteration (S : Type) : Type :=
| Completed (s : S)
| Panicked (e : Error) (s : S)
| OutOfFuel (s : S).
Arguments Completed {S} s.
Arguments Panicked {S} e s.
Arguments OutOfFuel {S} s.

Definition final {S : Type} (r : iteration S) : S :=
  match r with
  | Completed s | Panicked _ s | OutOfFuel s => s
  end.

(** [iter.Seq2[int, []int]]: given the consumer, the bound on the number of
    yields and the consumer's state, the run. *)
Definition Seq2 : Type :=
  forall S : Type, (S -> Z -> list Z -> S * bool) -> nat -> S -> iteration S.

(** [for flatIdx, indices := range call { ... }], where evaluating [call]
    may itself panic before anything is iterated. *)
Definition range_over {S : Type} (call : result Seq2)
    (yield : S -> Z -> list Z -> S * bool) (fuel : nat) (s : S) : iteration S :=
  match call with
  | Ok_ seq => seq S yield fuel s
  | Err e | Panic e => Panicked e s
  end.

(** The consumer of the tests: append a copy of what is yielded and go on. *)
Definition collect (acc : list (Z * list Z)) (flatIdx : Z) (indices : list Z)
    : list (Z * list Z) * bool :=
  (acc ++ [(flatIdx, indices)], true).

(** The first loop of the iterator of [IterOn]: [None] when a length is
    non-positive, else the number of lengths above 1. *)
Fixpoint countNonTrivialAxes (axisLengths : list Z) (numNonTrivialAxes : nat)
    : option nat :=
  match axisLengths with
  | [] => Some numNonTrivialAxes
  | length :: rest =>
      if length <=? 0 then None
      else countNonTrivialAxes rest
             (if length >? 1 then S numNonTrivialAxes else numNonTrivialAxes)
  end.

(** Version 2, the inner loop over all axes from the last; [n] is
    [axis + 1].  [Some] is [continue v2Yielder], [None] the [break]. *)
Fixpoint v2_increment (axisLengths : list Z) (n : nat) (indices : list Z)
    : option (list Z) :=
  match n with
  | O => None
  | S axis =>
      if axisLengths !!! axis =? 1 then v2_increment axisLengths axis indices
      else
        let indices := <[axis := GoInt.add (indices !!! axis) 1]> indices in
        if indices !!! axis <? axisLengths !!! axis then Some indices
        else v2_increment axisLengths axis (<[axis := 0]> indices)
  end.

(** The list [spatialAxes] of version 3 before it is reversed. *)
Fixpoint spatialAxesFrom (axis : nat) (axisLengths : list Z) : list nat :=
  match axisLengths with
  | [] => []
  | length :: rest =>
      if length >? 1 then axis :: spatialAxesFrom (S axis) rest
      else spatialAxesFrom (S axis) rest
  end.

(** Version 3, the inner loop over [spatialAxes]. *)
Fixpoint v3_increment (axisLengths : list Z) (spatialAxes : list nat)
    (indices : list Z) : option (list Z) :=
  match spatialAxes with
  | [] => None
  | axis :: rest =>
      let indices := <[axis := GoInt.add (indices !!! axis) 1]> indices in
      if indices !!! axis <? axisLengths !!! axis then Some indices
      else v3_increment axisLengths rest (<[axis := 0]> indices)
  end.

Section Consumer.

Context {S : Type} (yield : S -> Z -> list Z -> S * bool).

(** The loop [v2Yielder]. *)
Fixpoint v2_loop (axisLengths : list Z) (fuel : nat)
    (flatIdx : Z) (indices : list Z) (s : S) : iteration S :=
  match fuel with
  | O => OutOfFuel s
  | Datatypes.S fuel =>
      let '(s, continue) := yield s flatIdx indices in
      if negb continue then Completed s
      else
        let flatIdx := GoInt.add flatIdx 1 in
        match v2_increment axisLengths (length axisLengths) indices with
        | Some indices => v2_loop axisLengths fuel flatIdx indices s
        | None => Completed s
        end
  end.

(** The loop [v3Yielder]. *)
Fixpoint v3_loop (axisLengths : list Z) (spatialAxes : list nat) (fuel : nat)
    (flatIdx : Z) (indices : list Z) (s : S) : iteration S :=
  match fuel with
  | O => OutOfFuel s
  | Datatypes.S fuel =>
      let '(s, continue) := yield s flatIdx indices in
      if negb continue then Completed s
      else
        let flatIdx := GoInt.add flatIdx 1 in
        match v3_increment axisLengths spatialAxes indices with
        | Some indices => v3_loop axisLengths spatialAxes fuel flatIdx indices s
        | None => Completed s
        end
  end.

(** The function literal that [IterOn] returns. *)
Definition IterOn_seq (at_ : ArrayType) (indices : list Z)
    (fuel : nat) (s : S) : iteration S :=
  if negb (Ok at_) then Completed s
  else
    let numAxes := NumAxes at_ in
    if (numAxes =? 0)%nat then Completed (fst (yield s 0 indices))
    else
      match countNonTrivialAxes (AxisLengths at_) 0 with
      | None => Completed s
      | Some numNonTrivialAxes =>
          let indices := replicate (length indices) 0 in
          if (numNonTrivialAxes =? 0)%nat
          then Completed (fst (yield s 0 indices))
          else if (numNonTrivialAxes + 2 <? numAxes)%nat
          then v2_loop (AxisLengths at_) fuel 0 indices s
          else
            let spatialAxes := reverse (spatialAxesFrom 0 (AxisLengths at_)) in
            v3_loop (AxisLengths at_) spatialAxes fuel 0 indices s
      end.

End Consumer.

Definition IterOn (at_ : ArrayType) (indices : list Z) : result Seq2 :=
  if negb (length indices =? NumAxes at_)%nat
  then Panic (ErrIterOnIndicesLen (length indices) (NumAxes at_))
  else Ok_ (fun S yield => IterOn_seq yield at_ indices).

Definition Iter (at_ : ArrayType) : result Seq2 :=
  let indices := replicate (NumAxes at_) 0 in
  IterOn at_ indices.

(** *** Partial iteration *)

(** The range loop over [axesToIterate] at the start of the iterator of
    [IterOnAxes]: it panics at an axis out of range, returns ([Ok_ None])
    at an axis of non-positive length, and resets the indices of the axes
    it passes. *)
Fixpoint IterOnAxes_reset (axisLengths : list Z) (numAxes : nat)
    (axesToIterate : list Z) (indices : list Z) : result (option (list Z)) :=
  match axesToIterate with
  | [] => Ok_ (Some indices)
  | axis :: rest =>
      if (axis <? 0) || (Z.of_nat numAxes <=? axis)
      then Panic (ErrIterOnAxesInvalidAxis axis numAxes)
      else if axisLengths !!! Z.to_nat axis <=? 0 then Ok_ None
      else IterOnAxes_reset axisLengths numAxes rest (<[Z.to_nat axis := 0]> indices)
  end.

(** The initial [flatIdx]: [for axis := 0; axis < numAxes; axis++]. *)
Definition initialFlatIdx (numAxes : nat) (indices strides : list Z) : Z :=
  foldl (fun flatIdx axis =>
           GoInt.add flatIdx (GoInt.mul (indices !!! axis) (strides !!! axis)))
        0 (seq 0 numAxes).

(** The inner loop of [yielder], from the last entry of [axesToIterate];
    [n] is [axisIdx + 1]. *)
Fixpoint IterOnAxes_increment (axisLengths strides axesToIterate : list Z)
    (n : nat) (flatIdx : Z) (indices : list Z) : option (Z * list Z) :=
  match n with
  | O => None
  | S axisIdx =>
      let axis := Z.to_nat (axesToIterate !!! axisIdx) in
      let indices := <[axis := GoInt.add (indices !!! axis) 1]> indices in
      let flatIdx := GoInt.add flatIdx (strides !!! axis) in
      if indices !!! axis <? axisLengths !!! axis then Some (flatIdx, indices)
      else
        let flatIdx :=
          GoInt.sub flatIdx (GoInt.mul (indices !!! axis) (strides !!! axis)) in
        IterOnAxes_increment axisLengths strides axesToIterate axisIdx
          flatIdx (<[axis := 0]> indices)
  end.

Section PartialConsumer.

Context {S : Type} (yield : S -> Z -> list Z -> S * bool).

(** The loop [yielder]. *)
Fixpoint IterOnAxes_loop (axisLengths strides axesToIterate : list Z)
    (fuel : nat) (flatIdx : Z) (indices : list Z) (s : S) : iteration S :=
  match fuel with
  | O => OutOfFuel s
  | Datatypes.S fuel =>
      let '(s, continue) := yield s flatIdx indices in
      if negb continue then Completed s
      else
        match IterOnAxes_increment axisLengths strides axesToIterate
                (length axesToIterate) flatIdx indices with
        | Some (flatIdx, indices) =>
            IterOnAxes_loop axisLengths strides axesToIterate fuel flatIdx indices s
        | None => Completed s
        end
  end.

(** The function literal that [IterOnAxes] returns. *)
Definition IterOnAxes_seq (at_ : ArrayType) (axesToIterate strides indices : list Z)
    (fuel : nat) (s : S) : iteration S :=
  let numAxes := NumAxes at_ in
  if negb (Ok at_) then Completed s
  else if (numAxes =? 0)%nat then Completed (fst (yield s 0 indices))
  else
    match IterOnAxes_reset (AxisLengths at_) numAxes axesToIterate indices with
    | Panic e | Err e => Panicked e s
    | Ok_ None => Completed s
    | Ok_ (Some indices) =>
        let flatIdx := initialFlatIdx numAxes indices strides in
        IterOnAxes_loop (AxisLengths at_) strides axesToIterate fuel flatIdx indices s
    end.

End PartialConsumer.

(** The second half of the entry of [IterOnAxes], once [strides] is settled:
    the check or the allocation of [indices], and the iterator. *)
Definition IterOnAxes_indices (at_ : ArrayType) (axesToIterate strides : list Z)
    (indices : option (list Z)) : result Seq2 :=
  let numAxes := NumAxes at_ in
  match indices with
  | None =>
      let indices := replicate numAxes 0 in
      Ok_ (fun S yield => IterOnAxes_seq yield at_ axesToIterate strides indices)
  | Some indices =>
      if negb (length indices =? numAxes)%nat
      then Panic (ErrIterOnAxesIndicesLen (length indices) numAxes)
      else Ok_ (fun S yield => IterOnAxes_seq yield at_ axesToIterate strides indices)
  end.

Definition IterOnAxes (at_ : ArrayType) (axesToIterate : list Z)
    (strides indices : option (list Z)) : result Seq2 :=
  let numAxes := NumAxes at_ in
  match strides with
  | None => IterOnAxes_indices at_ axesToIterate (Strides at_) indices
  | Some strides =>
      if negb (length strides =? numAxes)%nat
      then Panic (ErrIterOnAxesStridesLen (length strides) numAxes)
      else IterOnAxes_indices at_ axesToIterate strides indices
  end.

(** ** Binary serialization *)

(** What [encoding/gob] carries for this package: one message per [Encode],
    typed by the value encoded. *)
Inductive gobMessage : Set :=
| GobDType (d : dtype.DType)
| GobInts (s : list Z).

(** A [gob.Encoder]: the messages written so far, and how many more the
    writer below it accepts before its writes fail. *)
Record Encoder : Set := mkEncoder {
  written : list gobMessage;
  room : nat
}.

(** [encoder.Encode(e)]: [true] stands for a non-nil error. *)
Definition Encoder_Encode (encoder : Encoder) (e : gobMessage) : Encoder * bool :=
  match room encoder with
  | O => (encoder, true)
  | S room' => ({| written := written encoder ++ [e]; room := room' |}, false)
  end.

(** A [gob.Decoder]: the messages still to be read. *)
Definition Decoder : Set := list gobMessage.

(** [decoder.Decode(&at.DType)]: the target is left as it is on an error. *)
Definition Decoder_Decode_DType (decoder : Decoder) (target : dtype.DType)
    : Decoder * dtype.DType * bool :=
  match decoder with
  | GobDType d :: rest => (rest, d, false)
  | _ :: rest => (rest, target, true)
  | [] => ([], target, true)
  end.

(** [decoder.Decode(&at.AxisLengths)]. *)
Definition Decoder_Decode_ints (decoder : Decoder) (target : list Z)
    : Decoder * list Z * bool :=
  match decoder with
  | GobInts s :: rest => (rest, s, false)
  | _ :: rest => (rest, target, true)
  | [] => ([], target, true)
  end.

Definition GobSerialize (at_ : ArrayType) (encoder : Encoder) : Encoder * option Error :=
  let enc := fun (e : gobMessage) '(encoder, err) =>
    match err with
    | Some _ => (encoder, err)
    | None =>
        let '(encoder, failed) := Encoder_Encode encoder e in
        (encoder, if failed then Some (ErrGobEncode at_) else None)
    end in
  let state := enc (GobDType (DType at_)) (encoder, None) in
  enc (GobInts (AxisLengths at_)) state.

Definition GobDeserialize (decoder : Decoder) : Decoder * ArrayType * option Error :=
  let at_ := {| DType := dtype.InvalidDType; AxisLengths := [] |} in
  let '(decoder, at_, err) :=
    let '(decoder, d, failed) := Decoder_Decode_DType decoder (DType at_) in
    (decoder, {| DType := d; AxisLengths := AxisLengths at_ |},
     if failed then Some ErrGobDecode else None) in
  match err with
  | Some _ => (decoder, at_, err)
  | None =>
      let '(decoder, s, failed) := Decoder_Decode_ints decoder (AxisLengths at_) in
      (decoder, {| DType := DType at_; AxisLengths := s |},
       if failed then Some ErrGobDecode else None)
  end.

(** ** Concatenation of axes *)

(** The builtin [copy(dst, src)]: the contents of [dst] afterwards. *)
Definition copy (dst src : list Z) : list Z :=
  take (length dst) src ++ drop (length src) dst.

Definition ConcatenateAxes (at1 at2 : ArrayType) : ArrayType :=
  let result := {| DType := dtype.InvalidDType; AxisLengths := [] |} in
  if dtype.eqb (DType at1) dtype.InvalidDType || dtype.eqb (DType at2) dtype.InvalidDType
  then result
  else if negb (dtype.eqb (DType at1) (DType at2)) then result
  else if IsScalar at1 then Clone at2
  else if IsScalar at2 then Clone at1
  else
    let axisLengths := replicate (NumAxes at1 + NumAxes at2) 0 in
    let axisLengths := copy axisLengths (AxisLengths at1) in
    let axisLengths :=
      take (NumAxes at1) axisLengths
      ++ copy (drop (NumAxes at1) axisLengths) (AxisLengths at2) in
    {| DType := DType at1; AxisLengths := axisLengths |}.

(** ** Shape inference *)

(** The values of a Go type, as far as shape inference reads them: the
    elements of a slice; of any other value nothing is read, its [Z] is
    only there to tell values apart. *)
Fixpoint GoValue (t : GoType) : Set :=
  match t with
  | TNamed _ => Z
  | TSlice elem => list (GoValue elem)
  end.

Section FromAnyValue.

(** [dtype.FromGoType], which is not among the sources: the element kind
    of a Go type, [InvalidDType] when it has none. *)
Variable FromGoType : GoType -> dtype.DType.

(** The loop [for ii := 1; ii < v.Len(); ii++] over the elements after the
    first, with the recursive call on the element type as [recurse]. *)
Fixpoint checkSiblings {V : Type} (recurse : ArrayType -> V -> ArrayType * option Error)
    (arrayType arrayTypePrefix : ArrayType) (others : list V) : option Error :=
  match others with
  | [] => None
  | vi :: others =>
      let arrayTypeTest := Clone arrayTypePrefix in
      let '(arrayTypeTest, err) := recurse arrayTypeTest vi in
      match err with
      | Some _ => err
      | None =>
          if negb (Equal arrayType arrayTypeTest)
          then Some (ErrIrregular arrayType arrayTypeTest)
          else checkSiblings recurse arrayType arrayTypePrefix others
      end
  end.

(** [arrayTypeForAnyValueRecursive]: the array type behind the pointer
    after the call, and the error returned. *)
Fixpoint arrayTypeForAnyValueRecursive (t : GoType)
    : ArrayType -> GoValue t -> ArrayType * option Error :=
  match t with
  | TNamed name => fun arrayType _ =>
      let arrayType :=
        {| DType := FromGoType (TNamed name); AxisLengths := AxisLengths arrayType |} in
      if dtype.eqb (DType arrayType) dtype.InvalidDType
      then (arrayType, Some (ErrCannotConvert (TNamed name)))
      else (arrayType, None)
  | TSlice elem => fun arrayType v =>
      let arrayType :=
        {| DType := DType arrayType;
           AxisLengths := AxisLengths arrayType ++ [Z.of_nat (length v)] |} in
      let arrayTypePrefix := Clone arrayType in
      match v with
      | [] => (arrayType, Some (ErrEmptySlice (TSlice elem)))
      | v0 :: others =>
          let '(arrayType, err) := arrayTypeForAnyValueRecursive elem arrayType v0 in
          match err with
          | Some _ => (arrayType, err)
          | None =>
              (arrayType,
               checkSiblings (arrayTypeForAnyValueRecursive elem)
                 arrayType arrayTypePrefix others)
          end
      end
  end.

Definition FromAnyValue (t : GoType) (v : GoValue t) : ArrayType * option Error :=
  arrayTypeForAnyValueRecursive t
    {| DType := dtype.InvalidDType; AxisLengths := [] |} v.

End FromAnyValue.

(** ** Axis access and equality of axes *)

(** How a call that may panic with a value of [E] ends. *)
Inductive outcome (E A : Type) : Type :=
| Returns (a : A)
| Panics (e : E).
Arguments Returns {E A} a.
Arguments Panics {E A} e.

(** The value [AxisLength] panics with: the axis asked for, the number of
    axes and the array type. *)
Inductive AxisLengthError : Set :=
| ErrAxisLengthOutOfBounds (axis : Z) (numAxes : nat) (at_ : ArrayType).

(** [AxisLength]: a negative [axis] has [NumAxes()] added, a sum of a
    negative and a non-negative [int], which stays in range. *)
Definition AxisLength (at_ : ArrayType) (axis : Z) : outcome AxisLengthError Z :=
  let adjustedAxis := axis in
  let adjustedAxis :=
    if adjustedAxis <? 0 then adjustedAxis + Z.of_nat (NumAxes at_) else adjustedAxis in
  if (adjustedAxis <? 0) || (Z.of_nat (NumAxes at_) <=? adjustedAxis)
  then Panics (ErrAxisLengthOutOfBounds axis (NumAxes at_) at_)
  else Returns (AxisLengths at_ !!! Z.to_nat adjustedAxis).

Definition EqualAxes (at_ other : ArrayType) : bool :=
  if negb (NumAxes at_ =? NumAxes other)%nat then false
  else if IsScalar at_ then true
  else slices_Equal (AxisLengths at_) (AxisLengths other).

(** ** Checks and asserts *)

Definition UncheckedAxis : Z := -1.

(** [HasArrayType]: what has an [ArrayType()] method. *)
Class HasArrayType (A : Type) : Type := ArrayType_of : A -> ArrayType.

(** [func (at ArrayType) ArrayType() ArrayType]. *)
#[export] Instance ArrayType_HasArrayType : HasArrayType ArrayType := fun at_ => at_.

(** The errors of the checks, one constructor per message, with the values
    the message is formatted from. *)
Inductive CheckError : Set :=
| ErrIncompatibleNumAxes (at_ : ArrayType) (numAxes wanted : nat)
| ErrIncompatibleAxisLength (at_ : ArrayType) (axis : nat) (length wantLength : Z)
    (wanted : list Z)
| ErrIncompatibleDType (at_ : ArrayType) (have wanted : dtype.DType)
| ErrIncompatibleNumAxesInt (at_ : ArrayType) (numAxes : nat) (wanted : Z)
| ErrNotScalar (at_ : ArrayType).

(** The range loop of [CheckAxisLengths], from index [ii] on. *)
Fixpoint CheckAxisLengths_loop (at_ : ArrayType) (axisLengths : list Z)
    (ii : nat) (rest : list Z) : option CheckError :=
  match rest with
  | [] => None
  | wantLength :: rest =>
      if negb (wantLength =? -1) && negb (AxisLengths at_ !!! ii =? wantLength)
      then Some (ErrIncompatibleAxisLength at_ ii (AxisLengths at_ !!! ii)
                   wantLength axisLengths)
      else CheckAxisLengths_loop at_ axisLengths (S ii) rest
  end.

Definition CheckAxisLengths (at_ : ArrayType) (axisLengths : list Z) : option CheckError :=
  if negb (NumAxes at_ =? length axisLengths)%nat
  then Some (ErrIncompatibleNumAxes at_ (NumAxes at_) (length axisLengths))
  else CheckAxisLengths_loop at_ axisLengths 0 axisLengths.

Definition Check (at_ : ArrayType) (dt : dtype.DType) (axisLengths : list Z)
    : option CheckError :=
  if negb (dtype.eqb dt (DType at_))
  then Some (ErrIncompatibleDType at_ (DType at_) dt)
  else CheckAxisLengths at_ axisLengths.

Definition CheckNumAxes (at_ : ArrayType) (numAxes : Z) : option CheckError :=
  if negb (Z.of_nat (NumAxes at_) =? numAxes)
  then Some (ErrIncompatibleNumAxesInt at_ (NumAxes at_) numAxes)
  else None.

Definition CheckScalar (at_ : ArrayType) : option CheckError :=
  if negb (IsScalar at_) then Some (ErrNotScalar at_) else None.

(** The values the asserts panic with: the name and arguments of the assert
    and the error of the check, as formatted into the message. *)
Inductive AssertPanic : Set :=
| PanicAssertAxisLengths (axisLengths : list Z) (err : CheckError)
| PanicAssert (dt : dtype.DType) (axisLengths : list Z) (err : CheckError)
| PanicAssertNumAxes (numAxes : Z) (err : CheckError)
| PanicAssertScalar (err : CheckError).

Definition AssertAxisLengths (at_ : ArrayType) (axisLengths : list Z)
    : outcome AssertPanic unit :=
  match CheckAxisLengths at_ axisLengths with
  | Some err => Panics (PanicAssertAxisLengths axisLengths err)
  | None => Returns tt
  end.

Definition Assert (at_ : ArrayType) (dt : dtype.DType) (axisLengths : list Z)
    : outcome AssertPanic unit :=
  match Check at_ dt axisLengths with
  | Some err => Panics (PanicAssert dt axisLengths err)
  | None => Returns tt
  end.

Definition AssertNumAxes (at_ : ArrayType) (numAxes : Z) : outcome AssertPanic unit :=
  match CheckNumAxes at_ numAxes with
  | Some err => Panics (PanicAssertNumAxes numAxes err)
  | None => Returns tt
  end.

Definition AssertScalar (at_ : ArrayType) : outcome AssertPanic unit :=
  match CheckScalar at_ with
  | Some err => Panics (PanicAssertScalar err)
  | None => Returns tt
  end.

(** The functions of the same names over anything with an array type. *)
Module Has.

Section Free.

Context {A : Type} `{HasArrayType A}.

Definition CheckAxisLengths (hat : A) (axisLengths : list Z) : option CheckError :=
  CheckAxisLengths (ArrayType_of hat) axisLengths.

Definition AssertAxisLengths (hat : A) (axisLengths : list Z) : outcome AssertPanic unit :=
  AssertAxisLengths (ArrayType_of hat) axisLengths.

Definition Assert (hat : A) (dt : dtype.DType) (axisLengths : list Z)
    : outcome AssertPanic unit :=
  Assert (ArrayType_of hat) dt axisLengths.

Definition CheckNumAxes (hat : A) (numAxes : Z) : option CheckError :=
  CheckNumAxes (ArrayType_of hat) numAxes.

Definition AssertNumAxes (hat : A) (numAxes : Z) : outcome AssertPanic unit :=
  AssertNumAxes (ArrayType_of hat) numAxes.

Definition CheckScalar (hat : A) : option CheckError :=
  CheckScalar (ArrayType_of hat).

Definition AssertScalar (hat : A) : outcome AssertPanic unit :=
  AssertScalar (ArrayType_of hat).

End Free.

End Has.

(** ** Package [axes] *)

Module axes.

(** An axis with a [uint] size that is known or not. *)
Record Axis : Set := mkAxis {
  size : N;
  known : bool
}.

Definition Axes : Set := list Axis.

Inductive Error : Set :=
| ErrSizeUnknown.

Definition NumAxes (a : Axes) : nat := length a.

(** [Axis.Size]: the size and the error. *)
Definition Size (a : Axis) : N * option Error :=
  if negb (known a) then (0%N, Some ErrSizeUnknown) else (size a, None).

Definition Axis_Known (a : Axis) : bool := known a.

(** [Axes.Known]: the range loop returns [false] at the first axis that is
    not known. *)
Fixpoint Known (a : Axes) : bool :=
  match a with
  | [] => true
  | axis :: rest => if negb (known axis) then false else Known rest
  end.

End axes.

(** ** The names of the element kinds *)

(** [dtype.MapOfNames], as the map literal declares it. *)
Definition MapOfNames : gmap string dtype.DType :=
  list_to_map [
    ("InvalidDType", dtype.InvalidDType);
    ("INVALID", dtype.InvalidDType);
    ("Bool", dtype.Bool);
    ("PRED", dtype.Bool);
    ("Int8", dtype.Int8);
    ("S8", dtype.Int8);
    ("Int16", dtype.Int16);
    ("S16", dtype.Int16);
    ("Int32", dtype.Int32);
    ("S32", dtype.Int32);
    ("Int64", dtype.Int64);
    ("S64", dtype.Int64);
    ("Uint8", dtype.Uint8);
    ("U8", dtype.Uint8);
    ("Uint16", dtype.Uint16);
    ("U16", dtype.Uint16);
    ("Uint32", dtype.Uint32);
    ("U32", dtype.Uint32);
    ("Uint64", dtype.Uint64);
    ("U64", dtype.Uint64);
    ("Float16", dtype.Float16);
    ("F16", dtype.Float16);
    ("Float32", dtype.Float32);
    ("F32", dtype.Float32);
    ("Float64", dtype.Float64);
    ("F64", dtype.Float64);
    ("BFloat16", dtype.BFloat16);
    ("BF16", dtype.BFloat16);
    ("Complex64", dtype.Complex64);
    ("C64", dtype.Complex64);
    ("Complex128", dtype.Complex128);
    ("C128", dtype.Complex128);
    ("F8E5M2", dtype.F8E5M2);
    ("F8E4M3FN", dtype.F8E4M3FN);
    ("F8E4M3B11FNUZ", dtype.F8E4M3B11FNUZ);
    ("F8E5M2FNUZ", dtype.F8E5M2FNUZ);
    ("F8E4M3FNUZ", dtype.F8E4M3FNUZ);
    ("S4", dtype.S4);
    ("U4", dtype.U4);
    ("S2", dtype.S2);
    ("U2", dtype.U2);
    ("F8E4M3", dtype.F8E4M3);
    ("F8E3M4", dtype.F8E3M4);
    ("F8E8M0FNU", dtype.F8E8M0FNU);
    ("F4E2M1FN", dtype.F4E2M1FN);
    ("F6E3M2FN", dtype.F6E3M2FN);
    ("F6E2M3FN", dtype.F6E2M3FN)
  ].

(** * Reference definitions

    The notions the properties are stated with: what a consumer is fed,
    the dot product, the row-major enumeration, the shapes of nested
    values. *)

(** ** Iteration *)

(** The run ended without a call of the consumer: by the return of the
    iterator or by a panic. *)
Definition nothing_yielded {S : Type} (r : iteration S) (s : S) : Prop :=
  r = Completed s \/ exists e, r = Panicked e s.

(** A consumer handed the pairs of a list one by one, up to and with the
    first pair at which it asks to stop. *)
Fixpoint feed {S : Type} (yield : S -> Z -> list Z -> S * bool)
    (s : S) (pairs : list (Z * list Z)) : S :=
  match pairs with
  | [] => s
  | (flatIdx, indices) :: pairs =>
      let '(s, continue) := yield s flatIdx indices in
      if continue then feed yield s pairs else s
  end.

(** ** Partial iteration *)

(** The dot product of a coordinate vector with the strides, in [Z]. *)
Fixpoint dot (indices strides : list Z) : Z :=
  match indices, strides with
  | i :: indices, s :: strides => i * s + dot indices strides
  | _, _ => 0
  end.

(** The strides [IterOnAxes] works with: those given, or [Strides] for nil. *)
Definition IterOnAxes_strides (at_ : ArrayType) (strides : option (list Z)) : list Z :=
  match strides with
  | None => Strides at_
  | Some strides => strides
  end.

(** What every yield of partial iteration satisfies. *)
Definition flatIdx_is_dot (strides : list Z) (pair : Z * list Z) : Prop :=
  fst pair = GoInt.wrap (dot (snd pair) strides)
  /\ (GoInt.is_int (dot (snd pair) strides) -> fst pair = dot (snd pair) strides).

(** An entry of [axesToIterate] names an axis. *)
Definition axis_in_range (numAxes : nat) (axis : Z) : Prop :=
  0 <= axis < Z.of_nat numAxes.

(** ** Full iteration *)

(** The number of elements as the product of the axis lengths, in [Z]. *)
Definition product (axisLengths : list Z) : Z := foldr Z.mul 1 axisLengths.

(** The reference enumeration: the Cartesian product of the ranges
    [0 .. length - 1] of the axes, the coordinate of the first axis in the
    outermost loop, that of the last axis in the innermost. *)
Fixpoint row_major (axisLengths : list Z) : list (list Z) :=
  match axisLengths with
  | [] => [[]]
  | length :: rest => i ← seqZ 0 length; cons i <$> row_major rest
  end.

(** Coordinates paired with consecutive flat indices. *)
Definition numbered (flatIdx : Z) (coordinates : list (list Z)) : list (Z * list Z) :=
  zip (seqZ flatIdx (Z.of_nat (length coordinates))) coordinates.

(** What full iteration is to yield: the row-major enumeration, numbered
    from 0. *)
Definition Iter_reference (at_ : ArrayType) : list (Z * list Z) :=
  numbered 0 (row_major (AxisLengths at_)).

(** Each element of the list is followed by its successor, and the last
    has none. *)
Fixpoint successive {A : Type} (next : A -> option A) (l : list A) : Prop :=
  match l with
  | [] => True
  | x :: rest => next x = head rest /\ successive next rest
  end.

(** ** Shape inference *)

(** The type of the scalars at the bottom of a Go type. *)
Fixpoint scalarType (t : GoType) : GoType :=
  match t with
  | TNamed name => TNamed name
  | TSlice elem => scalarType elem
  end.

(** A value is regular with axis lengths [dims]: at every level no slice is
    empty and the elements of a slice all have the same axis lengths. *)
Fixpoint regular (t : GoType) : GoValue t -> list Z -> Prop :=
  match t with
  | TNamed _ => fun _ dims => dims = []
  | TSlice elem => fun v dims =>
      match dims with
      | [] => False
      | d :: dims => d = Z.of_nat (length v) /\ v <> []
                     /\ Forall (fun x => regular elem x dims) v
      end
  end.

(** A value has an empty slice at some level. *)
Fixpoint has_empty (t : GoType) : GoValue t -> Prop :=
  match t with
  | TNamed _ => fun _ => False
  | TSlice elem => fun v => v = [] \/ Exists (has_empty elem) v
  end.

Section ShapeReference.

Variable FromGoType : GoType -> dtype.DType.


(** The array type inferred for a value of type [t] with axis lengths
    [dims], below the axis lengths [prefix] of the slices around it. *)
Definition inferred (t : GoType) (prefix dims : list Z) : ArrayType :=
  {| DType := FromGoType (scalarType t); AxisLengths := prefix ++ dims |}.

(** How the recursion ends on a value without an empty slice. *)
Definition regular_or_irregular (t : GoType) (arrayType : ArrayType)
    (v : GoValue t) : Prop :=
  (exists dims,
      regular t v dims
      /\ arrayTypeForAnyValueRecursive FromGoType t arrayType v
         = (inferred t (AxisLengths arrayType) dims, None))
  \/ (exists a' a b,
         arrayTypeForAnyValueRecursive FromGoType t arrayType v
           = (a', Some (ErrIrregular a b))
         /\ Equal a b = false).

End ShapeReference.

(** Modelled from the spec: [dtype.FromGoType] is not among the sources.
    The element kind of a Go type, for the types of the tests and their
    like: the basic numeric types and [bool] map to the element kind of the
    same name, every other type to [InvalidDType]. *)
Definition FromGoType_basic (t : GoType) : dtype.DType :=
  match t with
  | TNamed "bool" => dtype.Bool
  | TNamed "int8" => dtype.Int8
  | TNamed "int16" => dtype.Int16
  | TNamed "int32" => dtype.Int32
  | TNamed "int64" => dtype.Int64
  | TNamed "uint8" => dtype.Uint8
  | TNamed "uint16" => dtype.Uint16
  | TNamed "uint32" => dtype.Uint32
  | TNamed "uint64" => dtype.Uint64
  | TNamed "float32" => dtype.Float32
  | TNamed "float64" => dtype.Float64
  | TNamed "complex64" => dtype.Complex64
  | TNamed "complex128" => dtype.Complex128
  | _ => dtype.InvalidDType
  end.

(** ** Strides in closed form *)

(** For each axis the product, in [Z], of the lengths of the axes after it. *)
Fixpoint suffix_products (axisLengths : list Z) : list Z :=
  match axisLengths with
  | [] => []
  | _ :: rest => product rest :: suffix_products rest
  end.

(** ** Checks *)

(** An axis length is as wanted: the wanted length is the wildcard -1 or
    the length itself. *)
Definition length_as_wanted (length wantLength : Z) : Prop :=
  wantLength = -1 \/ length = wantLength.

(** The coordinates of the axes that are not iterated are those of
    [start]. *)
Definition untouched_outside (axesToIterate start indices : list Z) : Prop :=
  length indices = length start
  /\ forall axis : nat, Z.of_nat axis ∉ axesToIterate -> indices !! axis = start !! axis.

(** The coordinate of every iterated axis within the rank is within the
    length of its axis. *)
Definition iterated_in_range (axisLengths axesToIterate indices : list Z) : Prop :=
  forall axis, axis ∈ axesToIterate -> 0 <= axis < Z.of_nat (length axisLengths) ->
    0 <= indices !!! Z.to_nat axis < axisLengths !!! Z.to_nat axis.

(** What [indices] is when the iteration starts: the caller's slice, or
    the zeros that [IterOnAxes] allocates for nil. *)
Definition IterOnAxes_start (at_ : ArrayType) (indices : option (list Z)) : list Z :=
  match indices with
  | Some indices => indices
  | None => replicate (NumAxes at_) 0
  end.

(** The number of slice levels of a Go type. *)
Fixpoint sliceDepth (t : GoType) : nat :=
  match t with
  | TNamed _ => 0
  | TSlice elem => S (sliceDepth elem)
  end.

(** * Properties *)

(** ** Arithmetic of [int] *)

Module GoIntFacts.
Import GoInt.

Lemma modulus_eq : modulus = 2 * half.
Proof. reflexivity. Qed.

Lemma half_pos : 0 < half.
Proof. reflexivity. Qed.

Lemma wrap_is_int z : is_int (wrap z).
Proof.
  unfold is_int, wrap, minInt, maxInt.
  pose proof (Z.mod_pos_bound (z + half) modulus eq_refl) as H.
  rewrite modulus_eq in *. lia.
Qed.

Lemma wrap_small z : is_int z -> wrap z = z.
Proof.
  unfold is_int, wrap, minInt, maxInt. intros H.
  rewrite Z.mod_small; [lia | rewrite modulus_eq; lia].
Qed.

Lemma wrap_congr a b : (a - b) mod modulus = 0 -> wrap a = wrap b.
Proof.
  intros H. unfold wrap. f_equal.
  apply Z.mod_divide in H; [| discriminate].
  destruct H as [k Hk].
  replace (a + half) with (b + half + k * modulus) by lia.
  apply Z.mod_add. discriminate.
Qed.

Lemma wrap_diff z : exists k, wrap z = z + k * modulus.
Proof.
  unfold wrap. exists (- ((z + half) / modulus)).
  pose proof (Z.div_mod (z + half) modulus ltac:(discriminate)). lia.
Qed.

Lemma wrap_eq_mod a b : (exists k, a = b + k * modulus) -> wrap a = wrap b.
Proof.
  intros [k ->]. apply wrap_congr.
  replace (b + k * modulus - b) with (k * modulus) by lia.
  apply Z.mod_mul. discriminate.
Qed.

Lemma wrap_add_l a b : wrap (wrap a + b) = wrap (a + b).
Proof.
  destruct (wrap_diff a) as [k ->]. apply wrap_eq_mod. exists k. lia.
Qed.

Lemma wrap_add_r a b : wrap (a + wrap b) = wrap (a + b).
Proof.
  destruct (wrap_diff b) as [k ->]. apply wrap_eq_mod. exists k. lia.
Qed.

Lemma wrap_sub_l a b : wrap (wrap a - b) = wrap (a - b).
Proof.
  destruct (wrap_diff a) as [k ->]. apply wrap_eq_mod. exists k. lia.
Qed.

Lemma wrap_sub_r a b : wrap (a - wrap b) = wrap (a - b).
Proof.
  destruct (wrap_diff b) as [k ->]. apply wrap_eq_mod. exists (- k). lia.
Qed.

Lemma wrap_mul_l a b : wrap (wrap a * b) = wrap (a * b).
Proof.
  destruct (wrap_diff a) as [k ->]. apply wrap_eq_mod. exists (k * b). lia.
Qed.

Lemma wrap_mul_r a b : wrap (a * wrap b) = wrap (a * b).
Proof.
  destruct (wrap_diff b) as [k ->]. apply wrap_eq_mod. exists (a * k). lia.
Qed.

Lemma wrap_wrap z : wrap (wrap z) = wrap z.
Proof. apply wrap_small, wrap_is_int. Qed.

Lemma mul_small a b : is_int (a * b) -> mul a b = a * b.
Proof. apply wrap_small. Qed.

Lemma add_small a b : is_int (a + b) -> add a b = a + b.
Proof. apply wrap_small. Qed.

End GoIntFacts.

(** ** Element kinds and equality of array types *)

Lemma dtype_eqb_eq a b : dtype.eqb a b = true <-> a = b.
Proof.
  unfold dtype.eqb. rewrite Z.eqb_eq. split; [| congruence].
  destruct a, b; simpl; intros H; try reflexivity; discriminate H.
Qed.

Lemma dtype_eqb_refl a : dtype.eqb a a = true.
Proof. apply dtype_eqb_eq. reflexivity. Qed.

Lemma dtype_eqb_neq a b : dtype.eqb a b = false <-> a <> b.
Proof.
  rewrite <- dtype_eqb_eq. destruct (dtype.eqb a b); split; congruence.
Qed.

Lemma slices_Equal_eq s1 s2 : slices_Equal s1 s2 = true <-> s1 = s2.
Proof.
  revert s2. induction s1 as [| x s1 IH]; intros [| y s2]; simpl;
    try (split; [discriminate | congruence]); [tauto |].
  rewrite andb_true_iff, Z.eqb_eq, IH. split; [intros [-> ->] | intros [= -> ->]]; auto.
Qed.

Lemma Equal_refl at_ : Equal at_ at_ = true.
Proof.
  unfold Equal. rewrite dtype_eqb_refl, Nat.eqb_refl. simpl.
  destruct (IsScalar at_); [reflexivity |]. apply slices_Equal_eq. reflexivity.
Qed.

Lemma Clone_id at_ : Clone at_ = at_.
Proof. destruct at_; reflexivity. Qed.

(** ** Strides *)

Lemma Strides_loop_spec axisLengths n : forall currentStride strides,
  (n <= length strides)%nat ->
  let r := Strides_loop axisLengths n currentStride strides in
  length r = length strides
  /\ (forall j, (n <= j)%nat -> r !! j = strides !! j)
  /\ (forall i, S i = n -> r !!! i = currentStride)
  /\ (forall i, (S i < n)%nat ->
        r !!! i = GoInt.mul (r !!! S i) (axisLengths !!! S i)).
Proof.
  induction n as [| axis IH]; intros currentStride strides Hn; simpl.
  - repeat split; intros; try lia; reflexivity.
  - destruct (IH (GoInt.mul currentStride (axisLengths !!! axis))
                (<[axis := currentStride]> strides)) as (Hlen & Hkeep & Hlast & Hrec).
    { rewrite length_insert. lia. }
    rewrite length_insert in Hlen.
    assert (Haxis : Strides_loop axisLengths axis
                      (GoInt.mul currentStride (axisLengths !!! axis))
                      (<[axis := currentStride]> strides) !!! axis = currentStride).
    { rewrite list_lookup_total_alt, Hkeep by lia.
      rewrite list_lookup_insert_eq by lia. reflexivity. }
    repeat split.
    + exact Hlen.
    + intros j Hj. rewrite Hkeep by lia. apply list_lookup_insert_ne. lia.
    + intros i [= ->]. exact Haxis.
    + intros i Hi. destruct (decide (S i = axis)) as [<- | Hne].
      * rewrite (Hlast i eq_refl), Haxis. reflexivity.
      * apply Hrec. lia.
Qed.

Lemma existsb_eqb_zero (l : list Z) : existsb (fun length => length =? 0) l = true <-> 0 ∈ l.
Proof.
  rewrite existsb_exists. split.
  - intros (x & Hin & Hx). apply Z.eqb_eq in Hx. subst. apply list_elem_of_In, Hin.
  - intros H. exists 0. split; [apply list_elem_of_In, H | reflexivity].
Qed.

Lemma Strides_length (at_ : ArrayType) : length (Strides at_) = NumAxes at_.
Proof.
  unfold Strides. destruct (NumAxes at_ =? 0)%nat eqn:Hn.
  - apply Nat.eqb_eq in Hn. rewrite Hn. reflexivity.
  - destruct (IsZeroSize at_); [apply length_replicate |].
    pose proof (Strides_loop_spec (AxisLengths at_) (NumAxes at_) 1
                  (replicate (NumAxes at_) 0)) as Hloop.
    rewrite length_replicate in Hloop. apply (Hloop (Nat.le_refl _)).
Qed.

(** C4.  [Strides] has one entry per axis and none for rank 0; when an axis
    has length 0 every entry is 0; otherwise the last entry is 1 and each
    other entry is the product, in [int], of the next entry and the next
    axis length -- the plain product whenever that is an [int].  The three
    array types of the tests give [12,4,1], [1] and [2,2,1]. *)
Theorem Strides_row_major (at_ : ArrayType) :
  length (Strides at_) = NumAxes at_
  /\ (NumAxes at_ = 0%nat -> Strides at_ = [])
  /\ (0 ∈ AxisLengths at_ -> Forall (fun stride => stride = 0) (Strides at_))
  /\ (0 ∉ AxisLengths at_ ->
       (forall i, S i = NumAxes at_ -> Strides at_ !! i = Some 1)
       /\ (forall i, (S i < NumAxes at_)%nat ->
             Strides at_ !!! i
               = GoInt.mul (Strides at_ !!! S i) (AxisLengths at_ !!! S i)
             /\ (GoInt.is_int (Strides at_ !!! S i * AxisLengths at_ !!! S i) ->
                 Strides at_ !!! i
                   = Strides at_ !!! S i * AxisLengths at_ !!! S i)))
  /\ Strides {| DType := dtype.Float32; AxisLengths := [2; 3; 4] |} = [12; 4; 1]
  /\ Strides {| DType := dtype.Float32; AxisLengths := [5] |} = [1]
  /\ Strides {| DType := dtype.Float32; AxisLengths := [3; 1; 2] |} = [2; 2; 1].
Proof.
  assert (Hspec : IsZeroSize at_ = false -> NumAxes at_ <> 0%nat ->
            Strides at_ = Strides_loop (AxisLengths at_) (NumAxes at_) 1
                            (replicate (NumAxes at_) 0)).
  { intros Hz Hn. unfold Strides. apply Nat.eqb_neq in Hn. rewrite Hn, Hz. reflexivity. }
  pose proof (Strides_loop_spec (AxisLengths at_) (NumAxes at_) 1
                (replicate (NumAxes at_) 0)) as Hloop.
  rewrite length_replicate in Hloop. specialize (Hloop (Nat.le_refl _)).
  destruct Hloop as (Hlen & _ & Hlast & Hrec).
  split; [| split; [| split; [| split]]].
  - apply Strides_length.
  - intros Hn. unfold Strides. rewrite Hn. reflexivity.
  - intros Hz. apply existsb_eqb_zero in Hz. unfold Strides.
    destruct (NumAxes at_ =? 0)%nat; [constructor |].
    unfold IsZeroSize. rewrite Hz. apply Forall_replicate. reflexivity.
  - intros Hz.
    assert (Hnz : IsZeroSize at_ = false).
    { unfold IsZeroSize. destruct (existsb _ _) eqn:E; [| reflexivity].
      apply existsb_eqb_zero in E. contradiction. }
    split.
    + intros i Hi. rewrite Hspec by (auto; lia).
      apply list_lookup_alt. split; [rewrite Hlen; lia | apply Hlast, Hi].
    + intros i Hi. rewrite Hspec by (auto; lia).
      pose proof (Hrec i Hi) as Hr. split; [exact Hr |].
      intros Hint. rewrite Hr. apply GoIntFacts.mul_small, Hint.
  - repeat split; reflexivity.
Qed.

Lemma Strides_row_major_witness :
  Strides {| DType := dtype.Float32; AxisLengths := [2; 3; 4] |} !! 2%nat = Some 1
  /\ Strides {| DType := dtype.Float32; AxisLengths := [2; 3; 4] |} !!! 0%nat
     = Strides {| DType := dtype.Float32; AxisLengths := [2; 3; 4] |} !!! 1%nat
       * AxisLengths {| DType := dtype.Float32; AxisLengths := [2; 3; 4] |} !!! 1%nat.
Proof.
  assert (Hz : 0 ∉ AxisLengths {| DType := dtype.Float32; AxisLengths := [2; 3; 4] |}).
  { intros H. apply list_elem_of_In in H. simpl in H.
    repeat (destruct H as [H | H]; [discriminate H |]). exact H. }
  destruct (Strides_row_major {| DType := dtype.Float32; AxisLengths := [2; 3; 4] |})
    as (_ & _ & _ & Hrec & _).
  destruct (Hrec Hz) as [Hlast Hstep]. split.
  - apply Hlast. reflexivity.
  - apply (Hstep 0%nat).
    + unfold NumAxes. simpl. lia.
    + vm_compute. split; discriminate.
Defined.

(** ** Construction *)

Lemma existsb_ltb_zero (l : list Z) :
  existsb (fun length => length <? 0) l = true <-> exists x, x ∈ l /\ x < 0.
Proof.
  rewrite existsb_exists. split; intros (x & Hin & Hx); exists x.
  - apply Z.ltb_lt in Hx. split; [apply list_elem_of_In, Hin | exact Hx].
  - split; [apply list_elem_of_In, Hin | apply Z.ltb_lt, Hx].
Qed.

(** C5, as the source has it: [Make] with a negative axis length panics,
    and the value of the panic is the error formatted from the array type
    asked for, the negative length included; nothing is returned. *)
Theorem Make_negative_panics (dt : dtype.DType) (axisLengths : list Z) :
  (exists length, length ∈ axisLengths /\ length < 0) ->
  Make dt axisLengths
    = Panic (ErrMakeNegativeAxis {| DType := dt; AxisLengths := axisLengths |}).
Proof.
  intros H. apply existsb_ltb_zero in H. unfold Make. rewrite H. reflexivity.
Qed.

Lemma Make_negative_panics_witness :
  Make dtype.Float32 [2; -1]
    = Panic (ErrMakeNegativeAxis {| DType := dtype.Float32; AxisLengths := [2; -1] |}).
Proof.
  apply (Make_negative_panics dtype.Float32 [2; -1]).
  exists (-1). split; [| lia]. apply list_elem_of_In. simpl. auto.
Defined.

(** C5 fails as stated: for [Make(Float32, 2, -1)] no error is handed back
    to the caller, the call panics. *)
Lemma Make_negative_not_recoverable :
  (exists length, length ∈ [2; -1] /\ length < 0)
  /\ ~ (exists e, Make dtype.Float32 [2; -1] = Err e)
  /\ exists e, Make dtype.Float32 [2; -1] = Panic e.
Proof.
  split; [| split].
  - exists (-1). split; [| lia]. apply list_elem_of_In. simpl. auto.
  - intros [e He]. discriminate He.
  - eexists. reflexivity.
Qed.

Lemma Make_nonnegative (dt : dtype.DType) (axisLengths : list Z) :
  Forall (fun length => 0 <= length) axisLengths ->
  Make dt axisLengths = Ok_ {| DType := dt; AxisLengths := axisLengths |}.
Proof.
  intros H. unfold Make.
  destruct (existsb _ _) eqn:E; [| reflexivity].
  apply existsb_ltb_zero in E. destruct E as (x & Hin & Hx).
  rewrite Forall_forall in H. specialize (H x Hin). lia.
Qed.

(** ** Concatenation of axes *)

Lemma copy_prefix (dst src : list Z) :
  (length src <= length dst)%nat -> copy dst src = src ++ drop (length src) dst.
Proof. intros H. unfold copy. rewrite take_ge by lia. reflexivity. Qed.

Lemma ConcatenateAxes_copies (s1 s2 : list Z) :
  let axisLengths := copy (replicate (length s1 + length s2) 0) s1 in
  take (length s1) axisLengths ++ copy (drop (length s1) axisLengths) s2 = s1 ++ s2.
Proof.
  simpl. rewrite copy_prefix by (rewrite length_replicate; lia).
  rewrite take_app_length, drop_app_length.
  rewrite copy_prefix.
  - rewrite drop_ge; [rewrite app_nil_r; reflexivity |].
    rewrite length_drop, length_replicate. lia.
  - rewrite length_drop, length_replicate. lia.
Qed.

(** C8.  [ConcatenateAxes] gives the invalid array type when an operand is
    invalid or the element kinds differ; otherwise a clone of the other
    operand when one is a scalar; otherwise the common element kind with
    the axes of the first followed by those of the second. *)
Theorem ConcatenateAxes_contract (at1 at2 : ArrayType) :
  Ok Invalid = false
  /\ (Ok at1 = false \/ Ok at2 = false \/ DType at1 <> DType at2 ->
      ConcatenateAxes at1 at2 = Invalid)
  /\ (Ok at1 = true -> Ok at2 = true -> DType at1 = DType at2 ->
      (IsScalar at1 = true -> ConcatenateAxes at1 at2 = Clone at2)
      /\ (IsScalar at2 = true -> ConcatenateAxes at1 at2 = Clone at1)
      /\ (IsScalar at1 = false -> IsScalar at2 = false ->
          DType (ConcatenateAxes at1 at2) = DType at1
          /\ DType (ConcatenateAxes at1 at2) = DType at2
          /\ AxisLengths (ConcatenateAxes at1 at2)
             = AxisLengths at1 ++ AxisLengths at2))
  /\ ConcatenateAxes {| DType := dtype.Float32; AxisLengths := [2; 3] |}
                     {| DType := dtype.Float32; AxisLengths := [4] |}
     = {| DType := dtype.Float32; AxisLengths := [2; 3; 4] |}
  /\ ConcatenateAxes {| DType := dtype.Float32; AxisLengths := [2; 3] |}
                     {| DType := dtype.Int32; AxisLengths := [4] |}
     = Invalid.
Proof.
  split; [reflexivity |].
  split; [| split; [| split; reflexivity]].
  - unfold ConcatenateAxes, Ok, Invalid.
    intros [H | [H | H]].
    + apply negb_false_iff in H. rewrite H. reflexivity.
    + apply negb_false_iff in H. rewrite H, orb_true_r. reflexivity.
    + apply dtype_eqb_neq in H. rewrite H. simpl.
      destruct (_ || _); reflexivity.
  - intros H1 H2 Hdt. unfold ConcatenateAxes.
    pose proof H1 as H1'. pose proof H2 as H2'.
    unfold Ok in H1', H2'. apply negb_true_iff in H1', H2'.
    rewrite H1', H2', Hdt, dtype_eqb_refl. simpl.
    split; [| split].
    + intros ->. reflexivity.
    + intros Hs2. destruct (IsScalar at1) eqn:Hs1; [| rewrite Hs2; reflexivity].
      unfold IsScalar in Hs1, Hs2.
      apply andb_true_iff in Hs1, Hs2. destruct Hs1 as [_ Hn1], Hs2 as [_ Hn2].
      apply Nat.eqb_eq in Hn1, Hn2. unfold NumAxes in Hn1, Hn2.
      destruct at1 as [d1 l1], at2 as [d2 l2]; simpl in *. subst.
      destruct l1, l2; try discriminate. reflexivity.
    + intros -> ->. simpl.
      split; [reflexivity | split; [congruence | apply ConcatenateAxes_copies]].
Qed.

Lemma ConcatenateAxes_contract_witness :
  AxisLengths (ConcatenateAxes {| DType := dtype.Float64; AxisLengths := [3; 2] |}
                               {| DType := dtype.Float64; AxisLengths := [5; 1] |})
    = [3; 2] ++ [5; 1].
Proof.
  refine (proj2 (proj2 (proj2 (proj2 (proj1 (proj2 (proj2
            (ConcatenateAxes_contract
               {| DType := dtype.Float64; AxisLengths := [3; 2] |}
               {| DType := dtype.Float64; AxisLengths := [5; 1] |}))) _ _ _)) _ _)));
    reflexivity.
Defined.

(** ** Binary serialization *)

(** C7.  Whatever the array type, and whatever was written before and comes
    after: when the writer takes two more messages, [GobSerialize] writes
    the element kind and the axis lengths without an error, and
    [GobDeserialize] reads from them, without an error, an array type that
    is [Equal] to the one serialized. *)
Theorem Gob_round_trip (at_ : ArrayType) (before after : list gobMessage) (spare : nat) :
  exists encoder b,
    GobSerialize at_ {| written := before; room := S (S spare) |} = (encoder, None)
    /\ written encoder = before ++ [GobDType (DType at_); GobInts (AxisLengths at_)]
    /\ GobDeserialize (drop (length before) (written encoder) ++ after)
       = (after, b, None)
    /\ Equal b at_ = true.
Proof.
  eexists _, _. split; [reflexivity |]. simpl.
  split; [rewrite <- app_assoc; reflexivity |].
  rewrite <- app_assoc, drop_app_length. simpl.
  split; [reflexivity |].
  rewrite <- (Equal_refl at_). destruct at_; reflexivity.
Qed.

(** ** Iteration over an invalid array type *)

Lemma IterOn_seq_invalid {S : Type} (yield : S -> Z -> list Z -> S * bool)
    at_ indices fuel s :
  Ok at_ = false -> IterOn_seq yield at_ indices fuel s = Completed s.
Proof. intros H. unfold IterOn_seq. rewrite H. reflexivity. Qed.

Lemma IterOnAxes_seq_invalid {S : Type} (yield : S -> Z -> list Z -> S * bool)
    at_ axesToIterate strides indices fuel s :
  Ok at_ = false ->
  IterOnAxes_seq yield at_ axesToIterate strides indices fuel s = Completed s.
Proof. intros H. unfold IterOnAxes_seq. rewrite H. reflexivity. Qed.

(** C10.  Over an array type whose element kind is [InvalidDType], [Iter],
    [IterOn] and [IterOnAxes] never call the consumer, whatever the rank
    and the other arguments; collected, their pairs are the empty list.  A
    valid scalar yields the one pair [(0, [])]. *)
Theorem invalid_yields_nothing (at_ : ArrayType) :
  Ok at_ = false ->
  forall (S : Type) (yield : S -> Z -> list Z -> S * bool) (fuel : nat) (s : S)
         (indices axesToIterate : list Z) (strides indicesOrNil : option (list Z)),
    (nothing_yielded (range_over (Iter at_) yield fuel s) s
     /\ nothing_yielded (range_over (IterOn at_ indices) yield fuel s) s
     /\ nothing_yielded
          (range_over (IterOnAxes at_ axesToIterate strides indicesOrNil) yield fuel s) s)
    /\ final (range_over (Iter at_) collect fuel []) = []
    /\ final (range_over (IterOn at_ indices) collect fuel []) = []
    /\ final (range_over (IterOnAxes at_ axesToIterate strides indicesOrNil)
                collect fuel []) = []
    /\ range_over (Iter {| DType := dtype.Float32; AxisLengths := [] |})
         collect (Datatypes.S fuel) [] = Completed [(0, [])].
Proof.
  intros Hok S yield fuel s indices axesToIterate strides indicesOrNil.
  assert (HIterOn : forall (T : Type) (y : T -> Z -> list Z -> T * bool) t idx,
            nothing_yielded (range_over (IterOn at_ idx) y fuel t) t).
  { intros T y t idx. unfold IterOn.
    destruct (negb _); simpl; [right; eexists; reflexivity |].
    left. apply IterOn_seq_invalid, Hok. }
  assert (HIndices : forall (T : Type) (y : T -> Z -> list Z -> T * bool) t st,
            nothing_yielded
              (range_over (IterOnAxes_indices at_ axesToIterate st indicesOrNil) y fuel t) t).
  { intros T y t st. unfold IterOnAxes_indices.
    destruct indicesOrNil as [given |]; simpl.
    - destruct (negb _); simpl; [right; eexists; reflexivity |].
      left. apply IterOnAxes_seq_invalid, Hok.
    - left. apply IterOnAxes_seq_invalid, Hok. }
  assert (HIterOnAxes : forall (T : Type) (y : T -> Z -> list Z -> T * bool) t,
            nothing_yielded
              (range_over (IterOnAxes at_ axesToIterate strides indicesOrNil) y fuel t) t).
  { intros T y t. unfold IterOnAxes. destruct strides as [given |]; [| apply HIndices].
    destruct (negb _); [right; eexists; reflexivity | apply HIndices]. }
  assert (Hfinal : forall (T : Type) (r : iteration T) t, nothing_yielded r t -> final r = t).
  { intros T r t [-> | [e ->]]; reflexivity. }
  split; [split; [apply HIterOn | split; [apply HIterOn | apply HIterOnAxes]] |].
  split; [apply Hfinal, HIterOn |].
  split; [apply Hfinal, HIterOn |].
  split; [apply Hfinal, HIterOnAxes | reflexivity].
Qed.

Lemma invalid_yields_nothing_witness :
  nothing_yielded (range_over (Iter Invalid) collect 3%nat []) []
  /\ nothing_yielded
       (range_over (IterOnAxes Invalid [0] None None) collect 3%nat []) [].
Proof.
  destruct (invalid_yields_nothing Invalid eq_refl _ collect 3%nat [] [] [0] None None)
    as [(H1 & _ & H3) _].
  split; [exact H1 | exact H3].
Defined.

(** ** An axis out of range in partial iteration *)

Lemma IterOnAxes_reset_invalid axisLengths numAxes before axis after : forall indices,
  Forall (fun a => 0 <= a < Z.of_nat numAxes /\ 0 < axisLengths !!! Z.to_nat a) before ->
  ~ (0 <= axis < Z.of_nat numAxes) ->
  IterOnAxes_reset axisLengths numAxes (before ++ axis :: after) indices
    = Panic (ErrIterOnAxesInvalidAxis axis numAxes).
Proof.
  induction before as [| a before IH]; intros indices Hbefore Haxis; simpl.
  - destruct (Z.ltb_spec axis 0); [reflexivity |].
    destruct (Z.leb_spec (Z.of_nat numAxes) axis); [reflexivity |]. lia.
  - inversion Hbefore as [| ? ? [Ha Hlen] Hrest]; subst.
    destruct (Z.ltb_spec a 0); [lia |].
    destruct (Z.leb_spec (Z.of_nat numAxes) a); [lia |]. simpl.
    destruct (Z.leb_spec (axisLengths !!! Z.to_nat a) 0); [lia |].
    apply IH; assumption.
Qed.

(** C6, as the source has it: over a valid array type of rank at least 1,
    when [axesToIterate] has an entry out of [0 <= axis < rank] and every
    entry before it is in range and names an axis of positive length, the
    iteration panics without a call of the consumer; with [strides] and
    [indices] nil or of the length of the rank the panic is the invalid
    axis error, with that entry. *)
Theorem IterOnAxes_axis_out_of_range (at_ : ArrayType)
    (before : list Z) (axis : Z) (after : list Z)
    (strides indices : option (list Z)) :
  Ok at_ = true ->
  (1 <= NumAxes at_)%nat ->
  Forall (fun a => 0 <= a < Z.of_nat (NumAxes at_)
                   /\ 0 < AxisLengths at_ !!! Z.to_nat a) before ->
  ~ (0 <= axis < Z.of_nat (NumAxes at_)) ->
  forall (S : Type) (yield : S -> Z -> list Z -> S * bool) (fuel : nat) (s : S),
  exists e,
    range_over (IterOnAxes at_ (before ++ axis :: after) strides indices) yield fuel s
      = Panicked e s
    /\ (from_option (fun given => length given = NumAxes at_) True strides ->
        from_option (fun given => length given = NumAxes at_) True indices ->
        e = ErrIterOnAxesInvalidAxis axis (NumAxes at_)).
Proof.
  intros Hok Hrank Hbefore Haxis S yield fuel s.
  assert (Hseq : forall st idx,
            IterOnAxes_seq yield at_ (before ++ axis :: after) st idx fuel s
              = Panicked (ErrIterOnAxesInvalidAxis axis (NumAxes at_)) s).
  { intros st idx. unfold IterOnAxes_seq. rewrite Hok. simpl.
    destruct (NumAxes at_ =? 0)%nat eqn:E; [apply Nat.eqb_eq in E; lia |].
    rewrite IterOnAxes_reset_invalid by assumption. reflexivity. }
  assert (Hidx : forall st, exists e,
            range_over (IterOnAxes_indices at_ (before ++ axis :: after) st indices)
              yield fuel s = Panicked e s
            /\ (from_option (fun given => length given = NumAxes at_) True indices ->
                e = ErrIterOnAxesInvalidAxis axis (NumAxes at_))).
  { intros st. unfold IterOnAxes_indices. destruct indices as [given |]; simpl.
    - destruct (length given =? NumAxes at_)%nat eqn:E; simpl.
      + eexists. split; [apply Hseq | reflexivity].
      + eexists. split; [reflexivity |]. apply Nat.eqb_neq in E. contradiction.
    - eexists. split; [apply Hseq | reflexivity]. }
  unfold IterOnAxes. destruct strides as [given |]; simpl.
  - destruct (length given =? NumAxes at_)%nat eqn:E; simpl.
    + destruct (Hidx given) as (e & He & Hi). exists e. split; [exact He | auto].
    + eexists. split; [reflexivity |]. apply Nat.eqb_neq in E. contradiction.
  - destruct (Hidx (Strides at_)) as (e & He & Hi). exists e. split; [exact He | auto].
Qed.

Lemma IterOnAxes_axis_out_of_range_witness :
  exists e,
    range_over (IterOnAxes {| DType := dtype.Float32; AxisLengths := [2; 3; 4] |}
                  ([0] ++ 3 :: [1]) None (Some [0; 1; 0])) collect 5%nat []
      = Panicked e []
    /\ (True -> 3%nat = 3%nat -> e = ErrIterOnAxesInvalidAxis 3 3).
Proof.
  apply (IterOnAxes_axis_out_of_range
           {| DType := dtype.Float32; AxisLengths := [2; 3; 4] |}
           [0] 3 [1] None (Some [0; 1; 0])).
  - reflexivity.
  - unfold NumAxes. simpl. lia.
  - constructor; [| constructor]. unfold NumAxes. simpl. lia.
  - unfold NumAxes. simpl. lia.
Defined.

(** C6 fails as stated at rank 0: over a valid scalar the entries of
    [axesToIterate] are never looked at, the iteration yields its one pair
    and ends without a panic. *)
Lemma IterOnAxes_scalar_ignores_axes :
  NumAxes {| DType := dtype.Float32; AxisLengths := [] |} = 0%nat
  /\ ~ (0 <= 5 < Z.of_nat (NumAxes {| DType := dtype.Float32; AxisLengths := [] |}))
  /\ range_over (IterOnAxes {| DType := dtype.Float32; AxisLengths := [] |}
                   [5] None None) collect 1%nat []
     = Completed [(0, [])].
Proof.
  split; [reflexivity | split; [unfold NumAxes; simpl; lia | reflexivity]].
Qed.

(** ** The flat index of partial iteration *)

Lemma dot_drop (indices strides : list Z) (k : nat) :
  (k < length indices)%nat -> (k < length strides)%nat ->
  dot (drop k indices) (drop k strides)
    = indices !!! k * strides !!! k + dot (drop (S k) indices) (drop (S k) strides).
Proof.
  intros Hi Hs.
  rewrite (drop_S indices (indices !!! k) k) by (apply list_lookup_lookup_total_lt, Hi).
  rewrite (drop_S strides (strides !!! k) k) by (apply list_lookup_lookup_total_lt, Hs).
  reflexivity.
Qed.

Lemma initialFlatIdx_from (indices strides : list Z) (m : nat) : forall (k : nat) (flatIdx : Z),
  (k + m)%nat = length indices -> length indices = length strides ->
  GoInt.is_int flatIdx ->
  foldl (fun flatIdx axis =>
           GoInt.add flatIdx (GoInt.mul (indices !!! axis) (strides !!! axis)))
        flatIdx (seq k m)
    = GoInt.wrap (flatIdx + dot (drop k indices) (drop k strides)).
Proof.
  induction m as [| m IH]; intros k flatIdx Hk Hlen Hint; simpl.
  - rewrite drop_ge by lia. simpl. rewrite Z.add_0_r.
    symmetry. apply GoIntFacts.wrap_small, Hint.
  - rewrite IH; [| lia | exact Hlen | apply GoIntFacts.wrap_is_int].
    rewrite (dot_drop indices strides k) by lia.
    unfold GoInt.add, GoInt.mul.
    rewrite GoIntFacts.wrap_add_l.
    rewrite <- Z.add_assoc, (Z.add_comm flatIdx), <- Z.add_assoc.
    rewrite GoIntFacts.wrap_add_l. f_equal. lia.
Qed.

Lemma initialFlatIdx_dot (indices strides : list Z) :
  length indices = length strides ->
  initialFlatIdx (length indices) indices strides = GoInt.wrap (dot indices strides).
Proof.
  intros Hlen. unfold initialFlatIdx.
  rewrite (initialFlatIdx_from indices strides (length indices) 0 0);
    [reflexivity | lia | exact Hlen |].
  unfold GoInt.is_int, GoInt.minInt, GoInt.maxInt.
  pose proof GoIntFacts.half_pos. lia.
Qed.

Lemma dot_insert (indices : list Z) : forall (strides : list Z) (axis : nat) (v : Z),
  (axis < length indices)%nat -> length indices = length strides ->
  dot (<[axis := v]> indices) strides
    = dot indices strides + (v - indices !!! axis) * strides !!! axis.
Proof.
  induction indices as [| i indices IH]; intros [| s strides] axis v Ha Hlen;
    simpl in *; try lia.
  destruct axis as [| axis]; simpl.
  - lia.
  - rewrite IH by lia. lia.
Qed.

Lemma flatIdx_is_dot_intro strides flatIdx indices :
  flatIdx = GoInt.wrap (dot indices strides) ->
  flatIdx_is_dot strides (flatIdx, indices).
Proof.
  intros ->. split; [reflexivity |]. simpl. apply GoIntFacts.wrap_small.
Qed.

Lemma IterOnAxes_increment_dot axisLengths strides axesToIterate (n : nat) :
  forall flatIdx indices flatIdx' indices',
  Forall (axis_in_range (length indices)) axesToIterate ->
  (n <= length axesToIterate)%nat ->
  length indices = length strides ->
  flatIdx = GoInt.wrap (dot indices strides) ->
  IterOnAxes_increment axisLengths strides axesToIterate n flatIdx indices
    = Some (flatIdx', indices') ->
  flatIdx' = GoInt.wrap (dot indices' strides) /\ length indices' = length indices.
Proof.
  induction n as [| axisIdx IH]; intros flatIdx indices flatIdx' indices'
    Haxes Hn Hlen Hflat Hstep; simpl in Hstep; [discriminate |].
  set (axis := Z.to_nat (axesToIterate !!! axisIdx)) in *.
  assert (Haxis : (axis < length indices)%nat).
  { rewrite Forall_forall in Haxes.
    assert (Hin : axesToIterate !!! axisIdx ∈ axesToIterate).
    { apply list_elem_of_lookup. exists axisIdx.
      apply list_lookup_lookup_total_lt. lia. }
    specialize (Haxes _ Hin).
    unfold axis_in_range in Haxes. subst axis. lia. }
  set (indices1 := <[axis := GoInt.add (indices !!! axis) 1]> indices) in *.
  assert (Hlen1 : length indices1 = length indices) by apply length_insert.
  assert (Hflat1 : GoInt.add flatIdx (strides !!! axis)
                   = GoInt.wrap (dot indices1 strides)).
  { subst indices1 flatIdx. rewrite dot_insert by assumption.
    unfold GoInt.add. rewrite GoIntFacts.wrap_add_l.
    destruct (GoIntFacts.wrap_diff (indices !!! axis + 1)) as [k ->].
    apply GoIntFacts.wrap_eq_mod. exists (- (k * strides !!! axis)). ring. }
  destruct (indices1 !!! axis <? axisLengths !!! axis).
  - injection Hstep as <- <-. split; [exact Hflat1 | exact Hlen1].
  - apply IH in Hstep.
    + rewrite length_insert, Hlen1 in Hstep. exact Hstep.
    + rewrite length_insert, Hlen1. exact Haxes.
    + lia.
    + rewrite length_insert. lia.
    + rewrite Hflat1, dot_insert by lia.
      unfold GoInt.sub, GoInt.mul.
      rewrite GoIntFacts.wrap_sub_l, GoIntFacts.wrap_sub_r. f_equal. ring.
Qed.

Lemma IterOnAxes_loop_dot axisLengths strides axesToIterate (fuel : nat) :
  forall flatIdx indices acc,
  Forall (axis_in_range (length indices)) axesToIterate ->
  length indices = length strides ->
  flatIdx = GoInt.wrap (dot indices strides) ->
  Forall (flatIdx_is_dot strides) acc ->
  Forall (flatIdx_is_dot strides)
    (final (IterOnAxes_loop collect axisLengths strides axesToIterate
              fuel flatIdx indices acc)).
Proof.
  induction fuel as [| fuel IH]; intros flatIdx indices acc Haxes Hlen Hflat Hacc;
    simpl; [exact Hacc |].
  assert (Hacc' : Forall (flatIdx_is_dot strides) (acc ++ [(flatIdx, indices)])).
  { apply Forall_app. split; [exact Hacc |].
    constructor; [apply flatIdx_is_dot_intro, Hflat | constructor]. }
  destruct (IterOnAxes_increment axisLengths strides axesToIterate
              (length axesToIterate) flatIdx indices) as [[flatIdx' indices'] |] eqn:Hstep;
    [| exact Hacc'].
  apply IterOnAxes_increment_dot in Hstep; try assumption; [| lia].
  destruct Hstep as [Hflat' Hlen'].
  apply IH; [rewrite Hlen' | rewrite Hlen' | |]; assumption.
Qed.

Lemma IterOnAxes_reset_ok axisLengths numAxes axesToIterate : forall indices indices',
  IterOnAxes_reset axisLengths numAxes axesToIterate indices = Ok_ (Some indices') ->
  Forall (axis_in_range numAxes) axesToIterate /\ length indices' = length indices.
Proof.
  induction axesToIterate as [| axis rest IH]; intros indices indices' H; simpl in H.
  - injection H as <-. split; [constructor | reflexivity].
  - destruct (Z.ltb_spec axis 0); [discriminate |].
    destruct (Z.leb_spec (Z.of_nat numAxes) axis); [discriminate |]. simpl in H.
    destruct (axisLengths !!! Z.to_nat axis <=? 0); [discriminate |].
    apply IH in H. destruct H as [Hrest Hlen]. rewrite length_insert in Hlen.
    split; [| exact Hlen]. constructor; [split; assumption | exact Hrest].
Qed.

Lemma IterOnAxes_seq_dot at_ axesToIterate strides indices fuel :
  length strides = NumAxes at_ -> length indices = NumAxes at_ ->
  Forall (flatIdx_is_dot strides)
    (final (IterOnAxes_seq collect at_ axesToIterate strides indices fuel [])).
Proof.
  intros Hs Hi. unfold IterOnAxes_seq.
  destruct (negb (Ok at_)); [constructor |].
  destruct (NumAxes at_ =? 0)%nat eqn:E.
  - apply Nat.eqb_eq in E. simpl. constructor; [| constructor].
    apply flatIdx_is_dot_intro.
    destruct indices; [reflexivity | simpl in Hi; lia].
  - destruct (IterOnAxes_reset _ _ _ _) as [[indices' |] | e | e] eqn:Hreset;
      try (simpl; constructor).
    apply IterOnAxes_reset_ok in Hreset. destruct Hreset as [Haxes Hlen].
    apply IterOnAxes_loop_dot.
    + rewrite Hlen, Hi. exact Haxes.
    + lia.
    + rewrite <- Hi, <- Hlen. apply initialFlatIdx_dot. lia.
    + constructor.
Qed.

(** C3.  Every pair that [IterOnAxes] yields has as its flat index the dot
    product of the yielded coordinates (fixed and iterated axes alike)
    with the strides in use, taken in [int]: the dot product itself
    whenever that is an [int].  This holds for every consumer-visible
    prefix of the iteration, although the loop only adds a stride on an
    increment and subtracts coordinate times stride on a reset.  Over
    [(Float32)[2 3 4]] with axes 0 and 2 iterated and axis 1 fixed at 1
    the flat indices are 4, 5, 6, 7, 16, 17, 18, 19. *)
Theorem IterOnAxes_flatIdx_is_dot (at_ : ArrayType) (axesToIterate : list Z)
    (strides indices : option (list Z)) (fuel : nat) :
  Forall (flatIdx_is_dot (IterOnAxes_strides at_ strides))
    (final (range_over (IterOnAxes at_ axesToIterate strides indices) collect fuel []))
  /\ range_over (IterOnAxes {| DType := dtype.Float32; AxisLengths := [2; 3; 4] |}
                   [0; 2] None (Some [0; 1; 0])) collect 9%nat []
     = Completed [(4, [0; 1; 0]); (5, [0; 1; 1]); (6, [0; 1; 2]); (7, [0; 1; 3]);
                  (16, [1; 1; 0]); (17, [1; 1; 1]); (18, [1; 1; 2]); (19, [1; 1; 3])].
Proof.
  split; [| reflexivity].
  assert (Hidx : forall st, length st = NumAxes at_ ->
            Forall (flatIdx_is_dot st)
              (final (range_over (IterOnAxes_indices at_ axesToIterate st indices)
                        collect fuel []))).
  { intros st Hst. unfold IterOnAxes_indices. destruct indices as [given |]; simpl.
    - destruct (length given =? NumAxes at_)%nat eqn:E; simpl; [| constructor].
      apply Nat.eqb_eq in E. apply IterOnAxes_seq_dot; assumption.
    - apply IterOnAxes_seq_dot; [assumption | apply length_replicate]. }
  unfold IterOnAxes. destruct strides as [given |]; simpl.
  - destruct (length given =? NumAxes at_)%nat eqn:E; simpl; [| constructor].
    apply Nat.eqb_eq in E. apply Hidx, E.
  - apply Hidx, Strides_length.
Qed.

(** ** The two strategies of full iteration *)

Lemma spatialAxesFrom_app (l1 l2 : list Z) : forall axis,
  spatialAxesFrom axis (l1 ++ l2)
    = spatialAxesFrom axis l1 ++ spatialAxesFrom (axis + length l1) l2.
Proof.
  induction l1 as [| x l1 IH]; intros axis; simpl.
  - rewrite Nat.add_0_r. reflexivity.
  - rewrite IH. replace (S axis + length l1)%nat with (axis + S (length l1))%nat by lia.
    destruct (x >? 1); reflexivity.
Qed.

Lemma spatialAxesFrom_take_S (axisLengths : list Z) (axis : nat) :
  (axis < length axisLengths)%nat ->
  spatialAxesFrom 0 (take (S axis) axisLengths)
    = spatialAxesFrom 0 (take axis axisLengths)
      ++ (if axisLengths !!! axis >? 1 then [axis] else []).
Proof.
  intros H.
  rewrite (take_S_r axisLengths axis (axisLengths !!! axis))
    by (apply list_lookup_lookup_total_lt, H).
  rewrite spatialAxesFrom_app, length_take. simpl.
  replace (axis `min` length axisLengths)%nat with axis by lia.
  destruct (axisLengths !!! axis >? 1); reflexivity.
Qed.

(** The inner loop of version 2 over the first [n] axes is the inner loop of
    version 3 over the reversed list of the non-trivial ones among them. *)
Lemma v2_increment_v3 (axisLengths : list Z) (n : nat) : forall indices,
  Forall (fun length => 1 <= length) axisLengths ->
  (n <= length axisLengths)%nat ->
  v2_increment axisLengths n indices
    = v3_increment axisLengths (reverse (spatialAxesFrom 0 (take n axisLengths))) indices.
Proof.
  induction n as [| axis IH]; intros indices Hpos Hn.
  - rewrite take_0. reflexivity.
  - rewrite spatialAxesFrom_take_S, reverse_app by lia. simpl.
    assert (Hlen : 1 <= axisLengths !!! axis).
    { rewrite Forall_forall in Hpos. apply Hpos.
      apply list_elem_of_lookup. exists axis. apply list_lookup_lookup_total_lt. lia. }
    destruct (Z.eqb_spec (axisLengths !!! axis) 1) as [E | E].
    + rewrite E. simpl. apply IH; [exact Hpos | lia].
    + destruct (Z.gtb_spec (axisLengths !!! axis) 1); [| lia]. simpl.
      destruct (_ <? _); [reflexivity |]. apply IH; [exact Hpos | lia].
Qed.

Lemma v2_loop_v3 {S : Type} (yield : S -> Z -> list Z -> S * bool)
    (axisLengths : list Z) (fuel : nat) : forall flatIdx indices s,
  Forall (fun length => 1 <= length) axisLengths ->
  v2_loop yield axisLengths fuel flatIdx indices s
    = v3_loop yield axisLengths (reverse (spatialAxesFrom 0 axisLengths))
        fuel flatIdx indices s.
Proof.
  induction fuel as [| fuel IH]; intros flatIdx indices s Hpos; simpl; [reflexivity |].
  destruct (yield s flatIdx indices) as [s' continue].
  destruct continue; simpl; [| reflexivity].
  rewrite v2_increment_v3 by (auto; lia). rewrite take_ge by lia.
  destruct (v3_increment _ _ _); [apply IH, Hpos | reflexivity].
Qed.

Lemma countNonTrivialAxes_positive (axisLengths : list Z) : forall k,
  Forall (fun length => 1 <= length) axisLengths ->
  exists m, countNonTrivialAxes axisLengths k = Some m
            /\ (k <= m)%nat
            /\ ((exists length, length ∈ axisLengths /\ 1 < length) -> (k < m)%nat)
            /\ (m = k -> Forall (fun length => length = 1) axisLengths).
Proof.
  induction axisLengths as [| x rest IH]; intros k Hpos; simpl.
  - exists k. repeat split; [lia | | constructor].
    intros (l & Hin & _). inversion Hin.
  - inversion Hpos as [| ? ? Hx Hrest]; subst.
    destruct (Z.leb_spec x 0); [lia |].
    destruct (Z.gtb_spec x 1) as [Hgt | Hle].
    + destruct (IH (S k) Hrest) as (m & Hm & Hk & _ & _).
      exists m. repeat split; [exact Hm | lia | intros; lia | intros; lia].
    + destruct (IH k Hrest) as (m & Hm & Hk & Hex & Hall).
      exists m. repeat split; [exact Hm | lia | |].
      * intros (l & Hin & Hl). apply Hex. exists l. split; [| exact Hl].
        apply elem_of_cons in Hin. destruct Hin as [-> | Hin]; [lia | exact Hin].
      * intros ->. constructor; [lia | auto].
Qed.

(** C2.  Over axis lengths that are all at least 1, the loop of version 2
    and the loop of version 3 (over the reversed list of the axes longer
    than 1) are the same function of the consumer, of the bound on the
    yields, and of the flat index, indices and consumer state they start
    from; so whichever [IterOn] picks for an array type with an axis longer
    than 1, the consumer sees what either of them yields. *)
Theorem dense_sparse_agree (at_ : ArrayType) :
  Forall (fun length => 1 <= length) (AxisLengths at_) ->
  (exists length, length ∈ AxisLengths at_ /\ 1 < length) ->
  forall (S : Type) (yield : S -> Z -> list Z -> S * bool) (fuel : nat),
    (forall flatIdx indices s,
       v2_loop yield (AxisLengths at_) fuel flatIdx indices s
         = v3_loop yield (AxisLengths at_)
             (reverse (spatialAxesFrom 0 (AxisLengths at_))) fuel flatIdx indices s)
    /\ (Ok at_ = true ->
        forall indices s,
          IterOn_seq yield at_ indices fuel s
            = v2_loop yield (AxisLengths at_) fuel 0 (replicate (length indices) 0) s
          /\ IterOn_seq yield at_ indices fuel s
             = v3_loop yield (AxisLengths at_)
                 (reverse (spatialAxesFrom 0 (AxisLengths at_)))
                 fuel 0 (replicate (length indices) 0) s).
Proof.
  intros Hpos Hex S yield fuel.
  split; [intros; apply v2_loop_v3, Hpos |].
  intros Hok indices s.
  assert (Hseq : IterOn_seq yield at_ indices fuel s
                 = v2_loop yield (AxisLengths at_) fuel 0 (replicate (length indices) 0) s).
  { unfold IterOn_seq. rewrite Hok. simpl.
    destruct (countNonTrivialAxes_positive (AxisLengths at_) 0 Hpos)
      as (m & Hm & _ & Hlt & _).
    specialize (Hlt Hex).
    destruct (NumAxes at_ =? 0)%nat eqn:E.
    { apply Nat.eqb_eq in E. unfold NumAxes in E.
      destruct Hex as (l & Hin & _). destruct (AxisLengths at_); [inversion Hin | discriminate]. }
    rewrite Hm.
    destruct (m =? 0)%nat eqn:E0; [apply Nat.eqb_eq in E0; lia |].
    destruct (m + 2 <? NumAxes at_)%nat; [reflexivity |].
    symmetry. apply v2_loop_v3, Hpos. }
  split; [exact Hseq |]. rewrite Hseq. apply v2_loop_v3, Hpos.
Qed.

Lemma dense_sparse_agree_witness :
  v2_loop collect [3; 1; 2; 1] 10 0 [0; 0; 0; 0] []
    = v3_loop collect [3; 1; 2; 1]
        (reverse (spatialAxesFrom 0 [3; 1; 2; 1])) 10 0 [0; 0; 0; 0] [].
Proof.
  refine (proj1 (dense_sparse_agree
                   {| DType := dtype.BFloat16; AxisLengths := [3; 1; 2; 1] |}
                   _ _ _ collect 10%nat) 0 [0; 0; 0; 0] []).
  - simpl. repeat constructor; lia.
  - exists 3. split; [apply list_elem_of_In; simpl; auto | lia].
Defined.

(** ** Full iteration is the row-major enumeration *)

Lemma feed_collect (pairs : list (Z * list Z)) : forall acc,
  feed collect acc pairs = acc ++ pairs.
Proof.
  induction pairs as [| [flatIdx indices] pairs IH]; intros acc; simpl.
  - rewrite app_nil_r. reflexivity.
  - rewrite IH, <- app_assoc. reflexivity.
Qed.

Lemma is_int_iff (z : Z) : GoInt.is_int z <-> - 2 ^ 63 <= z <= 2 ^ 63 - 1.
Proof. reflexivity. Qed.

Lemma maxInt_eq : GoInt.maxInt = 2 ^ 63 - 1.
Proof. reflexivity. Qed.

(** Bounds of [int] as linear facts. *)
Ltac int_range :=
  repeat match goal with
         | H : GoInt.is_int _ |- _ => apply (proj1 (is_int_iff _)) in H
         end;
  rewrite ?maxInt_eq in *;
  try apply is_int_iff.

Lemma Size_wrap_from (axisLengths : list Z) : forall size,
  GoInt.is_int size ->
  foldl (fun size length => GoInt.mul size length) size axisLengths
    = GoInt.wrap (size * product axisLengths).
Proof.
  induction axisLengths as [| x rest IH]; intros size Hsize; simpl.
  - rewrite Z.mul_1_r. symmetry. apply GoIntFacts.wrap_small, Hsize.
  - rewrite IH by apply GoIntFacts.wrap_is_int.
    unfold GoInt.mul. rewrite GoIntFacts.wrap_mul_l. f_equal. ring.
Qed.

Lemma Size_wrap (at_ : ArrayType) : Size at_ = GoInt.wrap (product (AxisLengths at_)).
Proof.
  unfold Size. rewrite Size_wrap_from.
  - f_equal. lia.
  - apply is_int_iff. lia.
Qed.

Lemma Size_product (at_ : ArrayType) :
  GoInt.is_int (product (AxisLengths at_)) -> Size at_ = product (AxisLengths at_).
Proof. intros H. rewrite Size_wrap. apply GoIntFacts.wrap_small, H. Qed.

Lemma length_bind_const {A B : Type} (f : A -> list B) (k : nat) (l : list A) :
  (forall x, length (f x) = k) -> length (l ≫= f) = (length l * k)%nat.
Proof.
  intros Hf. induction l as [| x l IH]; [reflexivity |].
  rewrite bind_cons, length_app, IH, Hf. simpl. lia.
Qed.

Lemma row_major_length (axisLengths : list Z) :
  Forall (fun length => 0 <= length) axisLengths ->
  Z.of_nat (length (row_major axisLengths)) = product axisLengths.
Proof.
  induction 1 as [| x rest Hx Hrest IH]; [reflexivity |]. simpl.
  rewrite (length_bind_const _ (length (row_major rest)))
    by (intros; apply length_fmap).
  rewrite length_seqZ. lia.
Qed.

Lemma row_major_coordinates (axisLengths : list Z) :
  Forall (fun p => length p = length axisLengths) (row_major axisLengths).
Proof.
  induction axisLengths as [| x rest IH]; simpl.
  - constructor; [reflexivity | constructor].
  - apply Forall_bind. apply Forall_forall. intros i _.
    apply Forall_fmap. eapply Forall_impl; [exact IH |].
    intros p Hp. simpl. congruence.
Qed.

Lemma bind_fmap_singleton {A B : Type} (f : A -> B) (l : list A) :
  l ≫= (fun x => [f x]) = f <$> l.
Proof.
  induction l as [| x l IH]; [reflexivity |].
  rewrite bind_cons, IH. reflexivity.
Qed.

Lemma fmap_bind_list {A B C : Type} (f : B -> C) (g : A -> list B) (l : list A) :
  f <$> (l ≫= g) = l ≫= (fun x => f <$> g x).
Proof.
  induction l as [| x l IH]; [reflexivity |].
  rewrite !bind_cons, fmap_app, IH. reflexivity.
Qed.

Lemma bind_bind_list {A B C : Type} (f : A -> list B) (g : B -> list C) (l : list A) :
  (l ≫= f) ≫= g = l ≫= (fun x => f x ≫= g).
Proof.
  induction l as [| x l IH]; [reflexivity |].
  rewrite !bind_cons, bind_app, IH. reflexivity.
Qed.

(** The enumeration with one more axis at the end: each of the coordinate
    vectors before, extended by every coordinate of the new axis in turn. *)
Lemma row_major_snoc (axisLengths : list Z) (m : Z) :
  row_major (axisLengths ++ [m])
    = p ← row_major axisLengths; (fun i => p ++ [i]) <$> seqZ 0 m.
Proof.
  induction axisLengths as [| x rest IH]; simpl.
  - rewrite app_nil_r. apply bind_fmap_singleton.
  - rewrite bind_bind_list. apply list_bind_ext; [| reflexivity].
    intros i. rewrite IH, fmap_bind_list, list_fmap_bind.
    apply list_bind_ext; [| reflexivity].
    intros p. simpl. rewrite <- list_fmap_compose. reflexivity.
Qed.

Lemma v2_increment_lengths_app (axisLengths extra : list Z) (n : nat) : forall indices,
  (n <= length axisLengths)%nat ->
  v2_increment (axisLengths ++ extra) n indices = v2_increment axisLengths n indices.
Proof.
  induction n as [| axis IH]; intros indices Hn; simpl; [reflexivity |].
  rewrite lookup_total_app_l by lia.
  rewrite !IH by lia. reflexivity.
Qed.

Lemma v2_increment_indices_app (axisLengths : list Z) (n : nat) : forall before after,
  (n <= length before)%nat ->
  v2_increment axisLengths n (before ++ after)
    = (fun p => p ++ after) <$> v2_increment axisLengths n before.
Proof.
  induction n as [| axis IH]; intros before after Hn; simpl; [reflexivity |].
  destruct (axisLengths !!! axis =? 1); [apply IH; lia |].
  rewrite (lookup_total_app_l before) by lia.
  rewrite insert_app_l by lia.
  rewrite lookup_total_app_l by (rewrite length_insert; lia).
  destruct (_ <? _); [reflexivity |].
  rewrite insert_app_l by (rewrite length_insert; lia).
  apply IH. rewrite !length_insert. lia.
Qed.

(** One step of the counter over the axes with one more axis at the end. *)
Lemma v2_increment_snoc (axisLengths : list Z) (m : Z) (p : list Z) (i : Z) :
  length p = length axisLengths ->
  v2_increment (axisLengths ++ [m]) (S (length axisLengths)) (p ++ [i])
    = if m =? 1
      then (fun q => q ++ [i]) <$> v2_increment axisLengths (length axisLengths) p
      else if GoInt.add i 1 <? m then Some (p ++ [GoInt.add i 1])
      else (fun q => q ++ [0]) <$> v2_increment axisLengths (length axisLengths) p.
Proof.
  intros Hp. rewrite <- Hp.
  assert (Hm : (axisLengths ++ [m]) !!! length p = m)
    by (apply list_lookup_total_middle; lia).
  assert (Hset : forall v w, <[length p := v]> (p ++ [w]) = p ++ [v]).
  { intros v w. rewrite insert_app_r_alt by lia. rewrite Nat.sub_diag. reflexivity. }
  assert (Hget : forall v, (p ++ [v]) !!! length p = v)
    by (intros v; apply list_lookup_total_middle; reflexivity).
  simpl. rewrite Hm, Hget, Hset, Hget, Hset.
  rewrite !v2_increment_lengths_app by lia.
  rewrite !v2_increment_indices_app by lia.
  reflexivity.
Qed.

Lemma successive_block (next : list Z -> option (list Z)) (p : list Z)
    (rest : list (list Z)) (count : nat) : forall i,
  (forall j, i <= j < i + Z.of_nat count - 1 -> next (p ++ [j]) = Some (p ++ [j + 1])) ->
  next (p ++ [i + Z.of_nat count - 1]) = head rest ->
  successive next rest ->
  successive next (((fun j => p ++ [j]) <$> seqZ i (Z.of_nat count)) ++ rest).
Proof.
  induction count as [| count IH]; intros i Hin Hend Hrest; [exact Hrest |].
  rewrite seqZ_cons by lia. rewrite fmap_cons. simpl.
  replace (Z.pred (Z.of_nat (S count))) with (Z.of_nat count) by lia.
  split.
  - destruct count as [| count].
    + simpl. rewrite <- Hend. do 3 f_equal. lia.
    + rewrite seqZ_cons by lia. simpl. rewrite Hin by lia. do 3 f_equal.
  - apply IH.
    + intros j Hj. apply Hin. lia.
    + rewrite <- Hend. do 3 f_equal. lia.
    + exact Hrest.
Qed.

Lemma successive_blocks (axisLengths : list Z) (m : Z) (ps : list (list Z)) :
  1 <= m <= GoInt.maxInt ->
  Forall (fun p => length p = length axisLengths) ps ->
  successive (v2_increment axisLengths (length axisLengths)) ps ->
  successive (v2_increment (axisLengths ++ [m]) (S (length axisLengths)))
    (p ← ps; (fun i => p ++ [i]) <$> seqZ 0 m).
Proof.
  intros Hm. induction ps as [| p ps IH]; intros Hlen Hps; [exact I |].
  inversion Hlen as [| ? ? Hp Hlen']; subst.
  destruct Hps as [Hnext Hps].
  rewrite bind_cons.
  replace m with (Z.of_nat (Z.to_nat m)) at 2 by lia.
  apply successive_block.
  - intros j Hj. rewrite v2_increment_snoc by exact Hp.
    assert (Hadd : GoInt.add j 1 = j + 1).
    { apply GoIntFacts.add_small. int_range. lia. }
    rewrite Hadd.
    destruct (Z.eqb_spec m 1); [lia |].
    destruct (Z.ltb_spec (j + 1) m); [reflexivity | lia].
  - rewrite v2_increment_snoc by exact Hp.
    assert (Hadd : GoInt.add (0 + Z.of_nat (Z.to_nat m) - 1) 1 = m).
    { unfold GoInt.add. rewrite GoIntFacts.wrap_small; [lia |].
      int_range. lia. }
    rewrite Hadd, Z.ltb_irrefl.
    assert (Hhead : head (p0 ← ps; (fun i => p0 ++ [i]) <$> seqZ 0 m)
                    = (fun q => q ++ [0]) <$> head ps).
    { destruct ps as [| p' ps']; [reflexivity |].
      rewrite bind_cons, seqZ_cons by lia. reflexivity. }
    rewrite Hhead, Hnext.
    destruct (Z.eqb_spec m 1) as [-> | _]; reflexivity.
  - apply IH; assumption.
Qed.

(** The inner loop of version 2 takes each coordinate vector of the
    row-major enumeration to the next one, and breaks at the last. *)
Lemma row_major_successive (axisLengths : list Z) :
  Forall (fun length => 1 <= length <= GoInt.maxInt) axisLengths ->
  successive (v2_increment axisLengths (length axisLengths)) (row_major axisLengths).
Proof.
  induction axisLengths as [| m axisLengths IH] using rev_ind; intros Hlen.
  - simpl. auto.
  - apply Forall_app in Hlen. destruct Hlen as [Hlen Hm].
    inversion Hm as [| ? ? Hm' _]; subst.
    rewrite row_major_snoc, length_app, Nat.add_1_r.
    apply successive_blocks; [exact Hm' | apply row_major_coordinates | apply IH, Hlen].
Qed.

Lemma numbered_cons (flatIdx : Z) (c : list Z) (rest : list (list Z)) :
  numbered flatIdx (c :: rest) = (flatIdx, c) :: numbered (flatIdx + 1) rest.
Proof.
  unfold numbered. simpl length. rewrite seqZ_cons by lia. simpl.
  do 3 f_equal; lia.
Qed.

Lemma v2_loop_feed {S : Type} (yield : S -> Z -> list Z -> S * bool)
    (axisLengths : list Z) (rest : list (list Z)) : forall c flatIdx s fuel,
  successive (v2_increment axisLengths (length axisLengths)) (c :: rest) ->
  (length rest < fuel)%nat ->
  0 <= flatIdx -> flatIdx + Z.of_nat (length rest) <= GoInt.maxInt ->
  v2_loop yield axisLengths fuel flatIdx c s
    = Completed (feed yield s (numbered flatIdx (c :: rest))).
Proof.
  induction rest as [| c' rest IH]; intros c flatIdx s fuel [Hnext Hrest] Hfuel H0 Hmax;
    (destruct fuel as [| fuel]; [simpl in Hfuel; lia |]);
    rewrite numbered_cons; simpl;
    destruct (yield s flatIdx c) as [s' continue]; destruct continue; simpl;
    try reflexivity; rewrite Hnext; simpl; [reflexivity |].
  assert (Hadd : GoInt.add flatIdx 1 = flatIdx + 1).
  { apply GoIntFacts.add_small. simpl length in Hmax. int_range. lia. }
  rewrite Hadd. apply IH.
  - exact Hrest.
  - simpl in Hfuel. lia.
  - lia.
  - simpl length in Hmax. lia.
Qed.

Lemma countNonTrivialAxes_nonpositive (axisLengths : list Z) : forall k,
  Exists (fun length => length <= 0) axisLengths ->
  countNonTrivialAxes axisLengths k = None.
Proof.
  induction axisLengths as [| x rest IH]; intros k Hex; [inversion Hex |]. simpl.
  destruct (Z.leb_spec x 0); [reflexivity |].
  apply IH. inversion Hex as [? ? Hx | ? ? Hrest]; subst; [lia | exact Hrest].
Qed.

Lemma bind_nil_result {A B : Type} (l : list A) : l ≫= (fun _ => @nil B) = [].
Proof.
  induction l as [| x l IH]; [reflexivity |]. rewrite bind_cons, IH. reflexivity.
Qed.

Lemma row_major_nonpositive (axisLengths : list Z) :
  Exists (fun length => length <= 0) axisLengths -> row_major axisLengths = [].
Proof.
  induction axisLengths as [| x rest IH]; intros Hex; [inversion Hex |]. simpl.
  inversion Hex as [? ? Hx | ? ? Hrest]; subst.
  - rewrite seqZ_nil by exact Hx. reflexivity.
  - rewrite (IH Hrest). apply bind_nil_result.
Qed.

Lemma row_major_ones (axisLengths : list Z) :
  Forall (fun length => length = 1) axisLengths ->
  row_major axisLengths = [replicate (length axisLengths) 0].
Proof.
  induction 1 as [| x rest -> _ IH]; [reflexivity |].
  simpl. rewrite IH. reflexivity.
Qed.

Lemma row_major_head (axisLengths : list Z) :
  Forall (fun length => 1 <= length) axisLengths ->
  exists rest, row_major axisLengths = replicate (length axisLengths) 0 :: rest.
Proof.
  induction 1 as [| x lens Hx _ [rest IH]]; [exists []; reflexivity |].
  simpl. rewrite seqZ_cons by lia. rewrite bind_cons, IH. simpl.
  eexists. reflexivity.
Qed.

Lemma product_bounds (axisLengths : list Z) :
  Forall (fun length => 1 <= length) axisLengths ->
  1 <= product axisLengths
  /\ Forall (fun length => length <= product axisLengths) axisLengths.
Proof.
  induction 1 as [| x rest Hx _ [IH1 IH2]]; simpl; [split; [lia | constructor] |].
  split; [nia |]. constructor; [nia |].
  eapply Forall_impl; [exact IH2 |]. simpl. intros y Hy. nia.
Qed.

Lemma feed_one {S : Type} (yield : S -> Z -> list Z -> S * bool) s flatIdx indices :
  feed yield s [(flatIdx, indices)] = fst (yield s flatIdx indices).
Proof. simpl. destruct (yield s flatIdx indices) as [s' []]; reflexivity. Qed.

Lemma numbered_length (flatIdx : Z) (coordinates : list (list Z)) :
  length (numbered flatIdx coordinates) = length coordinates.
Proof. unfold numbered. rewrite length_zip_with, length_seqZ. lia. Qed.

(** Rank 0: the consumer is called once, with [(0, [])]. *)
Lemma IterOn_seq_scalar {S : Type} (yield : S -> Z -> list Z -> S * bool)
    (at_ : ArrayType) (indices : list Z) (fuel : nat) (s : S) :
  Ok at_ = true -> NumAxes at_ = 0%nat -> length indices = NumAxes at_ ->
  IterOn_seq yield at_ indices fuel s = Completed (feed yield s [(0, [])]).
Proof.
  intros Hok Hrank Hidx. rewrite feed_one.
  unfold IterOn_seq. rewrite Hok, Hrank. simpl.
  rewrite Hrank in Hidx. destruct indices; [reflexivity | discriminate].
Qed.

(** An axis of length 0 or less: the consumer is not called. *)
Lemma IterOn_seq_nonpositive {S : Type} (yield : S -> Z -> list Z -> S * bool)
    (at_ : ArrayType) (indices : list Z) (fuel : nat) (s : S) :
  Ok at_ = true ->
  Exists (fun length => length <= 0) (AxisLengths at_) ->
  IterOn_seq yield at_ indices fuel s = Completed s.
Proof.
  intros Hok Hex. unfold IterOn_seq, NumAxes. rewrite Hok. simpl.
  destruct (AxisLengths at_) as [| x rest] eqn:E; [inversion Hex |].
  simpl length. cbn [Nat.eqb].
  rewrite countNonTrivialAxes_nonpositive by exact Hex. reflexivity.
Qed.

(** Axes of length 1 or more with a product in [int]: the consumer is fed
    the reference enumeration. *)
Lemma IterOn_seq_reference {S : Type} (yield : S -> Z -> list Z -> S * bool)
    (at_ : ArrayType) (indices : list Z) (fuel : nat) (s : S) :
  Ok at_ = true ->
  Forall (fun length => 1 <= length) (AxisLengths at_) ->
  GoInt.is_int (product (AxisLengths at_)) ->
  length indices = NumAxes at_ ->
  (length (Iter_reference at_) <= fuel)%nat ->
  IterOn_seq yield at_ indices fuel s = Completed (feed yield s (Iter_reference at_)).
Proof.
  intros Hok Hpos1 Hint Hidx Hfuel.
  destruct (NumAxes at_ =? 0)%nat eqn:E.
  { apply Nat.eqb_eq in E. rewrite IterOn_seq_scalar by assumption.
    unfold Iter_reference. unfold NumAxes in E.
    destruct (AxisLengths at_); [reflexivity | discriminate]. }
  unfold IterOn_seq, Iter_reference in *.
  rewrite Hok, E. simpl. unfold NumAxes in *.
  destruct (countNonTrivialAxes_positive (AxisLengths at_) 0 Hpos1)
    as (m & Hm & _ & _ & Hones).
  rewrite Hm, Hidx.
  destruct (m =? 0)%nat eqn:E0.
  { apply Nat.eqb_eq in E0. rewrite row_major_ones by auto.
    unfold numbered. simpl. rewrite <- feed_one. reflexivity. }
  assert (Hpos : Forall (fun length => 0 <= length) (AxisLengths at_)).
  { eapply Forall_impl; [exact Hpos1 |]. simpl. intros; lia. }
  assert (Hloop : v2_loop yield (AxisLengths at_) fuel 0
                    (replicate (length (AxisLengths at_)) 0) s
                  = Completed (feed yield s (numbered 0 (row_major (AxisLengths at_))))).
  { destruct (row_major_head _ Hpos1) as [rest Hrest].
    pose proof (row_major_length _ Hpos) as Hlen.
    pose proof (row_major_successive (AxisLengths at_)) as Hsucc.
    rewrite numbered_length in Hfuel.
    rewrite Hrest in *. simpl length in *.
    apply v2_loop_feed.
    - apply Hsucc. destruct (product_bounds _ Hpos1) as [_ Hle].
      rewrite Forall_forall in *. intros x Hx.
      specialize (Hpos1 x Hx). specialize (Hle x Hx).
      int_range. lia.
    - lia.
    - lia.
    - int_range. lia. }
  destruct (m + 2 <? length (AxisLengths at_))%nat; [exact Hloop |].
  rewrite <- v2_loop_v3 by exact Hpos1. exact Hloop.
Qed.

(** The reference enumeration holds exactly the coordinate vectors with
    every coordinate in the range of its axis. *)
Lemma row_major_elem (axisLengths : list Z) : forall c,
  c ∈ row_major axisLengths <-> Forall2 (fun i length => 0 <= i < length) c axisLengths.
Proof.
  induction axisLengths as [| n rest IH]; intros c; simpl.
  - rewrite list_elem_of_singleton. split; [intros ->; constructor | intros H; inversion H; reflexivity].
  - rewrite list_elem_of_bind. split.
    + intros (i & Hc & Hi). apply list_elem_of_fmap in Hc. destruct Hc as (c' & -> & Hc').
      apply elem_of_seqZ in Hi. constructor; [lia | apply IH, Hc'].
    + intros H. inversion H as [| i ? c' ? Hi Hc']; subst.
      exists i. split; [| apply elem_of_seqZ; lia].
      apply list_elem_of_fmap. exists c'. split; [reflexivity | apply IH, Hc'].
Qed.

Lemma Iter_IterOn_seq {S : Type} (yield : S -> Z -> list Z -> S * bool)
    (at_ : ArrayType) (fuel : nat) (s : S) :
  range_over (Iter at_) yield fuel s
    = IterOn_seq yield at_ (replicate (NumAxes at_) 0) fuel s.
Proof.
  unfold Iter, IterOn. rewrite length_replicate, Nat.eqb_refl. reflexivity.
Qed.

(** C1, with the bound it needs.  Over a valid array type [Iter] yields the
    one pair [(0, [])] at rank 0 and nothing when an axis has length 0 (or
    less).  When every axis has length 1 or more and the product of the
    lengths is an [int], it hands every consumer the pairs of the reference
    row-major enumeration, in order, until the consumer stops or the pairs
    end; collected, they are the reference enumeration itself, which has
    [Size()] pairs, the flat indices 0, 1, ..., [Size() - 1], and as
    coordinates the Cartesian product of the axis ranges with the last axis
    varying fastest.  Over [(Float64)[3 2]] the pairs go from [(0, [0 0])]
    to [(5, [2 1])]. *)
Theorem Iter_row_major (at_ : ArrayType) :
  Ok at_ = true ->
  (NumAxes at_ = 0%nat ->
   forall fuel : nat, range_over (Iter at_) collect fuel [] = Completed [(0, [])])
  /\ (Exists (fun length => length <= 0) (AxisLengths at_) ->
      forall fuel : nat, range_over (Iter at_) collect fuel [] = Completed [])
  /\ (Forall (fun length => 1 <= length) (AxisLengths at_) ->
      GoInt.is_int (product (AxisLengths at_)) ->
      (forall (S : Type) (yield : S -> Z -> list Z -> S * bool) (fuel : nat) (s : S),
         (Z.to_nat (Size at_) <= fuel)%nat ->
         range_over (Iter at_) yield fuel s
           = Completed (feed yield s (Iter_reference at_)))
      /\ (forall fuel : nat,
            (Z.to_nat (Size at_) <= fuel)%nat ->
            range_over (Iter at_) collect fuel [] = Completed (Iter_reference at_))
      /\ Z.of_nat (length (Iter_reference at_)) = Size at_
      /\ fst <$> Iter_reference at_ = seqZ 0 (Size at_)
      /\ snd <$> Iter_reference at_ = row_major (AxisLengths at_))
  /\ range_over (Iter {| DType := dtype.Float64; AxisLengths := [3; 2] |})
       collect 6%nat []
     = Completed [(0, [0; 0]); (1, [0; 1]); (2, [1; 0]);
                  (3, [1; 1]); (4, [2; 0]); (5, [2; 1])].
Proof.
  intros Hok. split; [| split; [| split; [| reflexivity]]].
  - intros Hrank fuel. rewrite Iter_IterOn_seq, IterOn_seq_scalar;
      [reflexivity | exact Hok | exact Hrank | apply length_replicate].
  - intros Hex fuel. rewrite Iter_IterOn_seq. apply IterOn_seq_nonpositive; assumption.
  - intros Hpos1 Hint.
    assert (Hpos : Forall (fun length => 0 <= length) (AxisLengths at_)).
    { eapply Forall_impl; [exact Hpos1 |]. simpl. intros; lia. }
    assert (Hlen : Z.of_nat (length (Iter_reference at_)) = Size at_).
    { unfold Iter_reference. rewrite numbered_length, row_major_length by exact Hpos.
      symmetry. apply Size_product, Hint. }
    assert (Hrun : forall (S : Type) (yield : S -> Z -> list Z -> S * bool) fuel s,
              (Z.to_nat (Size at_) <= fuel)%nat ->
              range_over (Iter at_) yield fuel s
                = Completed (feed yield s (Iter_reference at_))).
    { intros S yield fuel s Hfuel. rewrite Iter_IterOn_seq.
      apply IterOn_seq_reference; try assumption; [apply length_replicate | lia]. }
    split; [exact Hrun |].
    split; [intros fuel Hfuel; rewrite Hrun by exact Hfuel; rewrite feed_collect;
            reflexivity |].
    split; [exact Hlen |].
    split.
    + rewrite <- Hlen. unfold Iter_reference. rewrite numbered_length.
      unfold numbered. apply fst_zip. rewrite length_seqZ. lia.
    + unfold Iter_reference, numbered. apply snd_zip. rewrite length_seqZ. lia.
Qed.

Lemma Iter_row_major_witness :
  range_over (Iter {| DType := dtype.BFloat16; AxisLengths := [3; 1; 2; 1] |})
    collect 6%nat []
  = Completed
      (Iter_reference {| DType := dtype.BFloat16; AxisLengths := [3; 1; 2; 1] |}).
Proof.
  refine (proj1 (proj2 (proj1 (proj2 (proj2 (Iter_row_major
            {| DType := dtype.BFloat16; AxisLengths := [3; 1; 2; 1] |} _))) _ _))
            6%nat _).
  - reflexivity.
  - repeat constructor; lia.
  - apply is_int_iff. simpl. lia.
  - vm_compute. lia.
Defined.

(** C1 fails as stated once the product of the axis lengths leaves [int]:
    [Make(Float32, 65536, 65536, 65536, 65536)] is valid, has no axis of
    length 0 and [Size()] 0, and [Iter] over it yields pairs -- here the
    first three, the iteration being cut there. *)
Lemma Iter_size_overflow :
  Make dtype.Float32 [65536; 65536; 65536; 65536]
    = Ok_ {| DType := dtype.Float32; AxisLengths := [65536; 65536; 65536; 65536] |}
  /\ Ok {| DType := dtype.Float32; AxisLengths := [65536; 65536; 65536; 65536] |} = true
  /\ (0 ∉ [65536; 65536; 65536; 65536])
  /\ Size {| DType := dtype.Float32; AxisLengths := [65536; 65536; 65536; 65536] |} = 0
  /\ range_over
       (Iter {| DType := dtype.Float32; AxisLengths := [65536; 65536; 65536; 65536] |})
       collect 3%nat []
     = OutOfFuel [(0, [0; 0; 0; 0]); (1, [0; 0; 0; 1]); (2, [0; 0; 0; 2])].
Proof.
  split; [reflexivity |]. split; [reflexivity |].
  split; [| split; vm_compute; reflexivity].
  intros H. apply list_elem_of_In in H. simpl in H.
  repeat (destruct H as [H | H]; [discriminate H |]). exact H.
Qed.

(** ** Shape inference *)

Section FromAnyValueFacts.

Variable FromGoType : GoType -> dtype.DType.

#[local] Notation "'recurse'" := (arrayTypeForAnyValueRecursive FromGoType).

Lemma Equal_inferred (dt : dtype.DType) (prefix dims1 dims2 : list Z) (n : Z) :
  Equal {| DType := dt; AxisLengths := (prefix ++ [n]) ++ dims1 |}
        {| DType := dt; AxisLengths := (prefix ++ [n]) ++ dims2 |} = true ->
  dims1 = dims2.
Proof.
  unfold Equal, IsScalar, NumAxes. simpl.
  rewrite dtype_eqb_refl. simpl.
  destruct (_ =? _)%nat; simpl; [| discriminate].
  rewrite !length_app. simpl.
  replace (length prefix + 1 + length dims1 =? 0)%nat with false
    by (symmetry; apply Nat.eqb_neq; lia).
  rewrite andb_false_r. intros H. apply slices_Equal_eq in H.
  apply app_inv_head in H. exact H.
Qed.

Lemma checkSiblings_regular (elem : GoType) (arrayTypePrefix : ArrayType)
    (dims : list Z) (others : list (GoValue elem)) :
  (forall x, x ∈ others ->
     recurse elem arrayTypePrefix x
       = (inferred FromGoType elem (AxisLengths arrayTypePrefix) dims, None)) ->
  checkSiblings (recurse elem)
    (inferred FromGoType elem (AxisLengths arrayTypePrefix) dims) arrayTypePrefix others = None.
Proof.
  induction others as [| vi others IH]; intros Hall; simpl; [reflexivity |].
  rewrite Clone_id, (Hall vi) by (left).
  rewrite Equal_refl. simpl. apply IH. intros x Hx. apply Hall. right. exact Hx.
Qed.

(** Part 1 in general: on a regular value of a supported scalar type the
    recursion appends the axis lengths and sets the element kind. *)
Lemma recursive_regular (t : GoType) : forall (arrayType : ArrayType) (v : GoValue t) dims,
  FromGoType (scalarType t) <> dtype.InvalidDType ->
  regular t v dims ->
  recurse t arrayType v = (inferred FromGoType t (AxisLengths arrayType) dims, None).
Proof.
  induction t as [name | elem IH]; intros arrayType v dims Hsup Hreg; simpl in *.
  - subst dims. apply dtype_eqb_neq in Hsup. rewrite Hsup.
    unfold inferred. simpl. rewrite app_nil_r. reflexivity.
  - destruct dims as [| d dims]; [contradiction |].
    destruct Hreg as (-> & Hne & Hall).
    destruct v as [| v0 others]; [exfalso; apply Hne; reflexivity |].
    inversion Hall as [| ? ? H0 Hothers]; subst.
    rewrite (IH _ v0 dims Hsup H0). simpl.
    unfold inferred. simpl.
    rewrite <- (app_assoc (AxisLengths arrayType) [_] dims). simpl.
    f_equal.
    pose proof (checkSiblings_regular elem
      {| DType := DType arrayType;
         AxisLengths := AxisLengths arrayType ++ [Z.of_nat (S (length others))] |}
      dims others) as Hcheck.
    unfold inferred in Hcheck. simpl in Hcheck.
    rewrite <- (app_assoc (AxisLengths arrayType) [_] dims) in Hcheck. simpl in Hcheck.
    rewrite Clone_id. apply Hcheck.
    intros x Hx. rewrite Forall_forall in Hothers.
    rewrite (IH _ x dims Hsup (Hothers x Hx)). unfold inferred. simpl.
    rewrite <- app_assoc. reflexivity.
Qed.

Lemma recursive_success_supported (t : GoType) : forall arrayType (v : GoValue t) a,
  recurse t arrayType v = (a, None) -> FromGoType (scalarType t) <> dtype.InvalidDType.
Proof.
  induction t as [name | elem IH]; intros arrayType v a H; simpl in *.
  - destruct (dtype.eqb _ _) eqn:E; [discriminate |]. apply dtype_eqb_neq, E.
  - destruct v as [| v0 others]; [discriminate |].
    destruct (recurse elem _ v0) as [a0 [e |]] eqn:E0; [discriminate |].
    eapply IH, E0.
Qed.



Lemma recursive_cons (elem : GoType) (arrayType : ArrayType)
    (v0 : GoValue elem) (others : list (GoValue elem)) :
  recurse (TSlice elem) arrayType (v0 :: others)
    = let prefix := {| DType := DType arrayType;
                       AxisLengths := AxisLengths arrayType
                                      ++ [Z.of_nat (length (v0 :: others))] |} in
      match recurse elem prefix v0 with
      | (a, Some e) => (a, Some e)
      | (a, None) => (a, checkSiblings (recurse elem) a (Clone prefix) others)
      end.
Proof.
  simpl. destruct (arrayTypeForAnyValueRecursive FromGoType elem _ v0) as [a [e |]];
    reflexivity.
Qed.

Lemma checkSiblings_no_empty (elem : GoType) (arrayTypePrefix : ArrayType) (n : Z)
    (dims : list Z) (others : list (GoValue elem)) :
  (forall x, x ∈ others ->
     regular_or_irregular FromGoType elem
       {| DType := DType arrayTypePrefix;
          AxisLengths := AxisLengths arrayTypePrefix ++ [n] |} x) ->
  let prefix := {| DType := DType arrayTypePrefix;
                   AxisLengths := AxisLengths arrayTypePrefix ++ [n] |} in
  let arrayType := inferred FromGoType elem (AxisLengths prefix) dims in
  (checkSiblings (recurse elem) arrayType prefix others = None
   /\ Forall (fun x => regular elem x dims) others)
  \/ (exists a b, checkSiblings (recurse elem) arrayType prefix others
                  = Some (ErrIrregular a b)
                  /\ Equal a b = false).
Proof.
  intros Hall prefix arrayType.
  induction others as [| vi others IH]; simpl; [left; split; [reflexivity | constructor] |].
  rewrite Clone_id.
  destruct (Hall vi) as [(dims' & Hreg & Hrun) | (a' & a & b & Hrun & Hab)]; [left | |].
  - fold prefix in Hrun. rewrite Hrun.
    destruct (Equal arrayType (inferred FromGoType elem (AxisLengths prefix) dims')) eqn:E; simpl.
    + apply Equal_inferred in E. subst dims'.
      destruct IH as [[Hnone Hregs] | Herr].
      * intros x Hx. apply Hall. right. exact Hx.
      * left. split; [exact Hnone | constructor; assumption].
      * right. exact Herr.
    + right. eexists _, _. split; [reflexivity | exact E].
  - fold prefix in Hrun. rewrite Hrun. right. exists a, b. split; [reflexivity | exact Hab].
Qed.

Lemma recursive_no_empty (t : GoType) : forall (arrayType : ArrayType) (v : GoValue t),
  FromGoType (scalarType t) <> dtype.InvalidDType ->
  ~ has_empty t v ->
  regular_or_irregular FromGoType t arrayType v.
Proof.
  induction t as [name | elem IH]; intros arrayType v Hsup Hne.
  - left. exists []. split; [reflexivity |].
    apply recursive_regular; [exact Hsup | reflexivity].
  - simpl in Hne, Hsup.
    destruct v as [| v0 others]; [exfalso; apply Hne; left; reflexivity |].
    assert (Hne' : forall x, x ∈ v0 :: others -> ~ has_empty elem x).
    { intros x Hx Hex. apply Hne. right. apply Exists_exists. exists x. split; assumption. }
    set (prefix := {| DType := DType arrayType;
                      AxisLengths := AxisLengths arrayType
                                     ++ [Z.of_nat (length (v0 :: others))] |}).
    destruct (IH prefix v0 Hsup (Hne' v0 ltac:(left)))
      as [(dims & Hreg0 & Hrun0) | (a' & a & b & Hrun0 & Hab)].
    + destruct (checkSiblings_no_empty elem arrayType
                  (Z.of_nat (length (v0 :: others))) dims others)
        as [[Hnone Hregs] | (a & b & Herr & Hab)].
      * intros x Hx. apply IH; [exact Hsup | apply Hne'; right; exact Hx].
      * left. exists (Z.of_nat (length (v0 :: others)) :: dims). split.
        -- simpl. split; [reflexivity | split; [discriminate | constructor; assumption]].
        -- apply recursive_regular; [exact Hsup |]. simpl.
           split; [reflexivity | split; [discriminate | constructor; assumption]].
      * right. exists (inferred FromGoType elem (AxisLengths prefix) dims), a, b.
        split; [| exact Hab].
        rewrite recursive_cons. cbv zeta. fold prefix. rewrite Hrun0, Clone_id.
        f_equal. exact Herr.
    + right. exists a', a, b. split; [| exact Hab].
      rewrite recursive_cons. cbv zeta. fold prefix. rewrite Hrun0. reflexivity.
Qed.

Lemma checkSiblings_has_empty (elem : GoType) (arrayType arrayTypePrefix : ArrayType)
    (others : list (GoValue elem)) :
  (forall x a, x ∈ others -> has_empty elem x ->
     exists a' e, recurse elem a x = (a', Some e)) ->
  Exists (has_empty elem) others ->
  exists e, checkSiblings (recurse elem) arrayType arrayTypePrefix others = Some e.
Proof.
  intros Hall Hex. induction others as [| vi others IH]; [inversion Hex |]. simpl.
  destruct (recurse elem (Clone arrayTypePrefix) vi) as [test [e |]] eqn:E;
    [exists e; reflexivity |].
  destruct (negb (Equal arrayType test)); [eexists; reflexivity |].
  apply IH.
  - intros x a Hx. apply Hall. right. exact Hx.
  - inversion Hex as [? ? Hvi | ? ? Hrest]; subst; [| exact Hrest].
    destruct (Hall vi (Clone arrayTypePrefix) ltac:(left) Hvi) as (a' & e & He).
    rewrite He in E. discriminate.
Qed.

Lemma recursive_has_empty (t : GoType) : forall (arrayType : ArrayType) (v : GoValue t),
  has_empty t v -> exists a' e, recurse t arrayType v = (a', Some e).
Proof.
  induction t as [name | elem IH]; intros arrayType v Hex; [contradiction |].
  destruct v as [| v0 others]; [eexists _, _; reflexivity |].
  destruct Hex as [Hnil | Hex]; [discriminate |].
  rewrite recursive_cons. cbv zeta.
  set (prefix := {| DType := DType arrayType;
                    AxisLengths := AxisLengths arrayType
                                   ++ [Z.of_nat (length (v0 :: others))] |}).
  destruct (recurse elem prefix v0) as [a0 [e |]] eqn:E0; [eexists _, _; reflexivity |].
  inversion Hex as [? ? H0 | ? ? Hrest]; subst.
  - destruct (IH prefix v0 H0) as (a' & e & He). rewrite He in E0. discriminate.
  - destruct (checkSiblings_has_empty elem a0 (Clone prefix) others) as [e He].
    + intros x a _ Hx. apply IH, Hx.
    + exact Hrest.
    + rewrite He. eexists _, _. reflexivity.
Qed.

End FromAnyValueFacts.




(** * Further properties *)

(** ** Construction, equality, axis access, size *)

(** X1.  [Make] returns exactly when no axis length is negative, and then
    it returns the array type with the element kind and the axis lengths
    given; in every other case it panics. *)
Theorem Make_returns_iff (dt : dtype.DType) (axisLengths : list Z) (at_ : ArrayType) :
  (Make dt axisLengths = Ok_ at_
   <-> Forall (fun length => 0 <= length) axisLengths
       /\ at_ = {| DType := dt; AxisLengths := axisLengths |})
  /\ (Forall (fun length => 0 <= length) axisLengths
      \/ exists e, Make dt axisLengths = Panic e).
Proof.
  unfold Make. destruct (existsb _ _) eqn:E.
  - apply existsb_ltb_zero in E. destruct E as (x & Hin & Hx). split.
    + split; [discriminate |]. intros [Hall _]. rewrite Forall_forall in Hall.
      specialize (Hall x Hin). lia.
    + right. eexists. reflexivity.
  - assert (Hall : Forall (fun length => 0 <= length) axisLengths).
    { apply Forall_forall. intros x Hin.
      destruct (Z.le_gt_cases 0 x) as [Hx | Hx]; [exact Hx |].
      assert (Hex : existsb (fun length => length <? 0) axisLengths = true)
        by (apply existsb_ltb_zero; exists x; split; [exact Hin | lia]).
      congruence. }
    split; [| left; exact Hall].
    split; [intros [= <-]; split; [exact Hall | reflexivity] | intros [_ ->]; reflexivity].
Qed.

Lemma Equal_fields (at_ other : ArrayType) :
  Equal at_ other = true
  <-> DType at_ = DType other /\ AxisLengths at_ = AxisLengths other.
Proof.
  unfold Equal, IsScalar, NumAxes.
  destruct (dtype.eqb (DType at_) (DType other)) eqn:Ed; simpl.
  - apply dtype_eqb_eq in Ed.
    destruct (length (AxisLengths at_) =? length (AxisLengths other))%nat eqn:En; simpl.
    + apply Nat.eqb_eq in En.
      destruct (Ok at_ && (length (AxisLengths at_) =? 0)%nat) eqn:Es.
      * apply andb_true_iff in Es. destruct Es as [_ E0]. apply Nat.eqb_eq in E0.
        rewrite E0 in En.
        destruct (AxisLengths at_), (AxisLengths other); try discriminate.
        tauto.
      * rewrite slices_Equal_eq. tauto.
    + apply Nat.eqb_neq in En. split; [discriminate |]. intros [_ H].
      rewrite H in En. contradiction.
  - apply dtype_eqb_neq in Ed. split; [discriminate | tauto].
Qed.

Lemma EqualAxes_fields (at_ other : ArrayType) :
  EqualAxes at_ other = true <-> AxisLengths at_ = AxisLengths other.
Proof.
  unfold EqualAxes, IsScalar, NumAxes.
  destruct (length (AxisLengths at_) =? length (AxisLengths other))%nat eqn:En; simpl.
  - apply Nat.eqb_eq in En.
    destruct (Ok at_ && (length (AxisLengths at_) =? 0)%nat) eqn:Es.
    + apply andb_true_iff in Es. destruct Es as [_ E0]. apply Nat.eqb_eq in E0.
      rewrite E0 in En.
      destruct (AxisLengths at_), (AxisLengths other); try discriminate. tauto.
    + apply slices_Equal_eq.
  - apply Nat.eqb_neq in En. split; [discriminate |]. intros H.
    rewrite H in En. contradiction.
Qed.

Lemma bool_eq_iff (b1 b2 : bool) : (b1 = true <-> b2 = true) -> b1 = b2.
Proof. destruct b1, b2; intros [H1 H2]; auto; symmetry; auto. Qed.

(** X2.  [Equal] holds exactly when the element kinds are the same and the
    axis lengths are the same (the early return for scalars changes
    nothing), so it is reflexive, symmetric and transitive. *)
Theorem Equal_equivalence (at1 at2 at3 : ArrayType) :
  (Equal at1 at2 = true
   <-> DType at1 = DType at2 /\ AxisLengths at1 = AxisLengths at2)
  /\ Equal at1 at1 = true
  /\ Equal at1 at2 = Equal at2 at1
  /\ (Equal at1 at2 = true -> Equal at2 at3 = true -> Equal at1 at3 = true).
Proof.
  split; [apply Equal_fields |].
  split; [apply Equal_fields; tauto |].
  split.
  - apply bool_eq_iff. rewrite !Equal_fields. split; intros [-> ->]; tauto.
  - rewrite !Equal_fields. intros [-> ->] [-> ->]. tauto.
Qed.

(** X3.  [EqualAxes] holds exactly when the axis lengths are the same,
    whatever the element kinds; [Equal] is [EqualAxes] together with equal
    element kinds, so two array types of rank 0 with different element
    kinds are [EqualAxes] and not [Equal]. *)
Theorem EqualAxes_iff (at_ other : ArrayType) :
  (EqualAxes at_ other = true <-> AxisLengths at_ = AxisLengths other)
  /\ (Equal at_ other = true
      <-> DType at_ = DType other /\ EqualAxes at_ other = true)
  /\ (NumAxes at_ = 0%nat -> NumAxes other = 0%nat -> DType at_ <> DType other ->
      EqualAxes at_ other = true /\ Equal at_ other = false).
Proof.
  split; [apply EqualAxes_fields | split].
  - rewrite Equal_fields, EqualAxes_fields. tauto.
  - intros H1 H2 Hd. unfold NumAxes in H1, H2. split.
    + apply EqualAxes_fields.
      destruct (AxisLengths at_), (AxisLengths other); try discriminate.
      reflexivity.
    + apply not_true_is_false. intros E. apply Equal_fields in E. tauto.
Qed.

Lemma EqualAxes_iff_witness :
  EqualAxes {| DType := dtype.Float32; AxisLengths := [] |}
            {| DType := dtype.Int32; AxisLengths := [] |} = true
  /\ Equal {| DType := dtype.Float32; AxisLengths := [] |}
           {| DType := dtype.Int32; AxisLengths := [] |} = false.
Proof.
  refine (proj2 (proj2 (EqualAxes_iff
            {| DType := dtype.Float32; AxisLengths := [] |}
            {| DType := dtype.Int32; AxisLengths := [] |})) _ _ _);
    [reflexivity | reflexivity | discriminate].
Defined.

(** X4.  [AxisLength] returns for exactly the axes from [-NumAxes()] to
    [NumAxes() - 1]: the length at that index for an axis of 0 or more, the
    length at [NumAxes() + axis] for a negative axis, so that axis [-1] is
    the last axis; for every other axis it panics, with the axis asked
    for. *)
Theorem AxisLength_bounds (at_ : ArrayType) (axis : Z) :
  (0 <= axis < Z.of_nat (NumAxes at_) ->
   AxisLength at_ axis = Returns (AxisLengths at_ !!! Z.to_nat axis)
   /\ AxisLengths at_ !! Z.to_nat axis = Some (AxisLengths at_ !!! Z.to_nat axis))
  /\ (- Z.of_nat (NumAxes at_) <= axis < 0 ->
      AxisLength at_ axis = AxisLength at_ (Z.of_nat (NumAxes at_) + axis)
      /\ AxisLength at_ axis
         = Returns (AxisLengths at_ !!! Z.to_nat (Z.of_nat (NumAxes at_) + axis)))
  /\ (axis < - Z.of_nat (NumAxes at_) \/ Z.of_nat (NumAxes at_) <= axis ->
      AxisLength at_ axis
        = Panics (ErrAxisLengthOutOfBounds axis (NumAxes at_) at_)).
Proof.
  assert (Hpos : forall a, 0 <= a < Z.of_nat (NumAxes at_) ->
            AxisLength at_ a = Returns (AxisLengths at_ !!! Z.to_nat a)).
  { intros a Ha. unfold AxisLength.
    destruct (Z.ltb_spec a 0); [lia |].
    destruct (Z.ltb_spec a 0); [lia |].
    destruct (Z.leb_spec (Z.of_nat (NumAxes at_)) a); [lia |]. reflexivity. }
  split; [| split].
  - intros Ha. split; [apply Hpos, Ha |].
    apply list_lookup_lookup_total_lt. unfold NumAxes in Ha. lia.
  - intros Ha. rewrite (Hpos (Z.of_nat (NumAxes at_) + axis)) by lia.
    assert (H : AxisLength at_ axis
                = Returns (AxisLengths at_ !!! Z.to_nat (Z.of_nat (NumAxes at_) + axis))).
    { unfold AxisLength. destruct (Z.ltb_spec axis 0); [| lia].
      destruct (Z.ltb_spec (axis + Z.of_nat (NumAxes at_)) 0); [lia |].
      destruct (Z.leb_spec (Z.of_nat (NumAxes at_)) (axis + Z.of_nat (NumAxes at_)));
        [lia |].
      simpl. rewrite Z.add_comm. reflexivity. }
    split; exact H.
  - intros Ha. unfold AxisLength. destruct (Z.ltb_spec axis 0).
    + destruct (Z.ltb_spec (axis + Z.of_nat (NumAxes at_)) 0); [reflexivity | lia].
    + destruct (Z.ltb_spec axis 0); [lia |].
      destruct (Z.leb_spec (Z.of_nat (NumAxes at_)) axis); [reflexivity | lia].
Qed.

Lemma AxisLength_bounds_witness :
  AxisLength {| DType := dtype.Float32; AxisLengths := [4; 3; 2] |} (-1)
    = AxisLength {| DType := dtype.Float32; AxisLengths := [4; 3; 2] |} (3 + -1)
  /\ AxisLength {| DType := dtype.Float32; AxisLengths := [4; 3; 2] |} (-1)
     = Returns 2
  /\ AxisLength {| DType := dtype.Float32; AxisLengths := [4; 3; 2] |} (-4)
     = Panics (ErrAxisLengthOutOfBounds (-4) 3
                 {| DType := dtype.Float32; AxisLengths := [4; 3; 2] |}).
Proof.
  destruct (AxisLength_bounds {| DType := dtype.Float32; AxisLengths := [4; 3; 2] |} (-1))
    as (_ & Hneg & _).
  destruct (AxisLength_bounds {| DType := dtype.Float32; AxisLengths := [4; 3; 2] |} (-4))
    as (_ & _ & Hout).
  destruct Hneg as [H1 H2]; [unfold NumAxes; simpl; lia |].
  split; [exact H1 | split; [exact H2 |]].
  apply Hout. unfold NumAxes. simpl. lia.
Defined.

(** X5.  [Size] is the product of the axis lengths taken in [int]: the
    product itself whenever that is an [int], 1 at rank 0, and 0 whenever
    an axis has length 0, which is when [IsZeroSize] holds. *)
Theorem Size_is_product (at_ : ArrayType) :
  Size at_ = GoInt.wrap (product (AxisLengths at_))
  /\ (GoInt.is_int (product (AxisLengths at_)) -> Size at_ = product (AxisLengths at_))
  /\ (NumAxes at_ = 0%nat -> Size at_ = 1)
  /\ (IsZeroSize at_ = true <-> 0 ∈ AxisLengths at_)
  /\ (IsZeroSize at_ = true -> Size at_ = 0)
  /\ (GoInt.is_int (product (AxisLengths at_)) -> Size at_ = 0 -> IsZeroSize at_ = true).
Proof.
  assert (Hzero : forall l : list Z, 0 ∈ l <-> product l = 0).
  { induction l as [| x l IH]; simpl.
    - split; [intros H; inversion H | discriminate].
    - rewrite elem_of_cons, IH. split.
      + intros [<- | ->]; lia.
      + intros H. apply Z.mul_eq_0 in H. destruct H as [-> | H]; auto. }
  split; [apply Size_wrap |].
  split; [apply Size_product |].
  split.
  { unfold NumAxes, Size. destruct (AxisLengths at_); [reflexivity | discriminate]. }
  split; [apply existsb_eqb_zero |].
  split.
  - intros H. apply existsb_eqb_zero, Hzero in H. rewrite Size_wrap, H. reflexivity.
  - intros Hint H0. rewrite Size_product in H0 by exact Hint.
    apply existsb_eqb_zero, Hzero, H0.
Qed.

Lemma Size_is_product_witness :
  Size {| DType := dtype.Float32; AxisLengths := [4; 3; 2] |} = product [4; 3; 2]
  /\ Size {| DType := dtype.Float32; AxisLengths := [4; 0; 2] |} = 0.
Proof.
  destruct (Size_is_product {| DType := dtype.Float32; AxisLengths := [4; 3; 2] |})
    as (_ & H1 & _).
  destruct (Size_is_product {| DType := dtype.Float32; AxisLengths := [4; 0; 2] |})
    as (_ & _ & _ & _ & H2 & _).
  split; [apply H1; apply is_int_iff; simpl; lia | apply H2; reflexivity].
Defined.

(** ** Concatenation of axes, composed *)

Lemma ConcatenateAxes_valid (at1 at2 : ArrayType) :
  Ok at1 = true -> Ok at2 = true -> DType at1 = DType at2 ->
  ConcatenateAxes at1 at2
    = {| DType := DType at1; AxisLengths := AxisLengths at1 ++ AxisLengths at2 |}.
Proof.
  intros H1 H2 Hd. unfold ConcatenateAxes.
  pose proof H1 as H1'. pose proof H2 as H2'.
  unfold Ok in H1', H2'. apply negb_true_iff in H1', H2'.
  rewrite H1', H2', Hd, dtype_eqb_refl. simpl.
  unfold IsScalar, NumAxes. rewrite H1, H2. simpl.
  destruct at1 as [d1 l1], at2 as [d2 l2]. simpl in *. subst d2.
  destruct l1 as [| x l1]; simpl; [reflexivity |].
  destruct l2 as [| y l2]; simpl; [rewrite app_nil_r; reflexivity |].
  f_equal. apply (ConcatenateAxes_copies (x :: l1) (y :: l2)).
Qed.

Lemma ConcatenateAxes_invalid (at1 at2 : ArrayType) :
  Ok at1 = false \/ Ok at2 = false \/ DType at1 <> DType at2 ->
  ConcatenateAxes at1 at2 = Invalid.
Proof.
  unfold ConcatenateAxes, Ok, Invalid.
  intros [H | [H | H]].
  - apply negb_false_iff in H. rewrite H. reflexivity.
  - apply negb_false_iff in H. rewrite H, orb_true_r. reflexivity.
  - apply dtype_eqb_neq in H. rewrite H. simpl.
    destruct (_ || _); reflexivity.
Qed.

Lemma DType_eq_cases (a b : dtype.DType) : a = b \/ a <> b.
Proof.
  destruct (dtype.eqb a b) eqn:E; [left; apply dtype_eqb_eq, E | right; apply dtype_eqb_neq, E].
Qed.

Lemma Ok_cases (at_ : ArrayType) : Ok at_ = true \/ Ok at_ = false.
Proof. destruct (Ok at_); auto. Qed.

(** X6.  [ConcatenateAxes] is associative, for all array types: with an
    invalid operand or two different element kinds anywhere both groupings
    give the invalid array type, and otherwise both give the three axis
    sequences in order. *)
Theorem ConcatenateAxes_assoc (at1 at2 at3 : ArrayType) :
  ConcatenateAxes (ConcatenateAxes at1 at2) at3
    = ConcatenateAxes at1 (ConcatenateAxes at2 at3).
Proof.
  destruct (Ok_cases at1) as [H1 | H1];
    [| rewrite (ConcatenateAxes_invalid at1 at2), (ConcatenateAxes_invalid at1) by auto;
       apply ConcatenateAxes_invalid; auto].
  destruct (Ok_cases at2) as [H2 | H2].
  2: { rewrite (ConcatenateAxes_invalid at1 at2), (ConcatenateAxes_invalid at2 at3) by auto.
       rewrite (ConcatenateAxes_invalid at1 Invalid) by auto.
       apply ConcatenateAxes_invalid. auto. }
  destruct (Ok_cases at3) as [H3 | H3].
  2: { rewrite (ConcatenateAxes_invalid at2 at3), (ConcatenateAxes_invalid _ at3) by auto.
       symmetry. apply ConcatenateAxes_invalid. auto. }
  destruct (DType_eq_cases (DType at1) (DType at2)) as [E12 | E12].
  2: { rewrite (ConcatenateAxes_invalid at1 at2) by auto.
       rewrite (ConcatenateAxes_invalid Invalid at3) by auto.
       symmetry. apply ConcatenateAxes_invalid.
       destruct (DType_eq_cases (DType at2) (DType at3)) as [E23 | E23].
       - rewrite (ConcatenateAxes_valid at2 at3) by assumption. simpl. auto.
       - rewrite (ConcatenateAxes_invalid at2 at3) by auto. auto. }
  rewrite (ConcatenateAxes_valid at1 at2) by assumption.
  destruct (DType_eq_cases (DType at2) (DType at3)) as [E23 | E23].
  - rewrite (ConcatenateAxes_valid at2 at3) by assumption.
    rewrite !ConcatenateAxes_valid; simpl; try assumption; try congruence.
    rewrite app_assoc. reflexivity.
  - rewrite (ConcatenateAxes_invalid at2 at3) by auto.
    rewrite (ConcatenateAxes_invalid at1 Invalid) by auto.
    apply ConcatenateAxes_invalid. simpl. right. right. congruence.
Qed.

Lemma product_app (l1 l2 : list Z) : product (l1 ++ l2) = product l1 * product l2.
Proof.
  induction l1 as [| x l1 IH]; simpl; [lia |]. rewrite IH. ring.
Qed.

(** X7.  For two valid array types of one element kind, scalars included,
    [ConcatenateAxes] gives that element kind with the axes of the first
    followed by those of the second; the number of axes adds up, [Size]
    multiplies (in [int]), the result has an axis of length 0 exactly when
    an operand has one, and axis lengths that are all 0 or more stay so. *)
Theorem ConcatenateAxes_valid_operands (at1 at2 : ArrayType) :
  Ok at1 = true -> Ok at2 = true -> DType at1 = DType at2 ->
  ConcatenateAxes at1 at2
    = {| DType := DType at1; AxisLengths := AxisLengths at1 ++ AxisLengths at2 |}
  /\ Ok (ConcatenateAxes at1 at2) = true
  /\ NumAxes (ConcatenateAxes at1 at2) = (NumAxes at1 + NumAxes at2)%nat
  /\ Size (ConcatenateAxes at1 at2) = GoInt.mul (Size at1) (Size at2)
  /\ IsZeroSize (ConcatenateAxes at1 at2) = IsZeroSize at1 || IsZeroSize at2
  /\ (Forall (fun length => 0 <= length) (AxisLengths at1) ->
      Forall (fun length => 0 <= length) (AxisLengths at2) ->
      Forall (fun length => 0 <= length) (AxisLengths (ConcatenateAxes at1 at2))).
Proof.
  intros H1 H2 Hd. rewrite ConcatenateAxes_valid by assumption.
  split; [reflexivity |].
  split; [exact H1 |].
  split; [unfold NumAxes; simpl; apply length_app |].
  split.
  { rewrite !Size_wrap. simpl. rewrite product_app. unfold GoInt.mul.
    rewrite GoIntFacts.wrap_mul_l, GoIntFacts.wrap_mul_r. reflexivity. }
  split; [unfold IsZeroSize; simpl; apply existsb_app |].
  simpl. intros Ha Hb. apply Forall_app. split; assumption.
Qed.

Lemma ConcatenateAxes_valid_operands_witness :
  Size (ConcatenateAxes {| DType := dtype.Float32; AxisLengths := [2; 3] |}
                        {| DType := dtype.Float32; AxisLengths := [4] |})
    = GoInt.mul (Size {| DType := dtype.Float32; AxisLengths := [2; 3] |})
                (Size {| DType := dtype.Float32; AxisLengths := [4] |}).
Proof.
  refine (proj1 (proj2 (proj2 (proj2 (ConcatenateAxes_valid_operands
            {| DType := dtype.Float32; AxisLengths := [2; 3] |}
            {| DType := dtype.Float32; AxisLengths := [4] |} _ _ _)))));
    reflexivity.
Defined.

(** ** Strides in closed form *)

Lemma suffix_products_length (l : list Z) : length (suffix_products l) = length l.
Proof. induction l as [| x l IH]; simpl; [reflexivity | rewrite IH; reflexivity]. Qed.

Lemma suffix_products_lookup (l : list Z) : forall i,
  (i < length l)%nat -> suffix_products l !! i = Some (product (drop (S i) l)).
Proof.
  induction l as [| x l IH]; intros i Hi; simpl in Hi; [lia |].
  destruct i as [| i]; simpl; [rewrite drop_0; reflexivity |].
  apply IH. lia.
Qed.

Lemma product_drop (l : list Z) (i : nat) :
  (i < length l)%nat -> product (drop i l) = l !!! i * product (drop (S i) l).
Proof.
  intros Hi. rewrite (drop_S l (l !!! i) i) by (apply list_lookup_lookup_total_lt, Hi).
  reflexivity.
Qed.

Lemma Strides_loop_closed (axisLengths strides : list Z) :
  length strides = length axisLengths ->
  forall k i, (i + k)%nat = length axisLengths -> (1 <= k)%nat ->
  Strides_loop axisLengths (length axisLengths) 1 strides !!! i
    = GoInt.wrap (product (drop (S i) axisLengths)).
Proof.
  intros Hlen.
  destruct (Strides_loop_spec axisLengths (length axisLengths) 1 strides)
    as (_ & _ & Hlast & Hrec); [lia |].
  induction k as [| k IH]; intros i Hik Hk; [lia |].
  destruct k as [| k].
  - rewrite (Hlast i) by lia. rewrite drop_ge by lia. reflexivity.
  - rewrite (Hrec i) by lia. rewrite (IH (S i)) by lia.
    rewrite (product_drop axisLengths (S i)) by lia.
    unfold GoInt.mul. rewrite GoIntFacts.wrap_mul_l. f_equal. ring.
Qed.

Lemma Strides_suffix_products (at_ : ArrayType) :
  0 ∉ AxisLengths at_ -> Strides at_ = GoInt.wrap <$> suffix_products (AxisLengths at_).
Proof.
  intros Hz. unfold Strides, NumAxes.
  destruct (length (AxisLengths at_) =? 0)%nat eqn:E.
  { apply Nat.eqb_eq in E. destruct (AxisLengths at_); [reflexivity | discriminate]. }
  assert (Hnz : IsZeroSize at_ = false).
  { unfold IsZeroSize. destruct (existsb _ _) eqn:E'; [| reflexivity].
    apply existsb_eqb_zero in E'. contradiction. }
  rewrite Hnz.
  pose proof (Strides_loop_spec (AxisLengths at_) (length (AxisLengths at_)) 1
                (replicate (length (AxisLengths at_)) 0)) as Hspec.
  rewrite length_replicate in Hspec. destruct (Hspec (Nat.le_refl _)) as (Hlen & _).
  apply list_eq. intros i.
  destruct (decide (i < length (AxisLengths at_))%nat) as [Hi | Hi].
  - rewrite list_lookup_fmap, suffix_products_lookup by exact Hi. simpl.
    apply list_lookup_alt. split; [lia |].
    apply (Strides_loop_closed _ _ (length_replicate _ _)
             (length (AxisLengths at_) - i)%nat); lia.
  - rewrite !lookup_ge_None_2; [reflexivity | |].
    + rewrite length_fmap, suffix_products_length. lia.
    + lia.
Qed.

Lemma suffix_products_fit (l : list Z) :
  Forall (fun length => 1 <= length) l -> GoInt.is_int (product l) ->
  Forall (fun p => 1 <= p <= product l) (suffix_products l).
Proof.
  induction 1 as [| x l Hx Hl IH]; intros Hint; simpl; [constructor |].
  destruct (product_bounds l Hl) as [Hp _].
  assert (Hint' : GoInt.is_int (product l)).
  { simpl in Hint. int_range. split; [lia | nia]. }
  constructor; [nia |].
  eapply Forall_impl; [apply IH, Hint' |]. simpl. intros p Hpl. nia.
Qed.

Lemma Strides_fits (at_ : ArrayType) :
  Forall (fun length => 1 <= length) (AxisLengths at_) ->
  GoInt.is_int (product (AxisLengths at_)) ->
  Strides at_ = suffix_products (AxisLengths at_).
Proof.
  intros Hpos Hint.
  assert (Hz : 0 ∉ AxisLengths at_).
  { intros Hin. rewrite Forall_forall in Hpos. specialize (Hpos 0 Hin). lia. }
  rewrite Strides_suffix_products by exact Hz.
  rewrite <- (list_fmap_id (suffix_products (AxisLengths at_))) at 2.
  apply Forall_fmap_ext_1. eapply Forall_impl; [apply suffix_products_fit; eassumption |].
  simpl. intros p Hp. apply GoIntFacts.wrap_small. int_range. lia.
Qed.

(** X8.  When no axis has length 0, each stride is the product of the
    lengths of the axes after it, taken in [int]; when every length is 1 or
    more and the product of all lengths is an [int], it is that product
    itself, and lies between 1 and [Size()]. *)
Theorem Strides_closed_form (at_ : ArrayType) :
  (0 ∉ AxisLengths at_ ->
   Strides at_ = GoInt.wrap <$> suffix_products (AxisLengths at_))
  /\ (Forall (fun length => 1 <= length) (AxisLengths at_) ->
      GoInt.is_int (product (AxisLengths at_)) ->
      Strides at_ = suffix_products (AxisLengths at_)
      /\ Forall (fun stride => 1 <= stride <= Size at_) (Strides at_)).
Proof.
  split; [apply Strides_suffix_products |].
  intros Hpos Hint.
  pose proof (Strides_fits at_ Hpos Hint) as Heq.
  split; [exact Heq |].
  rewrite Heq, Size_product by exact Hint. apply suffix_products_fit; assumption.
Qed.

Lemma Strides_closed_form_witness :
  Strides {| DType := dtype.Float32; AxisLengths := [2; 3; 4] |}
    = suffix_products [2; 3; 4].
Proof.
  refine (proj1 (proj2 (Strides_closed_form
            {| DType := dtype.Float32; AxisLengths := [2; 3; 4] |}) _ _)).
  - repeat constructor; lia.
  - apply is_int_iff. simpl. lia.
Defined.

(** ** Checks and asserts *)

Lemma CheckAxisLengths_loop_None (at_ : ArrayType) (wanted rest : list Z) : forall ii,
  (ii + length rest)%nat = NumAxes at_ ->
  CheckAxisLengths_loop at_ wanted ii rest = None
  <-> Forall2 length_as_wanted (drop ii (AxisLengths at_)) rest.
Proof.
  unfold NumAxes.
  induction rest as [| want rest IH]; intros ii Hlen; simpl in *.
  - rewrite drop_ge by lia. split; [constructor | reflexivity].
  - rewrite (drop_S (AxisLengths at_) (AxisLengths at_ !!! ii) ii)
      by (apply list_lookup_lookup_total_lt; lia).
    rewrite Forall2_cons, <- IH by lia. unfold length_as_wanted.
    destruct (Z.eqb_spec want (-1)); destruct (Z.eqb_spec (AxisLengths at_ !!! ii) want);
      simpl; split; try tauto; try discriminate; try (intros [[? | ?] _]; congruence).
Qed.

Lemma CheckAxisLengths_loop_Some (at_ : ArrayType) (wanted rest : list Z) : forall ii e,
  CheckAxisLengths_loop at_ wanted ii rest = Some e ->
  exists j wantLength,
    e = ErrIncompatibleAxisLength at_ (ii + j) (AxisLengths at_ !!! (ii + j)%nat)
          wantLength wanted
    /\ rest !! j = Some wantLength
    /\ wantLength <> -1
    /\ AxisLengths at_ !!! (ii + j)%nat <> wantLength
    /\ forall j' w, (j' < j)%nat -> rest !! j' = Some w ->
         length_as_wanted (AxisLengths at_ !!! (ii + j')%nat) w.
Proof.
  induction rest as [| want rest IH]; intros ii e H; simpl in H; [discriminate |].
  destruct (Z.eqb_spec want (-1)) as [Hw | Hw];
    destruct (Z.eqb_spec (AxisLengths at_ !!! ii) want) as [Hl | Hl]; simpl in H.
  1-3: apply IH in H; destruct H as (j & w & -> & Hj & Hw' & Hne & Hbefore);
       exists (S j), w; rewrite <- !Nat.add_succ_comm;
       (split; [reflexivity |]); (split; [exact Hj |]);
       (split; [exact Hw' |]); (split; [exact Hne |]);
       intros [| j'] w' Hlt Hlook; simpl in Hlook;
       [injection Hlook as <-; rewrite Nat.add_0_r; unfold length_as_wanted; tauto
       | rewrite <- Nat.add_succ_comm; apply (Hbefore j' w'); [lia | exact Hlook]].
  injection H as <-. exists 0%nat, want. rewrite Nat.add_0_r.
  repeat split; try assumption. intros j' w Hlt. lia.
Qed.

(** X9.  [CheckAxisLengths] returns no error exactly when as many lengths
    are wanted as there are axes and every axis length is as wanted, -1
    standing for any length; so the own axis lengths and all wildcards
    pass.  With a different number it returns the error for the number of
    axes; otherwise its error names the first axis that is not as wanted.
    [AssertAxisLengths] returns exactly when the check has no error and
    panics with the error of the check otherwise, over anything that has an
    array type. *)
Theorem CheckAxisLengths_iff (at_ : ArrayType) (axisLengths : list Z) :
  (CheckAxisLengths at_ axisLengths = None
   <-> Forall2 length_as_wanted (AxisLengths at_) axisLengths)
  /\ CheckAxisLengths at_ (AxisLengths at_) = None
  /\ CheckAxisLengths at_ (replicate (NumAxes at_) UncheckedAxis) = None
  /\ (NumAxes at_ <> length axisLengths ->
      CheckAxisLengths at_ axisLengths
        = Some (ErrIncompatibleNumAxes at_ (NumAxes at_) (length axisLengths)))
  /\ (forall e,
        NumAxes at_ = length axisLengths ->
        CheckAxisLengths at_ axisLengths = Some e ->
        exists axis wantLength,
          e = ErrIncompatibleAxisLength at_ axis (AxisLengths at_ !!! axis)
                wantLength axisLengths
          /\ axisLengths !! axis = Some wantLength
          /\ ~ length_as_wanted (AxisLengths at_ !!! axis) wantLength
          /\ forall before w, (before < axis)%nat -> axisLengths !! before = Some w ->
               length_as_wanted (AxisLengths at_ !!! before) w)
  /\ (forall (A : Type) (H : HasArrayType A) (hat : A),
        (Has.AssertAxisLengths hat axisLengths = Returns tt
         <-> Has.CheckAxisLengths hat axisLengths = None)
        /\ (forall e, Has.CheckAxisLengths hat axisLengths = Some e ->
              Has.AssertAxisLengths hat axisLengths
                = Panics (PanicAssertAxisLengths axisLengths e))).
Proof.
  assert (Hiff : forall wants,
            CheckAxisLengths at_ wants = None
            <-> Forall2 length_as_wanted (AxisLengths at_) wants).
  { intros wants. unfold CheckAxisLengths.
    destruct (NumAxes at_ =? length wants)%nat eqn:E; simpl.
    - apply Nat.eqb_eq in E.
      rewrite (CheckAxisLengths_loop_None at_ wants wants 0) by (simpl; lia).
      rewrite drop_0. reflexivity.
    - apply Nat.eqb_neq in E. split; [discriminate |].
      intros H. apply Forall2_length in H. unfold NumAxes in E. contradiction. }
  split; [apply Hiff |].
  split.
  { apply Hiff. apply Forall2_same_length_lookup_2; [reflexivity |].
    intros i x y Hx Hy. right. congruence. }
  split.
  { apply Hiff. apply Forall2_same_length_lookup_2.
    - rewrite length_replicate. reflexivity.
    - intros i x y _ Hy. apply lookup_replicate in Hy. left. apply Hy. }
  split.
  { intros Hne. unfold CheckAxisLengths. apply Nat.eqb_neq in Hne. rewrite Hne.
    reflexivity. }
  split.
  { intros e Hlen H. unfold CheckAxisLengths in H.
    apply Nat.eqb_eq in Hlen. rewrite Hlen in H. simpl in H.
    apply CheckAxisLengths_loop_Some in H.
    destruct H as (j & w & -> & Hj & Hw & Hne & Hbefore).
    exists j, w. simpl. repeat split; try assumption.
    unfold length_as_wanted. tauto. }
  intros A H hat. unfold Has.AssertAxisLengths, Has.CheckAxisLengths, AssertAxisLengths.
  destruct (CheckAxisLengths (ArrayType_of hat) axisLengths) as [e |].
  - split; [split; discriminate | intros e' [= <-]; reflexivity].
  - split; [tauto | discriminate].
Qed.

(** X10.  [Check] returns no error exactly when the element kind is the one
    wanted and [CheckAxisLengths] returns none; a wrong element kind is
    reported first, whatever the axis lengths.  [Assert] returns exactly
    when [Check] has no error and panics with its error otherwise. *)
Theorem Check_iff (at_ : ArrayType) (dt : dtype.DType) (axisLengths : list Z) :
  (Check at_ dt axisLengths = None
   <-> dt = DType at_ /\ Forall2 length_as_wanted (AxisLengths at_) axisLengths)
  /\ (dt <> DType at_ ->
      Check at_ dt axisLengths = Some (ErrIncompatibleDType at_ (DType at_) dt))
  /\ (dt = DType at_ -> Check at_ dt axisLengths = CheckAxisLengths at_ axisLengths)
  /\ Check at_ (DType at_) (AxisLengths at_) = None
  /\ (Assert at_ dt axisLengths = Returns tt <-> Check at_ dt axisLengths = None)
  /\ (forall e, Check at_ dt axisLengths = Some e ->
        Assert at_ dt axisLengths = Panics (PanicAssert dt axisLengths e)).
Proof.
  assert (Hsame : forall wants, CheckAxisLengths at_ wants = None
            <-> Forall2 length_as_wanted (AxisLengths at_) wants).
  { intros wants. unfold CheckAxisLengths.
    destruct (NumAxes at_ =? length wants)%nat eqn:E; simpl.
    - apply Nat.eqb_eq in E.
      rewrite (CheckAxisLengths_loop_None at_ wants wants 0) by (simpl; lia).
      rewrite drop_0. reflexivity.
    - apply Nat.eqb_neq in E. split; [discriminate |].
      intros H. apply Forall2_length in H. unfold NumAxes in E. contradiction. }
  unfold Check.
  split.
  { destruct (dtype.eqb dt (DType at_)) eqn:E; simpl.
    - apply dtype_eqb_eq in E. rewrite Hsame. tauto.
    - apply dtype_eqb_neq in E. split; [discriminate | tauto]. }
  split; [intros Hne; apply dtype_eqb_neq in Hne; rewrite Hne; reflexivity |].
  split; [intros ->; rewrite dtype_eqb_refl; reflexivity |].
  split.
  { rewrite dtype_eqb_refl. simpl. apply Hsame.
    apply Forall2_same_length_lookup_2; [reflexivity |].
    intros i x y Hx Hy. right. congruence. }
  unfold Assert, Check.
  destruct (if negb (dtype.eqb dt (DType at_)) then _ else _) as [e |].
  - split; [split; discriminate | intros e' [= <-]; reflexivity].
  - split; [tauto | discriminate].
Qed.

(** X11.  [CheckNumAxes] returns no error exactly when the number of axes
    is the one wanted, and [CheckScalar] exactly when the array type is
    valid and has no axes: an invalid array type without axes passes
    [CheckNumAxes(0)] and [CheckAxisLengths()] and fails [CheckScalar].
    [AssertNumAxes] and [AssertScalar] return exactly when the check has no
    error and panic with its error otherwise. *)
Theorem CheckNumAxes_CheckScalar_iff (at_ : ArrayType) (numAxes : Z) :
  (CheckNumAxes at_ numAxes = None <-> Z.of_nat (NumAxes at_) = numAxes)
  /\ (numAxes < 0 -> exists e, CheckNumAxes at_ numAxes = Some e)
  /\ (CheckScalar at_ = None <-> Ok at_ = true /\ NumAxes at_ = 0%nat)
  /\ (CheckScalar at_ = None -> CheckNumAxes at_ 0 = None)
  /\ (CheckNumAxes at_ 0 = None <-> CheckAxisLengths at_ [] = None)
  /\ (CheckNumAxes Invalid 0 = None /\ CheckAxisLengths Invalid [] = None
      /\ CheckScalar Invalid = Some (ErrNotScalar Invalid))
  /\ (AssertNumAxes at_ numAxes = Returns tt <-> CheckNumAxes at_ numAxes = None)
  /\ (forall e, CheckNumAxes at_ numAxes = Some e ->
        AssertNumAxes at_ numAxes = Panics (PanicAssertNumAxes numAxes e))
  /\ (AssertScalar at_ = Returns tt <-> CheckScalar at_ = None)
  /\ (forall e, CheckScalar at_ = Some e ->
        AssertScalar at_ = Panics (PanicAssertScalar e)).
Proof.
  assert (Hnum : forall n, CheckNumAxes at_ n = None <-> Z.of_nat (NumAxes at_) = n).
  { intros n. unfold CheckNumAxes. destruct (Z.eqb_spec (Z.of_nat (NumAxes at_)) n);
      simpl; split; try tauto; discriminate. }
  assert (Hsc : CheckScalar at_ = None <-> Ok at_ = true /\ NumAxes at_ = 0%nat).
  { unfold CheckScalar, IsScalar. destruct (Ok at_); simpl.
    - destruct (Nat.eqb_spec (NumAxes at_) 0); simpl.
      + tauto.
      + split; [discriminate | intros [_ ?]; contradiction].
    - split; [discriminate | intros [? _]; discriminate]. }
  split; [apply Hnum |].
  split.
  { intros Hneg. unfold CheckNumAxes.
    destruct (Z.eqb_spec (Z.of_nat (NumAxes at_)) numAxes); [lia |].
    eexists. reflexivity. }
  split; [exact Hsc |].
  split; [intros H; apply Hsc in H; apply Hnum; lia |].
  split.
  { rewrite Hnum. unfold CheckAxisLengths. simpl.
    destruct (Nat.eqb_spec (NumAxes at_) 0); simpl; split; try lia; try discriminate;
      reflexivity. }
  split; [repeat split; reflexivity |].
  unfold AssertNumAxes, AssertScalar.
  destruct (CheckNumAxes at_ numAxes) as [e1 |], (CheckScalar at_) as [e2 |];
    repeat split; try tauto; try discriminate; intros e' [= <-]; reflexivity.
Qed.

(** ** Package [axes] *)

(** X12.  [Axes.Known] holds exactly when [Size] of every axis returns no
    error; [Size] returns the size of a known axis and 0 with the error for
    an axis that is not known. *)
Theorem Axes_Known_iff (a : axes.Axes) :
  (axes.Known a = true <-> Forall (fun axis => snd (axes.Size axis) = None) a)
  /\ (axes.Known a = true <-> Forall (fun axis => axes.Axis_Known axis = true) a)
  /\ (forall axis, axis ∈ a ->
        (axes.known axis = true -> axes.Size axis = (axes.size axis, None))
        /\ (axes.known axis = false ->
            axes.Size axis = (0%N, Some axes.ErrSizeUnknown))).
Proof.
  assert (Hsize : forall axis, snd (axes.Size axis) = None <-> axes.known axis = true).
  { intros axis. unfold axes.Size. destruct (axes.known axis); simpl;
      split; try tauto; discriminate. }
  assert (Hknown : axes.Known a = true
                   <-> Forall (fun axis => axes.known axis = true) a).
  { induction a as [| axis rest IH]; simpl.
    - split; [constructor | reflexivity].
    - rewrite Forall_cons. destruct (axes.known axis); simpl.
      + rewrite IH. tauto.
      + split; [discriminate | intros [? _]; discriminate]. }
  split.
  { rewrite Hknown.
    split; intros Hall; (eapply Forall_impl; [exact Hall |]); intros axis; apply Hsize. }
  split; [exact Hknown |].
  intros axis _. unfold axes.Size. split; intros ->; reflexivity.
Qed.

(** ** The names of the element kinds *)

(** X13.  Every element kind has a name in the literal of [MapOfNames],
    and among the names that the literal declares only ["InvalidDType"]
    and ["INVALID"] resolve to [InvalidDType]. *)
Theorem MapOfNames_covers (d : dtype.DType) :
  (exists name, MapOfNames !! name = Some d)
  /\ (forall name, MapOfNames !! name = Some dtype.InvalidDType ->
        name = "InvalidDType"%string \/ name = "INVALID"%string).
Proof.
  split.
  - destruct d;
      [ exists "INVALID"%string | exists "PRED"%string | exists "S8"%string
      | exists "S16"%string | exists "S32"%string | exists "S64"%string
      | exists "U8"%string | exists "U16"%string | exists "U32"%string
      | exists "U64"%string | exists "F16"%string | exists "F32"%string
      | exists "F64"%string | exists "BF16"%string | exists "C64"%string
      | exists "C128"%string | exists "F8E5M2"%string | exists "F8E4M3FN"%string
      | exists "F8E4M3B11FNUZ"%string | exists "F8E5M2FNUZ"%string
      | exists "F8E4M3FNUZ"%string | exists "S4"%string | exists "U4"%string
      | exists "S2"%string | exists "U2"%string | exists "F8E4M3"%string
      | exists "F8E3M4"%string | exists "F8E8M0FNU"%string
      | exists "F4E2M1FN"%string | exists "F6E3M2FN"%string
      | exists "F6E2M3FN"%string ];
      vm_compute; reflexivity.
  - intros name H. unfold MapOfNames in H.
    apply elem_of_list_to_map_2 in H.
    apply list_elem_of_In in H. simpl in H.
    repeat (destruct H as [H | H]; [solve [inversion H; auto] |]).
    contradiction.
Qed.

(** ** What a consumer sees of an iteration *)

Lemma v2_loop_collect_acc (axisLengths : list Z) (fuel : nat) : forall flatIdx indices acc,
  final (v2_loop collect axisLengths fuel flatIdx indices acc)
    = acc ++ final (v2_loop collect axisLengths fuel flatIdx indices []).
Proof.
  induction fuel as [| fuel IH]; intros flatIdx indices acc; simpl.
  - rewrite app_nil_r. reflexivity.
  - destruct (v2_increment _ _ _) as [indices' |]; simpl; [| reflexivity].
    rewrite (IH _ _ (acc ++ _)), (IH _ _ [_]), <- app_assoc. reflexivity.
Qed.

Lemma v3_loop_collect_acc (axisLengths : list Z) (spatialAxes : list nat) (fuel : nat) :
  forall flatIdx indices acc,
  final (v3_loop collect axisLengths spatialAxes fuel flatIdx indices acc)
    = acc ++ final (v3_loop collect axisLengths spatialAxes fuel flatIdx indices []).
Proof.
  induction fuel as [| fuel IH]; intros flatIdx indices acc; simpl.
  - rewrite app_nil_r. reflexivity.
  - destruct (v3_increment _ _ _) as [indices' |]; simpl; [| reflexivity].
    rewrite (IH _ _ (acc ++ _)), (IH _ _ [_]), <- app_assoc. reflexivity.
Qed.

Lemma IterOnAxes_loop_collect_acc (axisLengths strides axesToIterate : list Z)
    (fuel : nat) : forall flatIdx indices acc,
  final (IterOnAxes_loop collect axisLengths strides axesToIterate fuel flatIdx indices acc)
    = acc ++ final (IterOnAxes_loop collect axisLengths strides axesToIterate
                      fuel flatIdx indices []).
Proof.
  induction fuel as [| fuel IH]; intros flatIdx indices acc; simpl.
  - rewrite app_nil_r. reflexivity.
  - destruct (IterOnAxes_increment _ _ _ _ _ _) as [[flatIdx' indices'] |]; simpl;
      [| reflexivity].
    rewrite (IH _ _ (acc ++ _)), (IH _ _ [_]), <- app_assoc. reflexivity.
Qed.

Section AnyConsumer.

Context {S : Type} (yield : S -> Z -> list Z -> S * bool).

Lemma v2_loop_any_consumer (axisLengths : list Z) (fuel : nat) : forall flatIdx indices s,
  final (v2_loop yield axisLengths fuel flatIdx indices s)
    = feed yield s (final (v2_loop collect axisLengths fuel flatIdx indices [])).
Proof.
  induction fuel as [| fuel IH]; intros flatIdx indices s; simpl; [reflexivity |].
  destruct (v2_increment _ _ _) as [indices' |]; simpl.
  - rewrite v2_loop_collect_acc. simpl.
    destruct (yield s flatIdx indices) as [s' []]; simpl; [apply IH | reflexivity].
  - destruct (yield s flatIdx indices) as [s' []]; reflexivity.
Qed.

Lemma v3_loop_any_consumer (axisLengths : list Z) (spatialAxes : list nat) (fuel : nat) :
  forall flatIdx indices s,
  final (v3_loop yield axisLengths spatialAxes fuel flatIdx indices s)
    = feed yield s (final (v3_loop collect axisLengths spatialAxes fuel flatIdx indices [])).
Proof.
  induction fuel as [| fuel IH]; intros flatIdx indices s; simpl; [reflexivity |].
  destruct (v3_increment _ _ _) as [indices' |]; simpl.
  - rewrite v3_loop_collect_acc. simpl.
    destruct (yield s flatIdx indices) as [s' []]; simpl; [apply IH | reflexivity].
  - destruct (yield s flatIdx indices) as [s' []]; reflexivity.
Qed.

Lemma IterOnAxes_loop_any_consumer (axisLengths strides axesToIterate : list Z)
    (fuel : nat) : forall flatIdx indices s,
  final (IterOnAxes_loop yield axisLengths strides axesToIterate fuel flatIdx indices s)
    = feed yield s
        (final (IterOnAxes_loop collect axisLengths strides axesToIterate
                  fuel flatIdx indices [])).
Proof.
  induction fuel as [| fuel IH]; intros flatIdx indices s; simpl; [reflexivity |].
  destruct (IterOnAxes_increment _ _ _ _ _ _) as [[flatIdx' indices'] |]; simpl.
  - rewrite IterOnAxes_loop_collect_acc. simpl.
    destruct (yield s flatIdx indices) as [s' []]; simpl; [apply IH | reflexivity].
  - destruct (yield s flatIdx indices) as [s' []]; reflexivity.
Qed.

Lemma IterOn_seq_any_consumer (at_ : ArrayType) (indices : list Z) (fuel : nat) (s : S) :
  final (IterOn_seq yield at_ indices fuel s)
    = feed yield s (final (IterOn_seq collect at_ indices fuel [])).
Proof.
  unfold IterOn_seq. destruct (negb (Ok at_)); [reflexivity |].
  destruct (NumAxes at_ =? 0)%nat; [symmetry; apply feed_one |].
  destruct (countNonTrivialAxes _ _) as [m |]; [| reflexivity].
  destruct (m =? 0)%nat; [symmetry; apply feed_one |].
  destruct (m + 2 <? NumAxes at_)%nat;
    [apply v2_loop_any_consumer | apply v3_loop_any_consumer].
Qed.

Lemma IterOnAxes_seq_any_consumer (at_ : ArrayType) (axesToIterate strides indices : list Z)
    (fuel : nat) (s : S) :
  final (IterOnAxes_seq yield at_ axesToIterate strides indices fuel s)
    = feed yield s
        (final (IterOnAxes_seq collect at_ axesToIterate strides indices fuel [])).
Proof.
  unfold IterOnAxes_seq. destruct (negb (Ok at_)); [reflexivity |].
  destruct (NumAxes at_ =? 0)%nat; [symmetry; apply feed_one |].
  destruct (IterOnAxes_reset _ _ _ _) as [[indices' |] | e | e]; try reflexivity.
  apply IterOnAxes_loop_any_consumer.
Qed.

End AnyConsumer.

(** X14.  What [Iter], [IterOn] and [IterOnAxes] yield does not depend on
    the consumer: whatever the consumer, the array type, the arguments and
    the bound on the yields, the consumer ends in the state it gets from
    being handed the pairs that a collecting consumer receives, one by one
    up to the first pair at which it asks to stop; after that it is not
    called again. *)
Theorem consumer_sees_collected (at_ : ArrayType) (indices axesToIterate : list Z)
    (strides indicesOrNil : option (list Z))
    (S : Type) (yield : S -> Z -> list Z -> S * bool) (fuel : nat) (s : S) :
  final (range_over (Iter at_) yield fuel s)
    = feed yield s (final (range_over (Iter at_) collect fuel []))
  /\ final (range_over (IterOn at_ indices) yield fuel s)
     = feed yield s (final (range_over (IterOn at_ indices) collect fuel []))
  /\ final (range_over (IterOnAxes at_ axesToIterate strides indicesOrNil) yield fuel s)
     = feed yield s
         (final (range_over (IterOnAxes at_ axesToIterate strides indicesOrNil)
                   collect fuel [])).
Proof.
  assert (HIterOn : forall idx,
            final (range_over (IterOn at_ idx) yield fuel s)
              = feed yield s (final (range_over (IterOn at_ idx) collect fuel []))).
  { intros idx. unfold IterOn. destruct (negb _); simpl; [reflexivity |].
    apply IterOn_seq_any_consumer. }
  split; [apply HIterOn | split; [apply HIterOn |]].
  assert (Hidx : forall st,
            final (range_over (IterOnAxes_indices at_ axesToIterate st indicesOrNil)
                     yield fuel s)
              = feed yield s
                  (final (range_over
                            (IterOnAxes_indices at_ axesToIterate st indicesOrNil)
                            collect fuel []))).
  { intros st. unfold IterOnAxes_indices. destruct indicesOrNil as [given |]; simpl.
    - destruct (negb _); simpl; [reflexivity |]. apply IterOnAxes_seq_any_consumer.
    - apply IterOnAxes_seq_any_consumer. }
  unfold IterOnAxes. destruct strides as [given |]; [| apply Hidx].
  destruct (negb _); [reflexivity | apply Hidx].
Qed.

(** X15.  [IterOn] does not read what the buffer holds: with a buffer of
    the length of the rank it runs as [Iter] does, whatever the buffer's
    contents, and with a buffer of any other length the call panics before
    anything is iterated. *)
Theorem IterOn_buffer (at_ : ArrayType) (indices : list Z)
    (S : Type) (yield : S -> Z -> list Z -> S * bool) (fuel : nat) (s : S) :
  (length indices = NumAxes at_ ->
   range_over (IterOn at_ indices) yield fuel s = range_over (Iter at_) yield fuel s)
  /\ (length indices <> NumAxes at_ ->
      IterOn at_ indices = Panic (ErrIterOnIndicesLen (length indices) (NumAxes at_))
      /\ range_over (IterOn at_ indices) yield fuel s
         = Panicked (ErrIterOnIndicesLen (length indices) (NumAxes at_)) s).
Proof.
  split.
  - intros Hlen. rewrite Iter_IterOn_seq. unfold IterOn.
    rewrite Hlen, Nat.eqb_refl. simpl. unfold IterOn_seq.
    rewrite Hlen, length_replicate.
    destruct (negb (Ok at_)); [reflexivity |].
    destruct (NumAxes at_ =? 0)%nat eqn:E; [| reflexivity].
    apply Nat.eqb_eq in E. rewrite E in *.
    destruct indices; [reflexivity | discriminate].
  - intros Hne. unfold IterOn. apply Nat.eqb_neq in Hne. rewrite Hne.
    split; reflexivity.
Qed.

Lemma IterOn_buffer_witness :
  range_over (IterOn {| DType := dtype.Float64; AxisLengths := [3; 2] |} [7; -5])
    collect 6%nat []
  = range_over (Iter {| DType := dtype.Float64; AxisLengths := [3; 2] |})
      collect 6%nat [].
Proof.
  refine (proj1 (IterOn_buffer {| DType := dtype.Float64; AxisLengths := [3; 2] |}
                   [7; -5] _ collect 6%nat []) _).
  reflexivity.
Defined.

(** X16.  Handing [IterOnAxes] the strides that [Strides] returns changes
    nothing: the iteration is the one with nil strides, for every
    consumer. *)
Theorem IterOnAxes_precomputed_strides (at_ : ArrayType) (axesToIterate : list Z)
    (indices : option (list Z))
    (S : Type) (yield : S -> Z -> list Z -> S * bool) (fuel : nat) (s : S) :
  range_over (IterOnAxes at_ axesToIterate (Some (Strides at_)) indices) yield fuel s
    = range_over (IterOnAxes at_ axesToIterate None indices) yield fuel s.
Proof.
  unfold IterOnAxes. rewrite Strides_length, Nat.eqb_refl. reflexivity.
Qed.

Lemma IterOnAxes_reset_nonpositive (axisLengths : list Z) (numAxes : nat)
    (axesToIterate : list Z) : forall indices,
  Forall (axis_in_range numAxes) axesToIterate ->
  Exists (fun axis => axisLengths !!! Z.to_nat axis <= 0) axesToIterate ->
  IterOnAxes_reset axisLengths numAxes axesToIterate indices = Ok_ None.
Proof.
  induction axesToIterate as [| axis rest IH]; intros indices Hin Hex;
    [inversion Hex |].
  inversion Hin as [| ? ? Haxis Hrest]; subst. unfold axis_in_range in Haxis. simpl.
  destruct (Z.ltb_spec axis 0); [lia |].
  destruct (Z.leb_spec (Z.of_nat numAxes) axis); [lia |]. simpl.
  destruct (Z.leb_spec (axisLengths !!! Z.to_nat axis) 0); [reflexivity |].
  apply IH; [exact Hrest |].
  inversion Hex as [? ? Hx | ? ? Hx]; subst; [lia | exact Hx].
Qed.

(** X17.  When every entry of [axesToIterate] is in range and one of them
    names an axis of length 0 or less, the iteration over a valid array
    type of rank 1 or more ends without a panic and without a call of the
    consumer. *)
Theorem IterOnAxes_nonpositive_axis (at_ : ArrayType) (axesToIterate : list Z)
    (strides indices : list Z) :
  Ok at_ = true -> (1 <= NumAxes at_)%nat ->
  Forall (axis_in_range (NumAxes at_)) axesToIterate ->
  Exists (fun axis => AxisLengths at_ !!! Z.to_nat axis <= 0) axesToIterate ->
  forall (S : Type) (yield : S -> Z -> list Z -> S * bool) (fuel : nat) (s : S),
    IterOnAxes_seq yield at_ axesToIterate strides indices fuel s = Completed s
    /\ range_over (IterOnAxes at_ axesToIterate None None) yield fuel s = Completed s.
Proof.
  intros Hok Hrank Hin Hex S yield fuel s.
  assert (Hseq : forall st idx,
            IterOnAxes_seq yield at_ axesToIterate st idx fuel s = Completed s).
  { intros st idx. unfold IterOnAxes_seq. rewrite Hok. simpl.
    destruct (NumAxes at_ =? 0)%nat eqn:E; [apply Nat.eqb_eq in E; lia |].
    rewrite IterOnAxes_reset_nonpositive by assumption. reflexivity. }
  split; [apply Hseq |]. unfold IterOnAxes, IterOnAxes_indices. simpl. apply Hseq.
Qed.

Lemma IterOnAxes_nonpositive_axis_witness :
  range_over (IterOnAxes {| DType := dtype.Float32; AxisLengths := [2; 0; 4] |}
                [0; 1] None None) collect 5%nat []
  = Completed [].
Proof.
  refine (proj2 (IterOnAxes_nonpositive_axis
            {| DType := dtype.Float32; AxisLengths := [2; 0; 4] |} [0; 1] [] []
            _ _ _ _ _ collect 5%nat [])).
  - reflexivity.
  - unfold NumAxes. simpl. lia.
  - repeat constructor; unfold axis_in_range, NumAxes; simpl; lia.
  - apply Exists_cons_tl, Exists_cons_hd. simpl. lia.
Defined.

(** ** Invariants of partial iteration *)

Lemma untouched_outside_refl (axesToIterate indices : list Z) :
  untouched_outside axesToIterate indices indices.
Proof. split; reflexivity. Qed.

Lemma untouched_outside_trans (axesToIterate a b c : list Z) :
  untouched_outside axesToIterate a b -> untouched_outside axesToIterate b c ->
  untouched_outside axesToIterate a c.
Proof.
  intros [Hl1 H1] [Hl2 H2]. split; [congruence |].
  intros axis Hout. rewrite H2, H1 by assumption. reflexivity.
Qed.

Lemma untouched_outside_insert (axesToIterate indices : list Z) (axis v : Z) :
  axis ∈ axesToIterate -> 0 <= axis ->
  untouched_outside axesToIterate indices (<[Z.to_nat axis := v]> indices).
Proof.
  intros Hin Hpos. split; [apply length_insert |].
  intros j Hout. apply list_lookup_insert_ne.
  intros <-. apply Hout. rewrite Z2Nat.id by lia. exact Hin.
Qed.

Lemma axesToIterate_entry (axesToIterate : list Z) (axisIdx : nat) :
  (axisIdx < length axesToIterate)%nat ->
  axesToIterate !!! axisIdx ∈ axesToIterate.
Proof.
  intros H. apply list_elem_of_lookup. exists axisIdx.
  apply list_lookup_lookup_total_lt. exact H.
Qed.

Lemma IterOnAxes_reset_untouched axisLengths numAxes axesToIterate :
  forall indices indices',
  IterOnAxes_reset axisLengths numAxes axesToIterate indices = Ok_ (Some indices') ->
  untouched_outside axesToIterate indices indices'.
Proof.
  induction axesToIterate as [| axis rest IH]; intros indices indices' H; simpl in H.
  - injection H as <-. apply untouched_outside_refl.
  - destruct (Z.ltb_spec axis 0); [discriminate |].
    destruct (Z.leb_spec (Z.of_nat numAxes) axis); [discriminate |]. simpl in H.
    destruct (axisLengths !!! Z.to_nat axis <=? 0); [discriminate |].
    apply IH in H. destruct H as [Hlen Hout]. rewrite length_insert in Hlen.
    split; [exact Hlen |]. intros j Hj.
    apply not_elem_of_cons in Hj. destruct Hj as [Hne Hrest].
    rewrite Hout by exact Hrest. apply list_lookup_insert_ne. lia.
Qed.

Lemma IterOnAxes_increment_untouched axisLengths strides axesToIterate (n : nat) :
  forall flatIdx indices flatIdx' indices',
  Forall (axis_in_range (length indices)) axesToIterate ->
  (n <= length axesToIterate)%nat ->
  IterOnAxes_increment axisLengths strides axesToIterate n flatIdx indices
    = Some (flatIdx', indices') ->
  untouched_outside axesToIterate indices indices'.
Proof.
  induction n as [| axisIdx IH]; intros flatIdx indices flatIdx' indices'
    Haxes Hn Hstep; simpl in Hstep; [discriminate |].
  assert (Hin : axesToIterate !!! axisIdx ∈ axesToIterate)
    by (apply axesToIterate_entry; lia).
  assert (Hrange : 0 <= axesToIterate !!! axisIdx).
  { rewrite Forall_forall in Haxes. apply Haxes in Hin.
    unfold axis_in_range in Hin. lia. }
  set (axis := Z.to_nat (axesToIterate !!! axisIdx)) in *.
  set (indices1 := <[axis := GoInt.add (indices !!! axis) 1]> indices) in *.
  assert (H1 : untouched_outside axesToIterate indices indices1)
    by (apply untouched_outside_insert; assumption).
  destruct (indices1 !!! axis <? axisLengths !!! axis).
  - injection Hstep as <- <-. exact H1.
  - apply IH in Hstep.
    + eapply untouched_outside_trans; [exact H1 |].
      eapply untouched_outside_trans; [| exact Hstep].
      apply untouched_outside_insert; assumption.
    + rewrite length_insert. unfold indices1. rewrite length_insert. exact Haxes.
    + lia.
Qed.

Lemma IterOnAxes_loop_invariant (P : list Z -> Prop)
    axisLengths strides axesToIterate (fuel : nat) :
  (forall flatIdx indices flatIdx' indices',
     P indices ->
     IterOnAxes_increment axisLengths strides axesToIterate
       (length axesToIterate) flatIdx indices = Some (flatIdx', indices') ->
     P indices') ->
  forall flatIdx indices acc,
  P indices ->
  Forall (fun pair => P pair.2) acc ->
  Forall (fun pair => P pair.2)
    (final (IterOnAxes_loop collect axisLengths strides axesToIterate
              fuel flatIdx indices acc)).
Proof.
  intros Hstep. induction fuel as [| fuel IH]; intros flatIdx indices acc HP Hacc;
    simpl; [exact Hacc |].
  assert (Hacc' : Forall (fun pair => P pair.2) (acc ++ [(flatIdx, indices)])).
  { apply Forall_app. split; [exact Hacc |]. constructor; [exact HP | constructor]. }
  destruct (IterOnAxes_increment axisLengths strides axesToIterate
              (length axesToIterate) flatIdx indices)
    as [[flatIdx' indices'] |] eqn:Hnext; [| exact Hacc'].
  apply IH; [| exact Hacc']. eapply Hstep; eassumption.
Qed.

Lemma IterOnAxes_seq_untouched at_ axesToIterate strides indices fuel :
  length indices = NumAxes at_ ->
  Forall (fun pair => untouched_outside axesToIterate indices pair.2)
    (final (IterOnAxes_seq collect at_ axesToIterate strides indices fuel [])).
Proof.
  intros Hi. unfold IterOnAxes_seq.
  destruct (negb (Ok at_)); [constructor |].
  destruct (NumAxes at_ =? 0)%nat.
  - simpl. constructor; [apply untouched_outside_refl | constructor].
  - destruct (IterOnAxes_reset _ _ _ _) as [[indices' |] | e | e] eqn:Hreset;
      try (simpl; constructor).
    pose proof (IterOnAxes_reset_ok _ _ _ _ _ Hreset) as [Haxes Hlen].
    apply IterOnAxes_reset_untouched in Hreset.
    apply (IterOnAxes_loop_invariant
             (fun c => untouched_outside axesToIterate indices c)).
    + intros flatIdx c flatIdx' c' Hc Hstep.
      eapply untouched_outside_trans; [exact Hc |].
      eapply IterOnAxes_increment_untouched; [| | exact Hstep]; [| lia].
      destruct Hc as [Hc _]. rewrite Hc, Hi. exact Haxes.
    + exact Hreset.
    + constructor.
Qed.

(** X18.  [IterOnAxes] leaves the axes it does not iterate alone: every
    coordinate vector it yields has the length of the slice the iteration
    started from (the caller's [indices], or zeros for nil) and agrees with
    it at every axis that is not an entry of [axesToIterate].  This holds
    for every array type and all arguments, also those that make the call
    panic. *)
Theorem IterOnAxes_fixed_axes_untouched (at_ : ArrayType) (axesToIterate : list Z)
    (strides indices : option (list Z)) (fuel : nat) :
  Forall (fun pair =>
            untouched_outside axesToIterate (IterOnAxes_start at_ indices) pair.2)
    (final (range_over (IterOnAxes at_ axesToIterate strides indices) collect fuel [])).
Proof.
  assert (Hidx : forall st,
            Forall (fun pair =>
                      untouched_outside axesToIterate (IterOnAxes_start at_ indices)
                        pair.2)
              (final (range_over (IterOnAxes_indices at_ axesToIterate st indices)
                        collect fuel []))).
  { intros st. unfold IterOnAxes_indices. destruct indices as [given |]; simpl.
    - destruct (length given =? NumAxes at_)%nat eqn:E; simpl; [| constructor].
      apply Nat.eqb_eq in E. apply IterOnAxes_seq_untouched. exact E.
    - apply IterOnAxes_seq_untouched. apply length_replicate. }
  unfold IterOnAxes. destruct strides as [given |]; [| apply Hidx].
  destruct (negb _); [constructor | apply Hidx].
Qed.

Lemma axisLength_le_maxInt (axisLengths : list Z) (axis : nat) :
  Forall GoInt.is_int axisLengths -> axisLengths !!! axis <= GoInt.maxInt.
Proof.
  intros Hall. destruct (axisLengths !! axis) as [v |] eqn:E.
  - rewrite (list_lookup_total_correct _ _ _ E).
    rewrite Forall_forall in Hall.
    assert (Hv : GoInt.is_int v) by (apply Hall; eapply list_elem_of_lookup_2; exact E).
    int_range. lia.
  - rewrite list_lookup_total_alt, E. simpl. rewrite maxInt_eq. lia.
Qed.

Lemma iterated_in_range_insert axisLengths axesToIterate indices (axis : nat) (v : Z) :
  (axis < length indices)%nat ->
  iterated_in_range axisLengths axesToIterate indices ->
  0 <= v < axisLengths !!! axis ->
  iterated_in_range axisLengths axesToIterate (<[axis := v]> indices).
Proof.
  intros Hlt Hinv Hv a Ha Hr.
  destruct (decide (Z.to_nat a = axis)) as [-> | Hne].
  - rewrite list_lookup_total_insert_eq by exact Hlt. exact Hv.
  - rewrite list_lookup_total_insert_ne by congruence. apply Hinv; assumption.
Qed.

Lemma IterOnAxes_increment_in_range axisLengths strides axesToIterate (n : nat) :
  Forall GoInt.is_int axisLengths ->
  forall flatIdx indices flatIdx' indices',
  length indices = length axisLengths ->
  Forall (axis_in_range (length indices)) axesToIterate ->
  (n <= length axesToIterate)%nat ->
  iterated_in_range axisLengths axesToIterate indices ->
  IterOnAxes_increment axisLengths strides axesToIterate n flatIdx indices
    = Some (flatIdx', indices') ->
  iterated_in_range axisLengths axesToIterate indices'.
Proof.
  intros Hint.
  induction n as [| axisIdx IH]; intros flatIdx indices flatIdx' indices'
    Hlen Haxes Hn Hinv Hstep; simpl in Hstep; [discriminate |].
  assert (Hin : axesToIterate !!! axisIdx ∈ axesToIterate)
    by (apply axesToIterate_entry; lia).
  assert (Hrange : 0 <= axesToIterate !!! axisIdx < Z.of_nat (length indices)).
  { rewrite Forall_forall in Haxes. apply Haxes in Hin. exact Hin. }
  assert (Hcur := Hinv _ Hin). rewrite <- Hlen in Hcur. specialize (Hcur Hrange).
  set (axis := Z.to_nat (axesToIterate !!! axisIdx)) in *.
  assert (Haxis : (axis < length indices)%nat) by (subst axis; lia).
  pose proof (axisLength_le_maxInt axisLengths axis Hint) as Hmax.
  assert (Hadd : GoInt.add (indices !!! axis) 1 = indices !!! axis + 1).
  { unfold GoInt.add. apply GoIntFacts.wrap_small. int_range. lia. }
  rewrite Hadd in Hstep.
  set (indices1 := <[axis := indices !!! axis + 1]> indices) in *.
  assert (Hval : indices1 !!! axis = indices !!! axis + 1)
    by (apply list_lookup_total_insert_eq; exact Haxis).
  rewrite Hval in Hstep.
  destruct (Z.ltb_spec (indices !!! axis + 1) (axisLengths !!! axis)).
  - injection Hstep as <- <-.
    apply iterated_in_range_insert; [exact Haxis | exact Hinv | lia].
  - apply IH in Hstep; [exact Hstep | | | lia |].
    + rewrite length_insert. unfold indices1. rewrite length_insert. exact Hlen.
    + rewrite length_insert. unfold indices1. rewrite length_insert. exact Haxes.
    + unfold indices1. rewrite list_insert_insert_eq.
      apply iterated_in_range_insert; [exact Haxis | exact Hinv | lia].
Qed.

Lemma IterOnAxes_reset_zero axisLengths numAxes axesToIterate :
  forall indices indices',
  length indices = numAxes ->
  IterOnAxes_reset axisLengths numAxes axesToIterate indices = Ok_ (Some indices') ->
  forall axis, axis ∈ axesToIterate ->
    indices' !!! Z.to_nat axis = 0 /\ 0 < axisLengths !!! Z.to_nat axis.
Proof.
  induction axesToIterate as [| a rest IH]; intros indices indices' Hlen H axis Hin;
    [inversion Hin |]. simpl in H.
  destruct (Z.ltb_spec a 0); [discriminate |].
  destruct (Z.leb_spec (Z.of_nat numAxes) a); [discriminate |]. simpl in H.
  destruct (Z.leb_spec (axisLengths !!! Z.to_nat a) 0); [discriminate |].
  destruct (decide (axis ∈ rest)) as [Hrest | Hrest].
  - eapply IH; [| exact H | exact Hrest]. rewrite length_insert. exact Hlen.
  - apply elem_of_cons in Hin. destruct Hin as [-> | Hin]; [| contradiction].
    split; [| assumption].
    apply IterOnAxes_reset_untouched in H. destruct H as [_ Hout].
    apply list_lookup_total_correct. rewrite Hout.
    + apply list_lookup_insert_eq. lia.
    + rewrite Z2Nat.id by lia. exact Hrest.
Qed.

Lemma IterOnAxes_seq_in_range at_ axesToIterate strides indices fuel :
  Forall GoInt.is_int (AxisLengths at_) ->
  length indices = NumAxes at_ ->
  Forall (fun pair => iterated_in_range (AxisLengths at_) axesToIterate pair.2)
    (final (IterOnAxes_seq collect at_ axesToIterate strides indices fuel [])).
Proof.
  intros Hint Hi. unfold IterOnAxes_seq.
  destruct (negb (Ok at_)); [constructor |].
  destruct (NumAxes at_ =? 0)%nat eqn:E.
  - simpl. constructor; [| constructor]. simpl. intros axis _ Hr.
    apply Nat.eqb_eq in E. unfold NumAxes in E. lia.
  - destruct (IterOnAxes_reset _ _ _ _) as [[indices' |] | e | e] eqn:Hreset;
      try (simpl; constructor).
    pose proof (IterOnAxes_reset_ok _ _ _ _ _ Hreset) as [Haxes Hlen].
    pose proof (IterOnAxes_reset_zero _ _ _ _ _ Hi Hreset) as Hzero.
    eapply Forall_impl;
      [apply (IterOnAxes_loop_invariant
                (fun c => length c = NumAxes at_
                          /\ iterated_in_range (AxisLengths at_) axesToIterate c))
      | intros pair [_ H]; exact H].
    + intros flatIdx c flatIdx' c' [Hc Hinv] Hstep. split.
      * apply IterOnAxes_increment_untouched in Hstep; [| | lia].
        -- destruct Hstep as [Hl _]. congruence.
        -- rewrite Hc. exact Haxes.
      * eapply IterOnAxes_increment_in_range;
          [exact Hint | | | | exact Hinv | exact Hstep]; [exact Hc | | lia].
        rewrite Hc. exact Haxes.
    + split; [congruence |]. intros axis Hin _.
      destruct (Hzero _ Hin) as [-> Hpos]. lia.
    + constructor.
Qed.

(** X19.  When the axis lengths are values of [int], every coordinate
    vector that [IterOnAxes] yields has, at each entry of [axesToIterate]
    that names an axis, a coordinate from 0 up to, not including, the
    length of that axis: the increment never leaves a coordinate at the
    length of its axis, and the reset puts it at 0. *)
Theorem IterOnAxes_coordinates_in_range (at_ : ArrayType) (axesToIterate : list Z)
    (strides indices : option (list Z)) (fuel : nat) :
  Forall GoInt.is_int (AxisLengths at_) ->
  Forall (fun pair => iterated_in_range (AxisLengths at_) axesToIterate pair.2)
    (final (range_over (IterOnAxes at_ axesToIterate strides indices) collect fuel [])).
Proof.
  intros Hint.
  assert (Hidx : forall st,
            Forall (fun pair =>
                      iterated_in_range (AxisLengths at_) axesToIterate pair.2)
              (final (range_over (IterOnAxes_indices at_ axesToIterate st indices)
                        collect fuel []))).
  { intros st. unfold IterOnAxes_indices. destruct indices as [given |]; simpl.
    - destruct (length given =? NumAxes at_)%nat eqn:E; simpl; [| constructor].
      apply Nat.eqb_eq in E. apply IterOnAxes_seq_in_range; assumption.
    - apply IterOnAxes_seq_in_range; [assumption | apply length_replicate]. }
  unfold IterOnAxes. destruct strides as [given |]; [| apply Hidx].
  destruct (negb _); [constructor | apply Hidx].
Qed.

Lemma IterOnAxes_coordinates_in_range_witness :
  Forall (fun pair => iterated_in_range [2; 3; 4] [2; 0] pair.2)
    (final (range_over
              (IterOnAxes {| DType := dtype.Int32; AxisLengths := [2; 3; 4] |}
                 [2; 0] None (Some [9; 1; 9])) collect 20%nat [])).
Proof.
  apply (IterOnAxes_coordinates_in_range
           {| DType := dtype.Int32; AxisLengths := [2; 3; 4] |}
           [2; 0] None (Some [9; 1; 9]) 20%nat).
  simpl. repeat constructor; int_range; lia.
Defined.

Lemma IterOnAxes_increment_repeated axisLengths strides axesToIterate
    (first : nat) (axis : Z) :
  Forall GoInt.is_int axisLengths ->
  axesToIterate !! first = Some axis ->
  2 <= axisLengths !!! Z.to_nat axis ->
  forall (n : nat) flatIdx indices,
  (first < n <= length axesToIterate)%nat ->
  length indices = length axisLengths ->
  Forall (axis_in_range (length indices)) axesToIterate ->
  iterated_in_range axisLengths axesToIterate indices ->
  (indices !!! Z.to_nat axis = 0
   \/ exists j : nat, (first < j < n)%nat /\ axesToIterate !! j = Some axis) ->
  IterOnAxes_increment axisLengths strides axesToIterate n flatIdx indices <> None.
Proof.
  intros Hint Hfirst Htwo.
  induction n as [| axisIdx IH]; intros flatIdx indices Hn Hlen Haxes Hinv Hrep;
    [lia |]. simpl.
  assert (Hin : axesToIterate !!! axisIdx ∈ axesToIterate)
    by (apply axesToIterate_entry; lia).
  assert (Hentry : axesToIterate !! axisIdx = Some (axesToIterate !!! axisIdx))
    by (apply list_lookup_lookup_total_lt; lia).
  assert (Hrange : 0 <= axesToIterate !!! axisIdx < Z.of_nat (length indices)).
  { rewrite Forall_forall in Haxes. apply Haxes in Hin. exact Hin. }
  assert (Hcur := Hinv _ Hin). rewrite <- Hlen in Hcur. specialize (Hcur Hrange).
  set (b := axesToIterate !!! axisIdx) in *.
  assert (Haxis : (Z.to_nat b < length indices)%nat) by lia.
  pose proof (axisLength_le_maxInt axisLengths (Z.to_nat b) Hint) as Hmax.
  assert (Hadd : GoInt.add (indices !!! Z.to_nat b) 1 = indices !!! Z.to_nat b + 1).
  { unfold GoInt.add. apply GoIntFacts.wrap_small. int_range. lia. }
  rewrite Hadd, list_lookup_total_insert_eq by exact Haxis.
  destruct (Z.ltb_spec (indices !!! Z.to_nat b + 1) (axisLengths !!! Z.to_nat b));
    [discriminate |].
  rewrite list_insert_insert_eq.
  assert (Hne : axisIdx <> first).
  { intros ->. rewrite Hfirst in Hentry. injection Hentry as Hentry.
    rewrite <- Hentry in *.
    destruct Hrep as [Hzero | (j & Hj & _)]; lia. }
  apply IH.
  - lia.
  - rewrite length_insert. exact Hlen.
  - rewrite length_insert. exact Haxes.
  - apply iterated_in_range_insert; [exact Haxis | exact Hinv | lia].
  - destruct (decide (Z.to_nat b = Z.to_nat axis)) as [Heq | Hdiff].
    + left. rewrite <- Heq. apply list_lookup_total_insert_eq. exact Haxis.
    + rewrite list_lookup_total_insert_ne by exact Hdiff.
      destruct Hrep as [Hzero | (j & Hj & Hat)]; [left; exact Hzero | right].
      exists j. split; [| exact Hat].
      assert (j <> axisIdx); [| lia].
      intros ->. rewrite Hat in Hentry. injection Hentry as Hentry. congruence.
Qed.

Lemma IterOnAxes_loop_repeated axisLengths strides axesToIterate
    (first second : nat) (axis : Z) :
  Forall GoInt.is_int axisLengths ->
  axesToIterate !! first = Some axis -> axesToIterate !! second = Some axis ->
  (first < second)%nat ->
  2 <= axisLengths !!! Z.to_nat axis ->
  Forall (axis_in_range (length axisLengths)) axesToIterate ->
  forall (fuel : nat) flatIdx indices acc,
  length indices = length axisLengths ->
  iterated_in_range axisLengths axesToIterate indices ->
  exists pairs,
    IterOnAxes_loop collect axisLengths strides axesToIterate fuel flatIdx indices acc
      = OutOfFuel pairs
    /\ length pairs = (length acc + fuel)%nat.
Proof.
  intros Hint Hfirst Hsecond Hlt Htwo Haxes.
  assert (Hsec : (second < length axesToIterate)%nat)
    by (eapply lookup_lt_Some; exact Hsecond).
  induction fuel as [| fuel IH]; intros flatIdx indices acc Hlen Hinv; simpl.
  - exists acc. split; [reflexivity | lia].
  - destruct (IterOnAxes_increment axisLengths strides axesToIterate
                (length axesToIterate) flatIdx indices)
      as [[flatIdx' indices'] |] eqn:Hstep.
    + destruct (IH flatIdx' indices' (acc ++ [(flatIdx, indices)])) as (pairs & -> & Hp).
      * apply IterOnAxes_increment_untouched in Hstep; [| | lia].
        -- destruct Hstep as [Hl _]. congruence.
        -- rewrite Hlen. exact Haxes.
      * eapply IterOnAxes_increment_in_range;
          [exact Hint | exact Hlen | | | exact Hinv | exact Hstep]; [| lia].
        rewrite Hlen. exact Haxes.
      * exists pairs. split; [reflexivity |].
        rewrite Hp, length_app. simpl. lia.
    + exfalso. revert Hstep.
      apply (IterOnAxes_increment_repeated axisLengths strides axesToIterate
               first axis Hint Hfirst Htwo).
      * lia.
      * exact Hlen.
      * rewrite Hlen. exact Haxes.
      * exact Hinv.
      * right. exists second. split; [lia | exact Hsecond].
Qed.

Lemma IterOnAxes_reset_succeeds axisLengths numAxes axesToIterate : forall indices,
  Forall (fun a => axis_in_range numAxes a /\ 0 < axisLengths !!! Z.to_nat a)
    axesToIterate ->
  exists indices',
    IterOnAxes_reset axisLengths numAxes axesToIterate indices = Ok_ (Some indices').
Proof.
  induction axesToIterate as [| a rest IH]; intros indices Hall; simpl.
  - exists indices. reflexivity.
  - inversion Hall as [| ? ? [Ha Hpos] Hrest]; subst. unfold axis_in_range in Ha.
    destruct (Z.ltb_spec a 0); [lia |].
    destruct (Z.leb_spec (Z.of_nat numAxes) a); [lia |]. simpl.
    destruct (Z.leb_spec (axisLengths !!! Z.to_nat a) 0); [lia |].
    apply IH, Hrest.
Qed.

(** X20.  [IterOnAxes] does not reject an axis listed twice, and with one
    its loop has no last coordinate vector: over a valid array type whose
    axis lengths are values of [int], when every entry of [axesToIterate]
    names an axis of positive length and two of its entries name the same
    axis, of length 2 or more, a call that does not panic on its arguments
    yields to a consumer that never stops as many pairs as the bound
    allows, whatever the bound. *)
Theorem IterOnAxes_repeated_axis_never_ends (at_ : ArrayType) (axesToIterate : list Z)
    (first second : nat) (axis : Z) (strides indices : option (list Z)) (seq : Seq2) :
  Ok at_ = true ->
  Forall GoInt.is_int (AxisLengths at_) ->
  Forall (fun a => axis_in_range (NumAxes at_) a /\ 0 < AxisLengths at_ !!! Z.to_nat a)
    axesToIterate ->
  axesToIterate !! first = Some axis -> axesToIterate !! second = Some axis ->
  first <> second ->
  2 <= AxisLengths at_ !!! Z.to_nat axis ->
  IterOnAxes at_ axesToIterate strides indices = Ok_ seq ->
  forall fuel : nat, exists pairs,
    seq _ collect fuel [] = OutOfFuel pairs /\ length pairs = fuel.
Proof.
  intros Hok Hint Hall Hfirst Hsecond Hne Htwo Hcall fuel.
  assert (Haxes : Forall (axis_in_range (NumAxes at_)) axesToIterate).
  { eapply Forall_impl; [exact Hall |]. intros a [H _]. exact H. }
  assert (Hrank : NumAxes at_ <> 0%nat).
  { apply lookup_lt_Some in Hfirst as Hl.
    destruct axesToIterate as [| a rest]; [simpl in Hl; lia |].
    inversion Haxes as [| ? ? Ha _]; subst. unfold axis_in_range in Ha. lia. }
  assert (Hseq : forall st idx, length idx = NumAxes at_ ->
            exists pairs,
              IterOnAxes_seq collect at_ axesToIterate st idx fuel [] = OutOfFuel pairs
              /\ length pairs = fuel).
  { intros st idx Hidx. unfold IterOnAxes_seq. rewrite Hok. simpl.
    apply Nat.eqb_neq in Hrank. rewrite Hrank.
    destruct (IterOnAxes_reset_succeeds (AxisLengths at_) (NumAxes at_) axesToIterate
                idx Hall) as [idx' Hreset].
    rewrite Hreset.
    pose proof (IterOnAxes_reset_ok _ _ _ _ _ Hreset) as [_ Hlen].
    pose proof (IterOnAxes_reset_zero _ _ _ _ _ Hidx Hreset) as Hzero.
    assert (Hloop : forall i j, (i < j)%nat ->
              axesToIterate !! i = Some axis -> axesToIterate !! j = Some axis ->
              exists pairs,
                IterOnAxes_loop collect (AxisLengths at_) st axesToIterate fuel
                  (initialFlatIdx (NumAxes at_) idx' st) idx' [] = OutOfFuel pairs
                /\ length pairs = (length (@nil (Z * list Z)) + fuel)%nat).
    { intros i j Hij Hi Hj.
      apply (IterOnAxes_loop_repeated _ _ _ i j axis Hint Hi Hj Hij Htwo Haxes).
      - unfold NumAxes in Hlen, Hidx. congruence.
      - intros a Hin _. destruct (Hzero _ Hin) as [-> Hpos]. lia. }
    destruct (Nat.lt_total first second) as [Hlt | [Heq | Hgt]]; [| contradiction |].
    - exact (Hloop _ _ Hlt Hfirst Hsecond).
    - exact (Hloop _ _ Hgt Hsecond Hfirst). }
  assert (Hidx : forall st,
            IterOnAxes_indices at_ axesToIterate st indices = Ok_ seq ->
            exists pairs, seq _ collect fuel [] = OutOfFuel pairs /\ length pairs = fuel).
  { intros st H. unfold IterOnAxes_indices in H. destruct indices as [given |].
    - destruct (length given =? NumAxes at_)%nat eqn:E; simpl in H; [| discriminate].
      apply Nat.eqb_eq in E. injection H as <-. apply Hseq, E.
    - injection H as <-. apply Hseq, length_replicate. }
  unfold IterOnAxes in Hcall. destruct strides as [given |]; [| apply (Hidx _ Hcall)].
  destruct (negb _); [discriminate | apply (Hidx _ Hcall)].
Qed.

Lemma IterOnAxes_repeated_axis_never_ends_witness :
  exists pairs,
    range_over (IterOnAxes {| DType := dtype.Float32; AxisLengths := [2; 3] |}
                  [1; 0; 1] None None) collect 50%nat []
      = OutOfFuel pairs
    /\ length pairs = 50%nat.
Proof.
  apply (IterOnAxes_repeated_axis_never_ends
           {| DType := dtype.Float32; AxisLengths := [2; 3] |} [1; 0; 1]
           0%nat 2%nat 1 None None
           (fun S yield =>
              IterOnAxes_seq yield {| DType := dtype.Float32; AxisLengths := [2; 3] |}
                [1; 0; 1] (Strides {| DType := dtype.Float32; AxisLengths := [2; 3] |})
                (replicate 2 0))).
  - reflexivity.
  - simpl. repeat constructor; int_range; lia.
  - repeat constructor; unfold axis_in_range, NumAxes; simpl; lia.
  - reflexivity.
  - reflexivity.
  - lia.
  - simpl. lia.
  - reflexivity.
Defined.

(** ** Full iteration, the strides and partial iteration over every axis *)

Lemma numbered_nil (flatIdx : Z) : numbered flatIdx [] = [].
Proof. reflexivity. Qed.

Lemma numbered_app (l1 l2 : list (list Z)) : forall flatIdx,
  numbered flatIdx (l1 ++ l2)
    = numbered flatIdx l1 ++ numbered (flatIdx + Z.of_nat (length l1)) l2.
Proof.
  induction l1 as [| c l1 IH]; intros flatIdx.
  - change (numbered flatIdx []) with (@nil (Z * list Z)). simpl. f_equal. lia.
  - rewrite <- app_comm_cons, !numbered_cons, IH. simpl app. do 3 f_equal.
    simpl length. lia.
Qed.

Lemma numbered_fmap_cons (i : Z) (l : list (list Z)) : forall flatIdx,
  numbered flatIdx (cons i <$> l) = (fun p => (p.1, i :: p.2)) <$> numbered flatIdx l.
Proof.
  induction l as [| c l IH]; intros flatIdx; [reflexivity |].
  rewrite fmap_cons, !numbered_cons, fmap_cons, IH. reflexivity.
Qed.

Lemma numbered_dot (axisLengths : list Z) :
  Forall (fun length => 0 <= length) axisLengths ->
  forall base,
    Forall (fun p => p.1 = base + dot p.2 (suffix_products axisLengths))
      (numbered base (row_major axisLengths)).
Proof.
  induction 1 as [| n rest Hn Hrest IH]; intros base.
  - simpl. rewrite numbered_cons, numbered_nil. constructor; [simpl; lia | constructor].
  - simpl row_major. simpl suffix_products.
    assert (Hblocks : forall (m : nat) i0 base',
              base' = base + i0 * product rest ->
              Forall (fun p => p.1 = base + dot p.2 (product rest :: suffix_products rest))
                (numbered base'
                   (seqZ i0 (Z.of_nat m) ≫= fun i => cons i <$> row_major rest))).
    { induction m as [| m IHm]; intros i0 base' Hbase.
      - simpl. rewrite numbered_nil. constructor.
      - rewrite seqZ_cons by lia. rewrite bind_cons, numbered_app. apply Forall_app. split.
        + rewrite numbered_fmap_cons. apply Forall_fmap.
          eapply Forall_impl; [apply (IH base') |].
          intros [f c] Hp. simpl in *. lia.
        + replace (Z.pred (Z.of_nat (S m))) with (Z.of_nat m) by lia.
          apply IHm. rewrite length_fmap, (row_major_length rest Hrest). lia. }
    rewrite <- (Z2Nat.id n) by exact Hn. apply Hblocks. lia.
Qed.

Lemma v2_increment_ones (axisLengths : list Z) (indices : list Z) :
  Forall (fun length => length = 1) axisLengths ->
  forall n : nat, (n <= length axisLengths)%nat ->
  v2_increment axisLengths n indices = None.
Proof.
  intros Hones. induction n as [| axis IH]; intros Hn; [reflexivity |]. simpl.
  assert (Hone : axisLengths !!! axis = 1).
  { rewrite Forall_forall in Hones. apply Hones.
    apply list_elem_of_lookup. exists axis. apply list_lookup_lookup_total_lt. lia. }
  rewrite Hone. simpl. apply IH. lia.
Qed.

(** Over axis lengths of 1 or more, full iteration is the loop of version
    2 from the zero coordinates, once at least one yield is allowed. *)
Lemma IterOn_seq_v2 {S : Type} (yield : S -> Z -> list Z -> S * bool)
    (at_ : ArrayType) (indices : list Z) (fuel : nat) (s : S) :
  Ok at_ = true ->
  Forall (fun length => 1 <= length) (AxisLengths at_) ->
  NumAxes at_ <> 0%nat -> length indices = NumAxes at_ -> (1 <= fuel)%nat ->
  IterOn_seq yield at_ indices fuel s
    = v2_loop yield (AxisLengths at_) fuel 0 (replicate (NumAxes at_) 0) s.
Proof.
  intros Hok Hpos Hrank Hidx Hfuel. unfold IterOn_seq. rewrite Hok. simpl.
  apply Nat.eqb_neq in Hrank. rewrite Hrank, Hidx.
  destruct (countNonTrivialAxes_positive (AxisLengths at_) 0 Hpos)
    as (m & Hm & _ & _ & Hones).
  rewrite Hm. destruct (m =? 0)%nat eqn:E0.
  - apply Nat.eqb_eq in E0. destruct fuel as [| fuel]; [lia |]. simpl.
    destruct (yield s 0 (replicate (NumAxes at_) 0)) as [s' continue].
    destruct continue; simpl; [| reflexivity].
    rewrite v2_increment_ones by auto. reflexivity.
  - destruct (m + 2 <? NumAxes at_)%nat; [reflexivity |].
    symmetry. apply v2_loop_v3, Hpos.
Qed.

(** What the loops need of the coordinate vectors still to come:
    [c :: rest] is a run of the reference enumeration, numbered from
    [flatIdx], whose numbers are the dot products with [strides]. *)
Lemma row_major_run (at_ : ArrayType) :
  Forall (fun length => 1 <= length) (AxisLengths at_) ->
  GoInt.is_int (product (AxisLengths at_)) ->
  exists rest,
    row_major (AxisLengths at_) = replicate (NumAxes at_) 0 :: rest
    /\ successive (v2_increment (AxisLengths at_) (NumAxes at_))
         (replicate (NumAxes at_) 0 :: rest)
    /\ Forall (fun c => Forall2 (fun i length => 0 <= i < length) c (AxisLengths at_))
         (replicate (NumAxes at_) 0 :: rest)
    /\ Forall (fun p => p.1 = dot p.2 (Strides at_))
         (numbered 0 (replicate (NumAxes at_) 0 :: rest))
    /\ 0 + Z.of_nat (length rest) <= GoInt.maxInt.
Proof.
  intros Hpos Hint.
  assert (Hpos0 : Forall (fun length => 0 <= length) (AxisLengths at_)).
  { eapply Forall_impl; [exact Hpos |]. simpl. intros; lia. }
  destruct (row_major_head _ Hpos) as [rest Hrest]. exists rest.
  fold (NumAxes at_) in Hrest. rewrite <- Hrest.
  split; [reflexivity |]. split; [| split; [| split]].
  - apply row_major_successive. destruct (product_bounds _ Hpos) as [_ Hle].
    rewrite Forall_forall in *. intros x Hx.
    specialize (Hpos x Hx). specialize (Hle x Hx). int_range. lia.
  - apply Forall_forall. intros c Hc. apply row_major_elem, Hc.
  - rewrite Strides_fits by assumption.
    eapply Forall_impl; [apply (numbered_dot _ Hpos0 0) |]. simpl. intros p Hp. lia.
  - pose proof (row_major_length _ Hpos0) as Hlen. rewrite Hrest in Hlen.
    simpl length in Hlen. int_range. lia.
Qed.

Lemma v2_loop_collect_dot (axisLengths strides : list Z) (fuel : nat) :
  forall rest c flatIdx acc,
  successive (v2_increment axisLengths (length axisLengths)) (c :: rest) ->
  Forall (fun p => p.1 = dot p.2 strides) (numbered flatIdx (c :: rest)) ->
  0 <= flatIdx -> flatIdx + Z.of_nat (length rest) <= GoInt.maxInt ->
  Forall (fun p => p.1 = dot p.2 strides) acc ->
  Forall (fun p => p.1 = dot p.2 strides)
    (final (v2_loop collect axisLengths fuel flatIdx c acc)).
Proof.
  induction fuel as [| fuel IH]; intros rest c flatIdx acc [Hnext Hrest] Hdot H0 Hmax Hacc;
    simpl; [exact Hacc |].
  rewrite numbered_cons in Hdot. inversion Hdot as [| ? ? Hc Hdot']; subst.
  assert (Hacc' : Forall (fun p => p.1 = dot p.2 strides) (acc ++ [(flatIdx, c)])).
  { apply Forall_app. split; [exact Hacc |]. constructor; [exact Hc | constructor]. }
  rewrite Hnext. destruct rest as [| c' rest]; simpl; [exact Hacc' |].
  simpl length in Hmax.
  rewrite GoIntFacts.add_small by (int_range; lia).
  apply (IH rest); [exact Hrest | exact Hdot' | lia | lia | exact Hacc'].
Qed.

Lemma axisLengths_cases (axisLengths : list Z) :
  Forall (fun length => 1 <= length) axisLengths
  \/ Exists (fun length => length <= 0) axisLengths.
Proof.
  induction axisLengths as [| x rest [IH | IH]].
  - left. constructor.
  - destruct (Z_le_gt_dec 1 x); [left; constructor; assumption |].
    right. apply Exists_cons_hd. lia.
  - right. apply Exists_cons_tl, IH.
Qed.

(** X21.  [Iter] and [Strides] agree: when the product of the axis lengths
    is an [int], the flat index of every pair that [Iter] yields is the dot
    product of the yielded coordinates with the strides that [Strides]
    returns. *)
Theorem Iter_flatIdx_dot_Strides (at_ : ArrayType) (fuel : nat) :
  GoInt.is_int (product (AxisLengths at_)) ->
  Forall (fun p => p.1 = dot p.2 (Strides at_))
    (final (range_over (Iter at_) collect fuel [])).
Proof.
  intros Hint. rewrite Iter_IterOn_seq.
  destruct (Ok at_) eqn:Hok;
    [| unfold IterOn_seq; rewrite Hok; constructor].
  destruct (decide (NumAxes at_ = 0%nat)) as [Hrank | Hrank].
  { rewrite IterOn_seq_scalar by (auto using length_replicate).
    simpl. constructor; [reflexivity | constructor]. }
  destruct (axisLengths_cases (AxisLengths at_)) as [Hpos | Hex].
  - destruct fuel as [| fuel].
    { unfold IterOn_seq. rewrite Hok. simpl.
      apply Nat.eqb_neq in Hrank. rewrite Hrank.
      destruct (countNonTrivialAxes _ _) as [m |]; [| constructor].
      destruct (m =? 0)%nat.
      - simpl. constructor; [| constructor]. simpl.
        destruct (row_major_run at_ Hpos Hint) as (rest & _ & _ & _ & Hdot & _).
        rewrite numbered_cons in Hdot. inversion Hdot as [| ? ? Hc _]; subst.
        rewrite length_replicate. exact Hc.
      - destruct (m + 2 <? NumAxes at_)%nat; constructor. }
    rewrite IterOn_seq_v2 by (auto using length_replicate; lia).
    destruct (row_major_run at_ Hpos Hint) as (rest & _ & Hsucc & _ & Hdot & Hmax).
    apply (v2_loop_collect_dot _ _ _ rest); [exact Hsucc | exact Hdot | lia | exact Hmax |].
    constructor.
  - rewrite IterOn_seq_nonpositive by assumption. constructor.
Qed.

Lemma Iter_flatIdx_dot_Strides_witness :
  Forall (fun p => p.1 = dot p.2 (Strides {| DType := dtype.Int8; AxisLengths := [2; 1; 3] |}))
    (final (range_over (Iter {| DType := dtype.Int8; AxisLengths := [2; 1; 3] |})
              collect 4%nat [])).
Proof.
  apply (Iter_flatIdx_dot_Strides {| DType := dtype.Int8; AxisLengths := [2; 1; 3] |} 4%nat).
  apply is_int_iff. simpl. lia.
Defined.

Lemma all_axes_entry (r axisIdx : nat) :
  (axisIdx < r)%nat -> Z.to_nat (seqZ 0 (Z.of_nat r) !!! axisIdx) = axisIdx.
Proof.
  intros H. rewrite (list_lookup_total_correct _ _ (0 + Z.of_nat axisIdx)).
  - lia.
  - apply lookup_seqZ_lt. lia.
Qed.

Lemma all_axes_in_range (r : nat) : Forall (axis_in_range r) (seqZ 0 (Z.of_nat r)).
Proof.
  apply Forall_forall. intros a Ha. apply elem_of_seqZ in Ha.
  unfold axis_in_range. lia.
Qed.

Lemma IterOnAxes_increment_v2 (axisLengths strides : list Z) (r : nat) :
  forall (n : nat) flatIdx indices,
  (n <= r)%nat -> length indices = r ->
  (forall axis : nat, (axis < n)%nat -> axisLengths !!! axis = 1 -> indices !!! axis = 0) ->
  snd <$> IterOnAxes_increment axisLengths strides (seqZ 0 (Z.of_nat r)) n flatIdx indices
    = v2_increment axisLengths n indices.
Proof.
  induction n as [| axis IH]; intros flatIdx indices Hn Hlen Hone; [reflexivity |].
  simpl. rewrite all_axes_entry by lia.
  destruct (Z.eqb_spec (axisLengths !!! axis) 1) as [E | E].
  - assert (Hzero : indices !!! axis = 0) by (apply Hone; [lia | exact E]).
    rewrite Hzero, E.
    rewrite list_lookup_total_insert_eq by lia.
    change (GoInt.add 0 1) with 1. simpl (1 <? 1).
    rewrite list_insert_insert_eq.
    rewrite (list_insert_id indices axis 0).
    + apply IH; [lia | exact Hlen |]. intros a Ha. apply Hone. lia.
    + rewrite <- Hzero. apply list_lookup_lookup_total_lt. lia.
  - destruct (_ <? _); [reflexivity |].
    apply IH; [lia | rewrite !length_insert; exact Hlen |].
    intros a Ha Hl. rewrite !list_lookup_total_insert_ne by lia. apply Hone; [lia | exact Hl].
Qed.

Lemma IterOnAxes_loop_v2 {S : Type} (yield : S -> Z -> list Z -> S * bool)
    (axisLengths strides : list Z) :
  length strides = length axisLengths ->
  forall (fuel : nat) rest c flatIdx s,
  successive (v2_increment axisLengths (length axisLengths)) (c :: rest) ->
  Forall (fun c => Forall2 (fun i length => 0 <= i < length) c axisLengths) (c :: rest) ->
  Forall (fun p => p.1 = dot p.2 strides) (numbered flatIdx (c :: rest)) ->
  0 <= flatIdx -> flatIdx + Z.of_nat (length rest) <= GoInt.maxInt ->
  IterOnAxes_loop yield axisLengths strides (seqZ 0 (Z.of_nat (length axisLengths)))
    fuel flatIdx c s
  = v2_loop yield axisLengths fuel flatIdx c s.
Proof.
  intros Hstrides.
  induction fuel as [| fuel IH]; intros rest c flatIdx s [Hnext Hrest] Hin Hdot H0 Hmax;
    simpl; [reflexivity |].
  destruct (yield s flatIdx c) as [s' continue]. destruct continue; simpl; [| reflexivity].
  rewrite length_seqZ, Nat2Z.id.
  apply Forall_cons in Hin. destruct Hin as [Hc Hin'].
  assert (Hlen : length c = length axisLengths) by (eapply Forall2_length; exact Hc).
  rewrite numbered_cons in Hdot. apply Forall_cons in Hdot.
  destruct Hdot as [Hflat Hdot']. simpl in Hflat.
  assert (Hone : forall axis : nat, (axis < length axisLengths)%nat ->
            axisLengths !!! axis = 1 -> c !!! axis = 0).
  { intros axis Ha Hone. rewrite Forall2_lookup in Hc. specialize (Hc axis).
    rewrite (list_lookup_lookup_total_lt c axis) in Hc by lia.
    rewrite (list_lookup_lookup_total_lt axisLengths axis) in Hc by lia.
    inversion Hc; subst. lia. }
  pose proof (IterOnAxes_increment_v2 axisLengths strides (length axisLengths)
                (length axisLengths) flatIdx c (Nat.le_refl _) Hlen Hone) as Hstep.
  rewrite Hnext in Hstep. rewrite Hnext.
  destruct (IterOnAxes_increment axisLengths strides
              (seqZ 0 (Z.of_nat (length axisLengths))) (length axisLengths) flatIdx c)
    as [[flatIdx' c''] |] eqn:Hincr;
    destruct rest as [| c' rest]; simpl in Hstep; try discriminate; [| reflexivity].
  injection Hstep as ->. simpl.
  pose proof Hdot' as Hdot''. rewrite numbered_cons in Hdot''.
  apply Forall_cons in Hdot''. destruct Hdot'' as [Hflat' _].
  simpl in Hflat'. simpl length in Hmax.
  apply IterOnAxes_increment_dot in Hincr.
  - destruct Hincr as [-> _]. rewrite <- Hflat'.
    rewrite GoIntFacts.add_small by (int_range; lia).
    rewrite GoIntFacts.wrap_small by (int_range; lia).
    apply (IH rest); [exact Hrest | exact Hin' | exact Hdot' | lia | lia].
  - rewrite Hlen. apply all_axes_in_range.
  - rewrite length_seqZ. lia.
  - congruence.
  - rewrite <- Hflat. symmetry. apply GoIntFacts.wrap_small. int_range. lia.
Qed.

Lemma IterOnAxes_reset_zeros (axisLengths : list Z) (r : nat) (axesToIterate : list Z) :
  Forall (fun a => axis_in_range r a /\ 0 < axisLengths !!! Z.to_nat a) axesToIterate ->
  IterOnAxes_reset axisLengths r axesToIterate (replicate r 0)
    = Ok_ (Some (replicate r 0)).
Proof.
  induction 1 as [| a rest [Ha Hpos] _ IH]; [reflexivity |]. simpl.
  unfold axis_in_range in Ha.
  destruct (Z.ltb_spec a 0); [lia |].
  destruct (Z.leb_spec (Z.of_nat r) a); [lia |]. simpl.
  destruct (Z.leb_spec (axisLengths !!! Z.to_nat a) 0); [lia |].
  rewrite list_insert_id; [exact IH |]. apply lookup_replicate_2. lia.
Qed.

(** X22.  Partial iteration over every axis, in order, is full iteration:
    when the product of the axis lengths is an [int] and at least one
    yield is allowed, [IterOnAxes] with the axes [0, 1, ..., rank - 1] and
    nil strides and indices runs as [Iter] does, for every consumer. *)
Theorem IterOnAxes_all_axes_is_Iter (at_ : ArrayType)
    (S : Type) (yield : S -> Z -> list Z -> S * bool) (fuel : nat) (s : S) :
  GoInt.is_int (product (AxisLengths at_)) ->
  (1 <= fuel)%nat ->
  range_over (IterOnAxes at_ (seqZ 0 (Z.of_nat (NumAxes at_))) None None) yield fuel s
    = range_over (Iter at_) yield fuel s.
Proof.
  intros Hint Hfuel. rewrite Iter_IterOn_seq.
  unfold IterOnAxes, IterOnAxes_indices. simpl.
  destruct (Ok at_) eqn:Hok;
    [| unfold IterOnAxes_seq, IterOn_seq; rewrite Hok; reflexivity].
  destruct (decide (NumAxes at_ = 0%nat)) as [Hrank | Hrank].
  { unfold IterOnAxes_seq, IterOn_seq. rewrite Hok, Hrank. reflexivity. }
  destruct (axisLengths_cases (AxisLengths at_)) as [Hpos | Hex].
  - rewrite IterOn_seq_v2 by (auto using length_replicate).
    unfold IterOnAxes_seq. rewrite Hok. simpl.
    apply Nat.eqb_neq in Hrank as Hrank'. rewrite Hrank'.
    rewrite IterOnAxes_reset_zeros.
    2:{ apply Forall_forall. intros a Ha. apply elem_of_seqZ in Ha.
        split; [unfold axis_in_range; lia |].
        rewrite Forall_forall in Hpos.
        assert (1 <= AxisLengths at_ !!! Z.to_nat a); [| lia].
        apply Hpos, list_elem_of_lookup. exists (Z.to_nat a).
        apply list_lookup_lookup_total_lt. unfold NumAxes in Ha. lia. }
    destruct (row_major_run at_ Hpos Hint) as (rest & _ & Hsucc & Hin & Hdot & Hmax).
    assert (Hzero : initialFlatIdx (NumAxes at_) (replicate (NumAxes at_) 0) (Strides at_)
                    = 0).
    { pose proof (initialFlatIdx_dot (replicate (NumAxes at_) 0) (Strides at_)) as Hinit.
      rewrite length_replicate, Strides_length in Hinit. rewrite (Hinit eq_refl).
      rewrite numbered_cons in Hdot. apply Forall_cons in Hdot.
      destruct Hdot as [Hc _]. simpl in Hc. rewrite <- Hc. reflexivity. }
    rewrite Hzero.
    apply (IterOnAxes_loop_v2 yield (AxisLengths at_) (Strides at_)
             (Strides_length at_) fuel rest); [exact Hsucc | exact Hin | exact Hdot | lia |].
    exact Hmax.
  - rewrite IterOn_seq_nonpositive by assumption.
    unfold IterOnAxes_seq. rewrite Hok. simpl.
    apply Nat.eqb_neq in Hrank as Hrank'. rewrite Hrank'.
    rewrite IterOnAxes_reset_nonpositive; [reflexivity | apply all_axes_in_range |].
    apply Exists_exists in Hex. destruct Hex as (x & Hx & Hle).
    apply list_elem_of_lookup in Hx. destruct Hx as [i Hi].
    apply Exists_exists. exists (Z.of_nat i).
    apply lookup_lt_Some in Hi as Hlt. split.
    + apply elem_of_seqZ. unfold NumAxes. lia.
    + rewrite Nat2Z.id. rewrite (list_lookup_total_correct _ _ _ Hi). exact Hle.
Qed.

Lemma IterOnAxes_all_axes_is_Iter_witness :
  range_over (IterOnAxes {| DType := dtype.Float64; AxisLengths := [2; 1; 3] |}
                [0; 1; 2] None None) collect 10%nat []
  = range_over (Iter {| DType := dtype.Float64; AxisLengths := [2; 1; 3] |})
      collect 10%nat [].
Proof.
  apply (IterOnAxes_all_axes_is_Iter {| DType := dtype.Float64; AxisLengths := [2; 1; 3] |}
           _ collect 10%nat []).
  - apply is_int_iff. simpl. lia.
  - lia.
Defined.

(** ** When shape inference succeeds, and how it fails *)

Lemma regular_dims (t : GoType) : forall (v : GoValue t) dims,
  regular t v dims ->
  length dims = sliceDepth t /\ Forall (fun length => 1 <= length) dims.
Proof.
  induction t as [name | elem IH]; intros v dims Hreg; simpl in *.
  - subst dims. split; [reflexivity | constructor].
  - destruct dims as [| d dims]; [contradiction |].
    destruct Hreg as (-> & Hne & Hall).
    destruct v as [| v0 others]; [exfalso; apply Hne; reflexivity |].
    apply Forall_cons in Hall. destruct Hall as [H0 _].
    destruct (IH v0 dims H0) as [Hlen Hpos]. simpl. split; [lia |].
    constructor; [lia | exact Hpos].
Qed.

Section FromAnyValueErrors.

Variable FromGoType : GoType -> dtype.DType.

#[local] Notation "'recurse'" := (arrayTypeForAnyValueRecursive FromGoType).

Lemma recursive_success_regular (t : GoType) (arrayType : ArrayType) (v : GoValue t)
    (a : ArrayType) :
  recurse t arrayType v = (a, None) ->
  FromGoType (scalarType t) <> dtype.InvalidDType
  /\ exists dims, regular t v dims
                  /\ a = inferred FromGoType t (AxisLengths arrayType) dims.
Proof.
  intros Hrun.
  assert (Hsup : FromGoType (scalarType t) <> dtype.InvalidDType)
    by (eapply recursive_success_supported, Hrun).
  split; [exact Hsup |].
  assert (Hne : ~ has_empty t v).
  { intros Hex. destruct (recursive_has_empty FromGoType t arrayType v Hex) as (a' & e & He).
    rewrite He in Hrun. discriminate. }
  destruct (recursive_no_empty FromGoType t arrayType v Hsup Hne)
    as [(dims & Hreg & Hok) | (a' & x & y & Herr & _)].
  - exists dims. split; [exact Hreg |]. rewrite Hok in Hrun. injection Hrun as <-.
    reflexivity.
  - rewrite Herr in Hrun. discriminate.
Qed.

Lemma checkSiblings_errors (elem : GoType) (arrayType arrayTypePrefix : ArrayType)
    (others : list (GoValue elem)) (e : Error) :
  (forall a x a' e', recurse elem a x = (a', Some e') ->
     e' = ErrCannotConvert (scalarType elem)
     \/ (exists t', e' = ErrEmptySlice t')
     \/ (exists x y, e' = ErrIrregular x y /\ Equal x y = false)) ->
  checkSiblings (recurse elem) arrayType arrayTypePrefix others = Some e ->
  e = ErrCannotConvert (scalarType elem)
  \/ (exists t', e = ErrEmptySlice t')
  \/ (exists x y, e = ErrIrregular x y /\ Equal x y = false).
Proof.
  intros Hrec. induction others as [| vi others IH]; simpl; [discriminate |].
  destruct (recurse elem (Clone arrayTypePrefix) vi) as [test [e' |]] eqn:E.
  - intros H. injection H as <-. eapply Hrec, E.
  - destruct (Equal arrayType test) eqn:Eq; simpl; [exact IH |].
    intros H. injection H as <-. right. right. eexists _, _. split; [reflexivity | exact Eq].
Qed.

Lemma recursive_errors (t : GoType) : forall (arrayType : ArrayType) (v : GoValue t) a e,
  recurse t arrayType v = (a, Some e) ->
  e = ErrCannotConvert (scalarType t)
  \/ (exists t', e = ErrEmptySlice t')
  \/ (exists x y, e = ErrIrregular x y /\ Equal x y = false).
Proof.
  induction t as [name | elem IH]; intros arrayType v a e Hrun.
  - simpl in Hrun. destruct (dtype.eqb _ _); [| discriminate].
    injection Hrun as _ <-. left. reflexivity.
  - destruct v as [| v0 others].
    + simpl in Hrun. injection Hrun as _ <-. right. left. eexists. reflexivity.
    + rewrite recursive_cons in Hrun. cbv zeta in Hrun.
      destruct (recurse elem _ v0) as [a0 [e0 |]] eqn:E0.
      * injection Hrun as _ <-. exact (IH _ _ _ _ E0).
      * injection Hrun as _ Hcheck.
        apply (checkSiblings_errors elem _ _ _ e (fun a1 x a' e' H => IH a1 x a' e' H)
                 Hcheck).
Qed.

Lemma recursive_unsupported (t : GoType) : forall (arrayType : ArrayType) (v : GoValue t),
  FromGoType (scalarType t) = dtype.InvalidDType ->
  exists a e, recurse t arrayType v = (a, Some e)
              /\ (e = ErrCannotConvert (scalarType t) \/ exists t', e = ErrEmptySlice t').
Proof.
  induction t as [name | elem IH]; intros arrayType v Hun.
  - simpl in *. rewrite Hun. simpl. eexists _, _. split; [reflexivity | left; reflexivity].
  - destruct v as [| v0 others].
    + eexists _, _. split; [reflexivity | right; eexists; reflexivity].
    + rewrite recursive_cons. cbv zeta.
      destruct (IH {| DType := DType arrayType;
                      AxisLengths := AxisLengths arrayType
                                     ++ [Z.of_nat (length (v0 :: others))] |} v0 Hun)
        as (a & e & -> & He).
      exists a, e. split; [reflexivity | exact He].
Qed.

End FromAnyValueErrors.

(** X23.  [FromAnyValue] returns without an error exactly for a regular
    value of a supported scalar type: no slice at any level is empty and
    the elements of every slice have the same axis lengths.  The array
    type returned is then valid, has one axis for each slice level of the
    Go type, and every axis length is 1 or more. *)
Theorem FromAnyValue_success_iff (FromGoType : GoType -> dtype.DType)
    (t : GoType) (v : GoValue t) (a : ArrayType) :
  (FromAnyValue FromGoType t v = (a, None)
   <-> FromGoType (scalarType t) <> dtype.InvalidDType
       /\ exists dims,
            regular t v dims
            /\ a = {| DType := FromGoType (scalarType t); AxisLengths := dims |})
  /\ (FromAnyValue FromGoType t v = (a, None) ->
      Ok a = true /\ NumAxes a = sliceDepth t
      /\ Forall (fun length => 1 <= length) (AxisLengths a)).
Proof.
  assert (Hto : FromAnyValue FromGoType t v = (a, None) ->
            FromGoType (scalarType t) <> dtype.InvalidDType
            /\ exists dims,
                 regular t v dims
                 /\ a = {| DType := FromGoType (scalarType t); AxisLengths := dims |}).
  { intros H. apply recursive_success_regular in H. exact H. }
  split; [split; [exact Hto |] |].
  - intros (Hsup & dims & Hreg & ->). unfold FromAnyValue.
    rewrite (recursive_regular FromGoType t _ v dims Hsup Hreg). reflexivity.
  - intros H. destruct (Hto H) as (Hsup & dims & Hreg & ->).
    destruct (regular_dims t v dims Hreg) as [Hlen Hpos].
    split; [| split; [exact Hlen | exact Hpos]].
    unfold Ok. simpl. apply dtype_eqb_neq in Hsup. rewrite Hsup. reflexivity.
Qed.

(** X24.  The errors of [FromAnyValue] are of three kinds: the scalar type
    has no element kind, a slice is empty, or two sibling sub-slices gave
    array types that are not [Equal], which the error carries.  When the
    scalar type has no element kind, the call fails on every value, and
    never with the irregular-shapes error. *)
Theorem FromAnyValue_errors (FromGoType : GoType -> dtype.DType)
    (t : GoType) (v : GoValue t) :
  (forall a e,
     FromAnyValue FromGoType t v = (a, Some e) ->
     e = ErrCannotConvert (scalarType t)
     \/ (exists t', e = ErrEmptySlice t')
     \/ (exists x y, e = ErrIrregular x y /\ Equal x y = false))
  /\ (FromGoType (scalarType t) = dtype.InvalidDType ->
      exists a e,
        FromAnyValue FromGoType t v = (a, Some e)
        /\ (e = ErrCannotConvert (scalarType t) \/ exists t', e = ErrEmptySlice t')).
Proof.
  split.
  - intros a e H. eapply recursive_errors, H.
  - intros Hun. apply recursive_unsupported, Hun.
Qed.

Lemma FromAnyValue_errors_witness :
  exists a e,
    FromAnyValue FromGoType_basic (TSlice (TSlice (TNamed "string")))
      [[1; 2]; [3]] = (a, Some e)
    /\ (e = ErrCannotConvert (scalarType (TSlice (TSlice (TNamed "string"))))
        \/ exists t', e = ErrEmptySlice t').
Proof.
  refine (proj2 (FromAnyValue_errors FromGoType_basic
            (TSlice (TSlice (TNamed "string"))) [[1; 2]; [3]]) _).
  reflexivity.
Defined.

(** ** Serialization when the encoder or the stream fails *)

(** X25.  [GobSerialize] writes the element kind and then the axis
    lengths, as far as the encoder accepts messages, and nothing else: it
    returns no error exactly when the encoder accepts both, and otherwise
    the error that wraps the array type.  After a refused message nothing
    more is written, so an encoder that accepts one message is left with
    the element kind alone. *)
Theorem GobSerialize_writes (at_ : ArrayType) (encoder : Encoder) :
  written (GobSerialize at_ encoder).1
    = written encoder
      ++ take (room encoder) [GobDType (DType at_); GobInts (AxisLengths at_)]
  /\ room (GobSerialize at_ encoder).1 = (room encoder - 2)%nat
  /\ ((GobSerialize at_ encoder).2 = None <-> (2 <= room encoder)%nat)
  /\ ((room encoder < 2)%nat -> (GobSerialize at_ encoder).2 = Some (ErrGobEncode at_)).
Proof.
  destruct encoder as [w [| [| r]]]; unfold GobSerialize, Encoder_Encode; simpl.
  - rewrite app_nil_r. repeat split; intros; try reflexivity; try lia; discriminate.
  - repeat split; intros; try reflexivity; try lia; discriminate.
  - rewrite <- app_assoc. simpl. rewrite take_nil.
    repeat split; intros; try reflexivity; lia.
Qed.

